(** * Documin-o: the document pipeline of [app.py] and [MAIN.py]

    A shallow embedding of the text parser, the export renderer, the image
    normaliser, the field extractor and the background worker with its
    result store, followed by the properties of the specification proved
    (or evaluated at a failing input) on that embedding. *)

From Stdlib Require Import ZArith NArith List Lia Bool String Ascii.
From Stdlib Require Import Floats.PrimFloat Floats.SpecFloat Floats.FloatOps.
From Stdlib Require Import Numbers.Cyclic.Int63.Uint63.
From stdpp Require Import base option list gmap.

Open Scope Z_scope.

(** ** Python strings

    A [str] is a sequence of Unicode code points; a code point is an [N].
    String literals of the source are written with [lit]. *)

Module Py.

Abbreviation char := N.
Abbreviation str := (list N).
Abbreviation bytes := (list N).

Definition lit (s : string) : str :=
  List.map N_of_ascii (list_ascii_of_string s).

Definition NL : char := 10%N.
Definition COLON : char := 58%N.
Definition SLASH : char := 47%N.

(** [str.isspace] on one code point, the set [str.strip()] removes. *)
Definition is_space (c : char) : bool :=
  ((9 <=? c) && (c <=? 13) || (28 <=? c) && (c <=? 32)
   || (c =? 133) || (c =? 160) || (c =? 5760)
   || (8192 <=? c) && (c <=? 8202)
   || (c =? 8232) || (c =? 8233) || (c =? 8239) || (c =? 8287)
   || (c =? 12288))%N.

Fixpoint lstrip (s : str) : str :=
  match s with
  | c :: s' => if is_space c then lstrip s' else s
  | [] => []
  end.

Fixpoint rstrip (s : str) : str :=
  match s with
  | [] => []
  | c :: s' =>
      match rstrip s' with
      | [] => if is_space c then [] else [c]
      | r => c :: r
      end
  end.

(** [s.strip()] *)
Definition strip (s : str) : str := rstrip (lstrip s).

(** [s.split(sep)] for a one-character separator: never empty. *)
Fixpoint split (sep : char) (s : str) : list str :=
  match s with
  | [] => [[]]
  | c :: s' =>
      if N.eqb c sep then [] :: split sep s'
      else match split sep s' with
           | l :: ls => (c :: l) :: ls
           | [] => [[c]]
           end
  end.

(** [sep in s] *)
Definition contains (sep : char) (s : str) : bool :=
  existsb (N.eqb sep) s.

(** [s.split(sep, 1)] when [sep in s]: the text before the first
    separator and the text after it. [None] when there is no separator
    (Python then returns the one-element list [[s]]). *)
Fixpoint split1 (sep : char) (s : str) : option (str * str) :=
  match s with
  | [] => None
  | c :: s' =>
      if N.eqb c sep then Some ([], s')
      else match split1 sep s' with
           | Some (k, v) => Some (c :: k, v)
           | None => None
           end
  end.

(** [os.path.basename] on a POSIX path: what follows the last slash. *)
Fixpoint basename (p : str) : str :=
  match p with
  | [] => []
  | c :: p' => if contains SLASH p' then basename p'
               else if N.eqb c SLASH then p' else p
  end.

(** [sep.join(parts)] *)
Fixpoint join (sep : str) (parts : list str) : str :=
  match parts with
  | [] => []
  | [p] => p
  | p :: ps => p ++ sep ++ join sep ps
  end.

(** A [dict] from [str] to [str]: insertion ordered, one entry per key;
    assigning to a key that is present replaces its value in place. *)
Abbreviation dict := (list (list N * list N)).

Definition str_eqb (a b : str) : bool := bool_decide (a = b).

Fixpoint dict_get (k : str) (d : dict) : option str :=
  match d with
  | [] => None
  | (k', v) :: d' => if str_eqb k k' then Some v else dict_get k d'
  end.

(** [d[k] = v] *)
Fixpoint dict_set (k v : str) (d : dict) : dict :=
  match d with
  | [] => [(k, v)]
  | (k', v') :: d' =>
      if str_eqb k k' then (k', v) :: d' else (k', v') :: dict_set k v d'
  end.

(** [d.get(k, default)] *)
Definition get (d : dict) (k : str) (default : str) : str :=
  match dict_get k d with Some v => v | None => default end.

(** [d.update(other)] *)
Definition update (d other : dict) : dict :=
  fold_left (fun acc kv => dict_set (fst kv) (snd kv) acc) other d.

End Py.

Import Py.

(** ** Text-to-fields parser ([app.py], [parse_extracted_text]) *)

(** The body of the loop over the lines: a line with a colon is cut at its
    first colon and stored, any other line is skipped. *)
Definition store_line (data : dict) (line : str) : dict :=
  if contains COLON line then
    match split1 COLON line with
    | Some (key, value) => dict_set (strip key) (strip value) data
    | None => data
    end
  else data.

Definition parse_extracted_text (text : str) (document_type : str) : dict :=
  match text with
  | [] => []
  | _ => fold_left store_line (split NL (strip text)) []
  end.

(** The parser as the specification words it, to be compared with
    [parse_extracted_text]: the lines of the text, the labelled pairs they
    contribute, and the last pair of a label as its value. *)
Module ParserSpec.

Definition labelled (line : str) : list (str * str) :=
  match split1 COLON line with
  | Some (label, value) => [(strip label, strip value)]
  | None => []
  end.

Definition pairs (text : str) : list (str * str) :=
  flat_map labelled (split NL text).

Fixpoint last_value (label : str) (ps : list (str * str)) : option str :=
  match ps with
  | [] => None
  | (l, v) :: ps' =>
      match last_value label ps' with
      | Some w => Some w
      | None => if str_eqb label l then Some v else None
      end
  end.

Definition colon_lines (text : str) : list str :=
  filter (fun line => contains COLON line = true) (split NL text).

Definition plain_lines (text : str) : list str :=
  filter (fun line => contains COLON line = false) (split NL text).

End ParserSpec.

(** ** External collaborators

    What the pipeline calls but does not define: the CSV writer, [str] of a
    dictionary, the image decoder, the vision-language model and the
    operating system. *)

(** Exceptions, with the text [str(e)] gives. *)
Inductive exn :=
| KeyError (key : str)
| UnboundLocalError (name : str)
| ValueError (msg : str)
| TypeError (msg : str)
| AttributeError (msg : str)
| ZeroDivisionError
| FileNotFoundError (path : str)
| RuntimeError (msg : str)
| External (msg : str).

Definition exn_str (e : exn) : str :=
  match e with
  | KeyError key => lit "'" ++ key ++ lit "'"
  | UnboundLocalError name =>
      lit "cannot access local variable '" ++ name
        ++ lit "' where it is not associated with a value"
  | ValueError msg | TypeError msg | AttributeError msg
  | RuntimeError msg | External msg => msg
  | ZeroDivisionError => lit "division by zero"
  | FileNotFoundError path =>
      lit "[Errno 2] No such file or directory: '" ++ path ++ lit "'"
  end.

(** How a statement ends: normally, by raising, or by [continue]. *)
Inductive outcome (A : Type) :=
| Ok (a : A)
| Raise (e : exn)
| Continue.
Arguments Ok {A} a.
Arguments Raise {A} e.
Arguments Continue {A}.

(** What [image_path] and the value under ['path'] can be: a path, or the
    [BytesIO] buffer of an upload kept in memory. *)
Inductive pathval :=
| PStr (p : str)
| PBuf (b : bytes).

(** A decoded image, as far as the normaliser looks at it. *)
Record image := { im_mode : str; im_size : Z * Z }.

(** The normaliser's result, with the intermediate values it went through:
    [image.size] when pasted, the side of the canvas, the paste offsets,
    the mode and size of [new_image], and the shape of the tensor. *)
Record normalized := {
  pasted_size : Z * Z;
  square_size : Z;
  paste_at : Z * Z;
  out_mode : str;
  out_size : Z * Z;
  tensor_shape : list Z;
}.

Class Env := {
  (** [csv.writer(output, delimiter='\t').writerow(row)]: the text written *)
  writerow : list str -> str;
  (** [str(d)] of a dictionary *)
  dict_repr : dict -> str;
  (** [Image.open] on the content of a file *)
  image_open : bytes -> outcome image;
  (** [AutoTokenizer.from_pretrained] and [AutoModel.from_pretrained] *)
  from_pretrained : option exn;
  (** [model.chat(pixel_values, question, max_new_tokens)] *)
  chat : normalized -> str -> Z -> outcome str;
  (** [tempfile.mkstemp(suffix)]: the path of the new file *)
  mkstemp : str -> gmap str bytes -> str;
  (** [open(path, 'wb')] and [f.write(content)]: the error, if any *)
  write_error : str -> bytes -> option exn;
  (** [save_document_data]: whether the row reached the spreadsheet *)
  save_document_data : str -> str -> dict -> bool;
}.

(** ** Export renderer ([app.py], [convert_to_csv_content]) *)

(** [result['extraction_data']]: the raw text or the parsed fields. *)
Inductive extraction :=
| Raw (text : str)
| Fields (d : dict).

Record result := { filename : str; extraction_data : extraction }.

Definition check_headers : list str :=
  List.map lit
    ["Filename"; "Link to The file"; "Pic Date"; "Download Date";
     "Check Type"; "Bank Name"; "1st Payor First Name";
     "1st Payor Family Name"; "2nd Payor First Name";
     "2nd Payor Family Name"; "Payor Street Address"; "Payor City";
     "Payor State"; "Payor Zip code"; "Check Amount"; "Account Number";
     "Routing Number"; "Payee Type"; "1st Payee First Name";
     "1st Payee Family Name"; "2nd Payee First Name";
     "2nd Payee Family Name"; "Check Number"; "Payee Street Address";
     "Payee City"; "Payee State"; "Payee Zip Code"; "Market"]%string.

(** The loop of [extract_check_data] on raw text: an empty value is stored
    as ['NA']. *)
Definition store_check_line (data : dict) (line : str) : dict :=
  if contains COLON line then
    match split1 COLON line with
    | Some (key, value) =>
        dict_set (strip key)
                 (match strip value with [] => lit "NA" | v => v end) data
    | None => data
    end
  else data.

Definition extract_check_data (filename : str) (extraction_text : extraction)
  : list str :=
  let data :=
    match extraction_text with
    | Raw text => fold_left store_check_line (split NL text) []
    | Fields d => d
    end in
  let nf := lit "Not found" in
  [ filename; nf; nf; nf; nf;
    get data (lit "Bank Name") nf;
    get data (lit "Payor Name") nf;
    nf; nf; nf;
    get data (lit "Payor Address") nf;
    nf; nf; nf;
    get data (lit "Amount") nf;
    nf; nf; nf;
    get data (lit "Payee Name") nf;
    nf; nf; nf;
    get data (lit "Check Number") nf;
    get data (lit "Payee Address") nf;
    nf; nf; nf; nf ].

Definition passport_fields : list str :=
  List.map lit
    ["Passport Country Code"; "Passport Type"; "Passport Number";
     "First Name"; "Family Name"; "Date of Birth Day";
     "Date of Birth Month"; "Date of Birth Year"; "Place of Birth";
     "Gender"; "Date of Issue Day"; "Date of Issue Month";
     "Date of Issue Year"; "Date of Expiration Day";
     "Date of Expiration Month"; "Date of Expiration Year";
     "Authority"]%string.

Definition passport_headers : list str := lit "Filename" :: passport_fields.

(** The re-parse of [extract_passport_data] and [extract_invoice_data]
    when they are given text. *)
Definition as_dict (data : extraction) : dict :=
  match data with
  | Raw text => fold_left store_line (split NL text) []
  | Fields d => d
  end.

Definition extract_passport_data (filename : str) (data : extraction)
  : list str :=
  let data := as_dict data in
  let na := lit "NA" in
  [ filename;
    get data (lit "Passport Country Code") na;
    get data (lit "Passport Type") na;
    get data (lit "Passport Number") na;
    get data (lit "First Name") na;
    get data (lit "Family Name") na;
    get data (lit "Date of Birth Day") na;
    get data (lit "Date of Birth Month") na;
    get data (lit "Date of Birth Year") na;
    get data (lit "Place of Birth") na;
    get data (lit "Gender") na;
    get data (lit "Date of Issue Day") na;
    get data (lit "Date of Issue Month") na;
    get data (lit "Date of Issue Year") na;
    get data (lit "Date of Expiration Day") na;
    get data (lit "Date of Expiration Month") na;
    get data (lit "Date of Expiration Year") na;
    get data (lit "Authority") na ].

Definition invoice_headers : list str :=
  List.map lit
    ["Filename"; "Invoice Number"; "Date"; "Due Date"; "Total Amount";
     "Vendor Name"; "Customer Name"; "Payment Terms"]%string.

Definition extract_invoice_data (filename : str) (data : extraction)
  : list str :=
  let data := as_dict data in
  let na := lit "NA" in
  [ filename;
    get data (lit "Invoice Number") na;
    get data (lit "Date") na;
    get data (lit "Due Date") na;
    get data (lit "Total Amount") na;
    get data (lit "Vendor Name") na;
    get data (lit "Customer Name") na;
    get data (lit "Payment Terms") na ].

Section Renderer.
Context {E : Env}.

(** [str(x)] of the extraction data. *)
Definition py_str (x : extraction) : str :=
  match x with
  | Raw text => text
  | Fields d => dict_repr d
  end.

(** [document_type or 'unknown'] *)
Definition doc_type_or_unknown (document_type : option str) : str :=
  match document_type with
  | None | Some [] => lit "unknown"
  | Some t => t
  end.

(** The rows handed to [writer.writerow], the header first. *)
Definition csv_rows (all_results : list result) (document_type : option str)
  : list (list str) :=
  let doc_type := doc_type_or_unknown document_type in
  if str_eqb doc_type (lit "check") then
    check_headers
      :: List.map (fun r => extract_check_data (filename r) (extraction_data r))
                  all_results
  else if str_eqb doc_type (lit "passport") then
    passport_headers
      :: List.map (fun r => extract_passport_data (filename r) (extraction_data r))
                  all_results
  else if str_eqb doc_type (lit "invoice") then
    invoice_headers
      :: List.map (fun r => extract_invoice_data (filename r) (extraction_data r))
                  all_results
  else
    [lit "Filename"; lit "Extraction Data"]
      :: List.map (fun r => [filename r; py_str (extraction_data r)])
                  all_results.

Definition convert_to_csv_content (all_results : list result)
  (document_type : option str) : str :=
  concat (List.map writerow (csv_rows all_results document_type)).

End Renderer.

(** ** Instruction templates ([MAIN.py]) *)

Definition passport_instruction : str :=
  join [NL]
    [lit "Extract the following specific data from this passport image. Look carefully for each field:";
     [];
     lit "1. PASSPORT COUNTRY CODE: The 3-letter country code, usually in the MRZ or on the data page";
     [];
     lit "2. PASSPORT TYPE: Usually a single letter (P for regular passport) in the MRZ line";
     [];
     lit "3. PASSPORT NUMBER: Look for 'Passport No./No. du Passeport'";
     [];
     lit "4. FIRST NAME: Extract only the first/given name from 'Given names/Pr" ++ [8730%N] ++ [169%N] ++ lit "noms'";
     [];
     lit "5. FAMILY NAME: Extract only the surname/family name from 'Surname/Nom'";
     [];
     lit "6. DATE OF BIRTH: Extract the day, month, and year separately   - Date of Birth Day (numeric)   - Date of Birth Month (numeric or text)   - Date of Birth Year (4 digits)";
     [];
     lit "7. PLACE OF BIRTH: Look for 'Place of birth/Lieu de naissance'";
     [];
     lit "8. GENDER: Look for 'Sex/Sexe' field (M or F)";
     [];
     lit "9. DATE OF ISSUE: Extract the day, month, and year separately   - Date of Issue Day (numeric)   - Date of Issue Month (numeric or text)   - Date of Issue Year (4 digits)";
     [];
     lit "10. DATE OF EXPIRATION: Extract the day, month, and year separately   - Date of Expiration Day (numeric)   - Date of Expiration Month (numeric or text)   - Date of Expiration Year (4 digits)";
     [];
     lit "11. ISSUING AUTHORITY: Agency or entity that issued the passport";
     [];
     lit "Output exactly in this format (write 'Not visible' only if you cannot find the information):";
     lit "----------------------------";
     lit "Passport Country Code: [3-letter code]";
     lit "Passport Type: [letter code]";
     lit "Passport Number: [number]";
     lit "First Name: [first/given name only]";
     lit "Family Name: [family/surname only]";
     lit "Date of Birth Day: [day]";
     lit "Date of Birth Month: [month]";
     lit "Date of Birth Year: [year]";
     lit "Place of Birth: [place]";
     lit "Gender: [M/F]";
     lit "Date of Issue Day: [day]";
     lit "Date of Issue Month: [month]";
     lit "Date of Issue Year: [year]";
     lit "Date of Expiration Day: [day]";
     lit "Date of Expiration Month: [month]";
     lit "Date of Expiration Year: [year]";
     lit "Authority: [issuing authority]"].

Definition check_instruction : str :=
  join [NL]
    [lit "Extract text exactly as it appears in this check/cheque image. Look carefully for ONLY these specific fields:";
     [];
     lit "1. BANK NAME:   - Look at the top center/header of check   - Usually includes words like 'Bank', 'Trust', 'Financial' etc.";
     [];
     lit "2. PAYOR NAME:   - Look for the pre-printed name at top-left of check   - This is the person/entity WRITING the check   - Extract only the name";
     [];
     lit "3. PAYOR ADDRESS:   - Look for the pre-printed address under the payor name   - Include complete street address";
     [];
     lit "4. CHECK NUMBER:   - Look for number in top-right corner or bottom MICR line";
     [];
     lit "5. PAYEE NAME:   - Look for name after 'Pay to the order of' or 'Pay'   - Extract only the name   - If business name, include full name";
     [];
     lit "6. PAYEE ADDRESS:   - Look for address associated with payee if present";
     [];
     lit "7. AMOUNT:   - Look for amount in numbers (in box on right side)   - Format as dollars and cents (e.g., 1,123.56)";
     [];
     lit "Output exactly in this format :";
     lit "----------------------------";
     lit "Bank Name: [name of bank]";
     lit "1st Payor First Name: [ name of payor]";
     lit "Payor Street Address: [complete street address]";
     lit "Check Amount: [amount in numbers]";
     lit "1st Payee First Name: [ name or business name]";
     lit "Check Number: [number]";
     lit "Payee Street Address: [complete street address]"].

Definition invoice_instruction : str :=
  join [NL]
    [lit "Extract text exactly as it appears in this invoice image. For each field below:";
     [];
     lit "1. INVOICE NUMBER: Look for 'Invoice #', 'Invoice Number', etc.";
     [];
     lit "2. INVOICE DATE: Look for 'Date', 'Invoice Date', etc.";
     [];
     lit "3. DUE DATE: Look for 'Due Date', 'Payment Due', etc.";
     [];
     lit "4. VENDOR/SELLER: Company name, address, contact info (who issued the invoice)";
     [];
     lit "5. CUSTOMER/BILL TO: Name and address of the customer";
     [];
     lit "6. PAYMENT TERMS: Look for 'Terms', 'Payment Terms', etc. (e.g., Net 30)";
     [];
     lit "7. ITEMS/SERVICES: List all line items with descriptions, quantities, unit prices";
     [];
     lit "8. SUBTOTAL: Amount before tax/shipping";
     [];
     lit "9. TAX: Tax amount and rate (if specified)";
     [];
     lit "10. SHIPPING/HANDLING: Shipping or handling charges (if any)";
     [];
     lit "11. TOTAL AMOUNT: Final amount due";
     [];
     lit "12. PAYMENT INSTRUCTIONS: Bank details, payment methods, etc.";
     [];
     lit "Output exactly in this format (write 'Not visible' only if you cannot find the information):";
     lit "----------------------------";
     lit "Invoice Number: [number]";
     lit "Invoice Date: [date]";
     lit "Due Date: [date]";
     lit "Vendor/Seller: [company name & address]";
     lit "Customer: [name & address]";
     lit "Payment Terms: [terms]";
     lit "Items/Services: [description of items with prices]";
     lit "Subtotal: [amount]";
     lit "Tax: [amount and rate]";
     lit "Shipping/Handling: [amount if applicable]";
     lit "Total Amount: [final amount]";
     lit "Payment Instructions: [payment details]"].

(** [system_instructions.get(document_type, passport_instruction)] *)
Definition system_instruction_for (document_type : str) : str :=
  if str_eqb document_type (lit "passport") then passport_instruction
  else if str_eqb document_type (lit "check") then check_instruction
  else if str_eqb document_type (lit "invoice") then invoice_instruction
  else passport_instruction.

(** [f"<image>\n{system_instruction}\n\n"] *)
Definition prompt_of (system_instruction : str) : str :=
  lit "<image>" ++ [NL] ++ system_instruction ++ [NL; NL].

(** ** Image normaliser ([MAIN.py], [preprocess_image])

    Python's [float] is the IEEE 754 double, as Rocq's primitive floats
    are. Image sides are far below 2^53, where the conversions from
    integers are exact. *)

Definition float_of_int (z : Z) : float := PrimFloat.of_uint63 (Uint63.of_Z z).

(** [a / b] on integers, for a divisor that is not zero. *)
Definition true_div (a b : Z) : float :=
  PrimFloat.div (float_of_int a) (float_of_int b).

(** [max(a, b)] on floats: [b] when [b > a], else [a]. *)
Definition float_max (a b : float) : float :=
  if PrimFloat.ltb a b then b else a.

(** [int(x)]: truncation towards zero. On the infinities and on nan, where
    Python raises, the value is 0; the products of an image side and a
    scale factor are finite. *)
Definition int_of_float (x : float) : Z :=
  match Prim2SF x with
  | S754_finite s m e =>
      let v := if 0 <=? e then Z.pos m * 2 ^ e else Z.pos m / 2 ^ (- e) in
      if s then - v else v
  | _ => 0
  end.

Definition RGB : str := lit "RGB".

(** The part of [preprocess_image] after [Image.open], without its
    [try]: the conversion to RGB, the upscaling to the minimum size, the
    white square canvas, the paste, the resize and the tensor. The
    resize of the canvas to a side below 1 is refused by the image
    library with a [ValueError]. *)
Definition normalize (img : image) (input_size min_size : Z)
  : outcome normalized :=
  let img :=
    if str_eqb (im_mode img) RGB then img
    else {| im_mode := RGB; im_size := im_size img |} in
  let '(w, h) := im_size img in
  let resized : outcome image :=
    if (w <? min_size) || (h <? min_size) then
      if (w =? 0) || (h =? 0) then Raise ZeroDivisionError
      else
        let scale := float_max (true_div min_size w) (true_div min_size h) in
        let new_w :=
          Z.max min_size (int_of_float (PrimFloat.mul (float_of_int w) scale)) in
        let new_h :=
          Z.max min_size (int_of_float (PrimFloat.mul (float_of_int h) scale)) in
        Ok {| im_mode := im_mode img; im_size := (new_w, new_h) |}
    else Ok img in
  match resized with
  | Ok img =>
      let max_dim := Z.max (fst (im_size img)) (snd (im_size img)) in
      let square_size := Z.max max_dim input_size in
      let paste_x := (square_size - w) / 2 in
      let paste_y := (square_size - h) / 2 in
      let new_size : outcome (Z * Z) :=
        if input_size <? square_size then
          if input_size <? 1
          then Raise (ValueError (lit "height and width must be > 0"))
          else Ok (input_size, input_size)
        else Ok (square_size, square_size) in
      match new_size with
      | Ok new_size =>
          Ok {| pasted_size := im_size img;
                square_size := square_size;
                paste_at := (paste_x, paste_y);
                out_mode := RGB;
                out_size := new_size;
                tensor_shape := [1; 3; snd new_size; fst new_size] |}
      | Raise e => Raise e
      | Continue => Continue
      end
  | Raise e => Raise e
  | Continue => Continue
  end.

Section Extractor.
Context {E : Env}.

(** [Image.open(image_path)]: a path is read from the files that exist, a
    buffer is read as it is. *)
Definition open_image (files : gmap str bytes) (image_path : pathval)
  : outcome image :=
  match image_path with
  | PStr p =>
      match files !! p with
      | Some content => image_open content
      | None => Raise (FileNotFoundError p)
      end
  | PBuf b => image_open b
  end.

(** [preprocess_image(image_path, input_size=448, min_size=14)]: every
    exception becomes a [RuntimeError]. *)
Definition preprocess_image (files : gmap str bytes) (image_path : pathval)
  (input_size min_size : Z) : outcome normalized :=
  let attempt :=
    match open_image files image_path with
    | Ok img => normalize img input_size min_size
    | Raise e => Raise e
    | Continue => Continue
    end in
  match attempt with
  | Raise e => Raise (RuntimeError (lit "Error preprocessing image: " ++ exn_str e))
  | r => r
  end.

(** [process_document_image(image_path, document_type, tokenizer, model)]:
    the model's reply, or the text of the exception. *)
Definition process_document_image (files : gmap str bytes)
  (image_path : pathval) (document_type : str) : str :=
  let attempt :=
    match preprocess_image files image_path 448 14 with
    | Ok pixel_values =>
        let system_instruction := system_instruction_for document_type in
        let prompt := prompt_of system_instruction in
        chat pixel_values prompt 512
    | Raise e => Raise e
    | Continue => Continue
    end in
  match attempt with
  | Ok response => response
  | Raise e => lit "Error processing image: " ++ exn_str e
  | Continue => []
  end.

End Extractor.

(** ** Result store, files and queue ([app.py]) *)

Inductive status := processing | completed | error.

(** One value of [results_dict]: a dictionary with the keys below, an
    absent key being [None]. ['status'] is in every dictionary the code
    builds. *)
Record entry := {
  e_status : status;
  e_data : option str;
  e_path : option pathval;
  e_image_data : option bytes;
  e_error : option str;
  e_txt_content : option str;
  e_parsed_data : option dict;
  e_csv_content : option str;
  e_is_saved : option bool;
}.

Definition entry_of (s : status) : entry :=
  {| e_status := s; e_data := None; e_path := None; e_image_data := None;
     e_error := None; e_txt_content := None; e_parsed_data := None;
     e_csv_content := None; e_is_saved := None |}.

Definition with_status (s : status) (e : entry) : entry :=
  {| e_status := s; e_data := e_data e; e_path := e_path e;
     e_image_data := e_image_data e; e_error := e_error e;
     e_txt_content := e_txt_content e; e_parsed_data := e_parsed_data e;
     e_csv_content := e_csv_content e; e_is_saved := e_is_saved e |}.

Definition with_data (v : str) (e : entry) : entry :=
  {| e_status := e_status e; e_data := Some v; e_path := e_path e;
     e_image_data := e_image_data e; e_error := e_error e;
     e_txt_content := e_txt_content e; e_parsed_data := e_parsed_data e;
     e_csv_content := e_csv_content e; e_is_saved := e_is_saved e |}.

Definition with_path (v : pathval) (e : entry) : entry :=
  {| e_status := e_status e; e_data := e_data e; e_path := Some v;
     e_image_data := e_image_data e; e_error := e_error e;
     e_txt_content := e_txt_content e; e_parsed_data := e_parsed_data e;
     e_csv_content := e_csv_content e; e_is_saved := e_is_saved e |}.

Definition with_image_data (v : bytes) (e : entry) : entry :=
  {| e_status := e_status e; e_data := e_data e; e_path := e_path e;
     e_image_data := Some v; e_error := e_error e;
     e_txt_content := e_txt_content e; e_parsed_data := e_parsed_data e;
     e_csv_content := e_csv_content e; e_is_saved := e_is_saved e |}.

Definition with_error (v : str) (e : entry) : entry :=
  {| e_status := e_status e; e_data := e_data e; e_path := e_path e;
     e_image_data := e_image_data e; e_error := Some v;
     e_txt_content := e_txt_content e; e_parsed_data := e_parsed_data e;
     e_csv_content := e_csv_content e; e_is_saved := e_is_saved e |}.

Definition with_txt_content (v : str) (e : entry) : entry :=
  {| e_status := e_status e; e_data := e_data e; e_path := e_path e;
     e_image_data := e_image_data e; e_error := e_error e;
     e_txt_content := Some v; e_parsed_data := e_parsed_data e;
     e_csv_content := e_csv_content e; e_is_saved := e_is_saved e |}.

Definition with_parsed_data (v : dict) (e : entry) : entry :=
  {| e_status := e_status e; e_data := e_data e; e_path := e_path e;
     e_image_data := e_image_data e; e_error := e_error e;
     e_txt_content := e_txt_content e; e_parsed_data := Some v;
     e_csv_content := e_csv_content e; e_is_saved := e_is_saved e |}.

Definition with_csv_content (v : str) (e : entry) : entry :=
  {| e_status := e_status e; e_data := e_data e; e_path := e_path e;
     e_image_data := e_image_data e; e_error := e_error e;
     e_txt_content := e_txt_content e; e_parsed_data := e_parsed_data e;
     e_csv_content := Some v; e_is_saved := e_is_saved e |}.

Definition with_is_saved (v : bool) (e : entry) : entry :=
  {| e_status := e_status e; e_data := e_data e; e_path := e_path e;
     e_image_data := e_image_data e; e_error := e_error e;
     e_txt_content := e_txt_content e; e_parsed_data := e_parsed_data e;
     e_csv_content := e_csv_content e; e_is_saved := Some v |}.

(** The loop [for key, value in existing_data.items(): if key not in
    results_dict[image_id]: ...]: the keys of [fresh] stay, the other keys
    of [existing] are copied. *)
Definition or_else {A} (a b : option A) : option A :=
  match a with Some _ => a | None => b end.

Definition preserve (fresh existing : entry) : entry :=
  {| e_status := e_status fresh;
     e_data := or_else (e_data fresh) (e_data existing);
     e_path := or_else (e_path fresh) (e_path existing);
     e_image_data := or_else (e_image_data fresh) (e_image_data existing);
     e_error := or_else (e_error fresh) (e_error existing);
     e_txt_content := or_else (e_txt_content fresh) (e_txt_content existing);
     e_parsed_data := or_else (e_parsed_data fresh) (e_parsed_data existing);
     e_csv_content := or_else (e_csv_content fresh) (e_csv_content existing);
     e_is_saved := or_else (e_is_saved fresh) (e_is_saved existing) |}.

(** A queued task: [(image_path, document_type, image_id, in_memory)]. *)
Record task := {
  t_image_path : pathval;
  t_document_type : str;
  t_image_id : str;
  t_in_memory : bool;
}.

(** The shared state: [results_dict], the files on disk, [process_queue]
    with its count of unfinished tasks, and whether [global_model] and
    [global_tokenizer] are set. *)
Record world := {
  results_dict : gmap str entry;
  files : gmap str bytes;
  process_queue : list task;
  unfinished_tasks : Z;
  model_loaded : bool;
}.

Definition set_results (f : gmap str entry -> gmap str entry) (w : world)
  : world :=
  {| results_dict := f (results_dict w); files := files w;
     process_queue := process_queue w;
     unfinished_tasks := unfinished_tasks w;
     model_loaded := model_loaded w |}.

Definition set_files (f : gmap str bytes -> gmap str bytes) (w : world)
  : world :=
  {| results_dict := results_dict w; files := f (files w);
     process_queue := process_queue w;
     unfinished_tasks := unfinished_tasks w;
     model_loaded := model_loaded w |}.

Definition set_queue (q : list task) (n : Z) (w : world) : world :=
  {| results_dict := results_dict w; files := files w;
     process_queue := q; unfinished_tasks := n;
     model_loaded := model_loaded w |}.

Definition set_model_loaded (b : bool) (w : world) : world :=
  {| results_dict := results_dict w; files := files w;
     process_queue := process_queue w;
     unfinished_tasks := unfinished_tasks w;
     model_loaded := b |}.

Definition CLEANUP_AFTER_PROCESSING : bool := true.
Definition UPLOAD_FOLDER : str := lit "uploads".

(** ** Statements: state, exceptions and [continue] *)

Definition M (S A : Type) : Type := S -> outcome A * S.

Definition ret {S A} (a : A) : M S A := fun s => (Ok a, s).

Definition bind {S A B} (m : M S A) (k : A -> M S B) : M S B :=
  fun s =>
    match m s with
    | (Ok a, s') => k a s'
    | (Raise e, s') => (Raise e, s')
    | (Continue, s') => (Continue, s')
    end.

Definition raise {S A} (e : exn) : M S A := fun s => (Raise e, s).
Definition continue_ {S A} : M S A := fun s => (Continue, s).
Definition gets {S A} (f : S -> A) : M S A := fun s => (Ok (f s), s).
Definition modify {S} (f : S -> S) : M S unit := fun s => (Ok tt, f s).

Notation "'let*' x ':=' m 'in' k" := (bind m (fun x => k))
  (at level 10, x name, m at level 100, k at level 200).

(** [try: body finally: cleanup]: the cleanup always runs; when it raises,
    its exception replaces the outcome of the body. *)
Definition try_finally {S A} (body : M S A) (cleanup : M S unit) : M S A :=
  fun s =>
    let '(r, s1) := body s in
    match cleanup s1 with
    | (Ok _, s2) => (r, s2)
    | (Raise e, s2) => (Raise e, s2)
    | (Continue, s2) => (Continue, s2)
    end.

(** [try: body except Exception as e: handler] *)
Definition try_except {S A} (body : M S A) (handler : exn -> M S A) : M S A :=
  fun s =>
    match body s with
    | (Raise e, s1) => handler e s1
    | r => r
    end.

(** ** Utility functions ([app.py]) *)

(** [results_dict[image_id]] *)
Definition get_entry (image_id : str) : M world entry :=
  fun w =>
    match results_dict w !! image_id with
    | Some e => (Ok e, w)
    | None => (Raise (KeyError image_id), w)
    end.

(** [results_dict[image_id] = e] *)
Definition set_entry (image_id : str) (e : entry) : M world unit :=
  modify (set_results (insert image_id e)).

(** [results_dict[image_id][key] = value] *)
Definition set_field (image_id : str) (f : entry -> entry) : M world unit :=
  let* e := get_entry image_id in set_entry image_id (f e).

(** [e['path']] *)
Definition path_of (e : entry) {S} : M S pathval :=
  match e_path e with
  | Some p => ret p
  | None => raise (KeyError (lit "path"))
  end.

(** [os.path.exists(p)] *)
Definition os_path_exists (p : pathval) : M world bool :=
  match p with
  | PStr p => gets (fun w => bool_decide (is_Some (files w !! p)))
  | PBuf _ =>
      raise (TypeError (lit "stat: path should be string, bytes, os.PathLike or integer, not BytesIO"))
  end.

(** [os.path.basename(p)] *)
Definition os_path_basename (p : pathval) {S} : M S str :=
  match p with
  | PStr p => ret (basename p)
  | PBuf _ =>
      raise (TypeError (lit "expected str, bytes or os.PathLike object, not BytesIO"))
  end.

Definition delete_file (file_path : str) : M world bool :=
  fun w =>
    match files w !! file_path with
    | Some _ => (Ok true, set_files (delete file_path) w)
    | None => (Ok false, w)
    end.

(** [s.lower()] on the letters A to Z; no other character lower-cases to
    a letter of the suffixes tested below. *)
Definition lower (s : str) : str :=
  List.map (fun c => if ((65 <=? c) && (c <=? 90))%N then (c + 32)%N else c) s.

Definition endswith (s suffix : str) : bool :=
  (length suffix <=? length s)%nat
  && str_eqb (skipn (length s - length suffix) s) suffix.

Definition get_file_extension (path : pathval) {S} : M S (str * str) :=
  match path with
  | PStr path =>
      if endswith (lower path) (lit ".jpg") || endswith (lower path) (lit ".jpeg")
      then ret (lit ".jpg", lit "image/jpeg")
      else if endswith (lower path) (lit ".png")
      then ret (lit ".png", lit "image/png")
      else if endswith (lower path) (lit ".pdf")
      then ret (lit ".pdf", lit "application/pdf")
      else ret (lit ".png", lit "image/png")
  | PBuf _ =>
      raise (AttributeError (lit "'_io.BytesIO' object has no attribute 'lower'"))
  end.

(** [process_queue.task_done()] *)
Definition task_done : M world unit :=
  fun w =>
    let unfinished := unfinished_tasks w - 1 in
    if unfinished <? 0
    then (Raise (ValueError (lit "task_done() called too many times")), w)
    else (Ok tt, set_queue (process_queue w) unfinished w).

(** [process_queue.put(task)] *)
Definition put (t : task) (w : world) : world :=
  set_queue (process_queue w ++ [t]) (unfinished_tasks w + 1) w.

(** ** Document processing ([app.py]) *)

(** One line [f"label: {value}\n"] of the text export. *)
Definition field_line (label : string) (value : str) : str :=
  lit label ++ lit ": " ++ value ++ [NL].

(** The text export of a check. *)
Definition check_txt_content (file : str) (d : dict) : str :=
  let na := lit "NA" in
  concat
    [ field_line "File" file;
      field_line "Link to The file" [];
      field_line "Pic Date" na;
      field_line "Download Date" [];
      field_line "Check Type" na;
      field_line "Bank Name" (get d (lit "Bank Name") na);
      field_line "1st Payor First Name"
        (get d (lit "Payor Name") (get d (lit "1st Payor First Name") na));
      field_line "1st Payor Family Name" [];
      field_line "2nd Payor First Name" [];
      field_line "2nd Payor Family Name" [];
      field_line "Payor Street Address"
        (get d (lit "Payor Address") (get d (lit "Payor Street Address") na));
      field_line "Payor City" [];
      field_line "Payor State" [];
      field_line "Payor Zip code" [];
      field_line "Check Amount"
        (get d (lit "Amount") (get d (lit "Check Amount") na));
      field_line "Account Number" [];
      field_line "Routing Number" [];
      field_line "Payee Type" [];
      field_line "1st Payee First Name"
        (get d (lit "Payee Name") (get d (lit "1st Payee First Name") na));
      field_line "1st Payee Family Name" [];
      field_line "2nd Payee First Name" [];
      field_line "2nd Payee Family Name" [];
      field_line "Check Number" (get d (lit "Check Number") na);
      field_line "Payee Street Address"
        (get d (lit "Payee Address") (get d (lit "Payee Street Address") na));
      field_line "Payee City" [];
      field_line "Payee State" [];
      field_line "Payee Zip Code" [];
      field_line "Market" [];
      repeat 45%N 50 ].

(** The local variables of one pass of [background_processor]. *)
Record frame := {
  image_path : pathval;
  document_type : str;
  image_id : str;
  in_memory : bool;
  temp_file_path : option str;
}.

Definition frame_of (t : task) : frame :=
  {| image_path := t_image_path t; document_type := t_document_type t;
     image_id := t_image_id t; in_memory := t_in_memory t;
     temp_file_path := None |}.

Definition set_image_path (p : pathval) (f : frame) : frame :=
  {| image_path := p; document_type := document_type f;
     image_id := image_id f; in_memory := in_memory f;
     temp_file_path := temp_file_path f |}.

Definition set_in_memory (b : bool) (f : frame) : frame :=
  {| image_path := image_path f; document_type := document_type f;
     image_id := image_id f; in_memory := b;
     temp_file_path := temp_file_path f |}.

Definition set_temp_file_path (p : str) (f : frame) : frame :=
  {| image_path := image_path f; document_type := document_type f;
     image_id := image_id f; in_memory := in_memory f;
     temp_file_path := Some p |}.

(** A statement on the shared state, run inside the worker. *)
Definition lift {A} (m : M world A) : M (frame * world) A :=
  fun s => let '(r, w) := m (snd s) in (r, (fst s, w)).

Definition local {A} (f : frame -> A) : M (frame * world) A :=
  gets (fun s => f (fst s)).

Definition set_local (f : frame -> frame) : M (frame * world) unit :=
  modify (fun s => (f (fst s), snd s)).

Section Worker.
Context {E : Env}.

(** [load_model()] of [MAIN.py]: loads once, and turns every exception
    into a [RuntimeError]. *)
Definition load_model : M world unit :=
  fun w =>
    if model_loaded w then (Ok tt, w)
    else match from_pretrained with
         | None => (Ok tt, set_model_loaded true w)
         | Some e =>
             (Raise (RuntimeError (lit "Error loading model: " ++ exn_str e)), w)
         end.

(** [process_extracted_data_by_type(image_id, document_type,
    extracted_data)] for the text the extractor returns.
    [extracted_data_dict] is bound in the check branch only. *)
Definition process_extracted_data_by_type (image_id document_type : str)
  (extracted_data : str) : M world unit :=
  let txt_content : str := [] in
  let* branch :=
    if str_eqb document_type (lit "check") then
      let extracted_data_dict :=
        fold_left store_line (split NL (strip extracted_data)) [] in
      let* e := get_entry image_id in
      let* p := path_of e in
      let* file := os_path_basename p in
      ret (check_txt_content file extracted_data_dict, Some extracted_data_dict)
    else if str_eqb document_type (lit "passport") then ret (txt_content, None)
    else if str_eqb document_type (lit "invoice") then ret (txt_content, None)
    else if str_eqb document_type (lit "text") then ret (extracted_data, None)
    else ret (txt_content, None) in
  let '(txt_content, extracted_data_dict) := branch in
  let* _ := set_field image_id (with_txt_content txt_content) in
  match extracted_data_dict with
  | None => raise (UnboundLocalError (lit "extracted_data_dict"))
  | Some extracted_data_dict =>
      let* _ := set_field image_id (with_parsed_data extracted_data_dict) in
      let* e := get_entry image_id in
      let* p := path_of e in
      let* file := os_path_basename p in
      let all_results :=
        [ {| filename := file; extraction_data := Fields extracted_data_dict |} ] in
      let csv_content := convert_to_csv_content all_results (Some document_type) in
      set_field image_id (with_csv_content csv_content)
  end.

(** [tempfile.mkstemp(suffix=file_extension)]: an empty file is created
    and [temp_file_path] is set. *)
Definition make_temp_file (file_extension : str) : M (frame * world) str :=
  let* fs := lift (gets files) in
  let temp := mkstemp file_extension fs in
  let* _ := lift (modify (set_files (insert temp []))) in
  let* _ := set_local (set_temp_file_path temp) in
  ret temp.

(** [with open(temp, 'wb') as f: f.write(content)] *)
Definition write_file (temp : str) (content : bytes) : M (frame * world) unit :=
  match write_error temp content with
  | Some e => raise e
  | None => lift (modify (set_files (insert temp content)))
  end.

(** [image_path.getvalue()] *)
Definition getvalue (p : pathval) {S} : M S bytes :=
  match p with
  | PBuf b => ret b
  | PStr _ => raise (AttributeError (lit "'str' object has no attribute 'getvalue'"))
  end.

(** The handler of the two inner [try] blocks: the job is marked failed,
    the task is counted as done and the loop goes to the next task. *)
Definition temp_file_failed (e : exn) : M (frame * world) unit :=
  let* id := local image_id in
  let* _ := lift (set_field id (with_status error)) in
  let* _ := lift (set_field id
      (with_error (lit "Could not create temporary file: " ++ exn_str e))) in
  let* _ := lift task_done in
  continue_.

(** Lines 246 to 292: the task's image is resolved to a readable path. *)
Definition resolve_source : M (frame * world) unit :=
  let* id := local image_id in
  let* mem := local in_memory in
  if mem then
    let* e := lift (get_entry id) in
    let* p := path_of e in
    let* ext := get_file_extension p in
    let* temp := make_temp_file (fst ext) in
    try_except
      (let* src := local image_path in
       let* content := getvalue src in
       let* _ := write_file temp content in
       set_local (set_image_path (PStr temp)))
      temp_file_failed
  else
    let* src := local image_path in
    let* present := lift (os_path_exists src) in
    if present then ret tt
    else
      let* e := lift (get_entry id) in
      match e_image_data e with
      | Some _ =>
          let* ext := get_file_extension src in
          let* temp := make_temp_file (fst ext) in
          try_except
            (let* e := lift (get_entry id) in
             let* content :=
               match e_image_data e with
               | Some b => ret b
               | None => raise (KeyError (lit "image_data"))
               end in
             let* _ := write_file temp content in
             let* _ := set_local (set_image_path (PStr temp)) in
             set_local (set_in_memory true))
            temp_file_failed
      | None =>
          let* _ := lift (set_field id (with_status error)) in
          let* _ := lift (set_field id (with_error (lit "File not found"))) in
          let* _ := lift task_done in
          continue_
      end.

(** Lines 294 to 314: the model is run and the result is stored. *)
Definition extract_and_store : M (frame * world) unit :=
  let* id := local image_id in
  let* dt := local document_type in
  let* _ := lift load_model in
  let* src := local image_path in
  let* extracted_data :=
    lift (gets (fun w => process_document_image (files w) src dt)) in
  let* existing_data := lift (gets (fun w => results_dict w !! id)) in
  let fresh :=
    {| e_status := completed;
       e_data := Some extracted_data;
       e_path := Some (match existing_data with
                       | Some old => match e_path old with
                                     | Some p => p
                                     | None => src
                                     end
                       | None => src
                       end);
       e_image_data := None; e_error := None; e_txt_content := None;
       e_parsed_data := None; e_csv_content := None; e_is_saved := None |} in
  let* _ := lift (set_entry id
      (match existing_data with
       | Some old => preserve fresh old
       | None => fresh
       end)) in
  lift (process_extracted_data_by_type id dt extracted_data).

(** The body of the inner [try]. *)
Definition worker_body : M (frame * world) unit :=
  let* _ := resolve_source in extract_and_store.

(** [if temp_file_path and os.path.exists(temp_file_path):
    delete_file(temp_file_path)] *)
Definition delete_temp_file : M (frame * world) unit :=
  let* temp := local temp_file_path in
  match temp with
  | Some (c :: p) => let* _ := lift (delete_file (c :: p)) in ret tt
  | _ => ret tt
  end.

(** The [finally] block, lines 316 to 328. *)
Definition worker_finally : M (frame * world) unit :=
  let* _ := delete_temp_file in
  let* id := local image_id in
  let* mem := local in_memory in
  let* _ :=
    if negb mem && CLEANUP_AFTER_PROCESSING then
      let* e := lift (get_entry id) in
      match e_path e with
      | Some original_path =>
          match e_image_data e with
          | Some _ =>
              let* present := lift (os_path_exists original_path) in
              if present then
                match original_path with
                | PStr p => let* _ := lift (delete_file p) in ret tt
                | PBuf _ => ret tt
                end
              else ret tt
          | None => ret tt
          end
      | None => ret tt
      end
    else ret tt in
  lift task_done.

(** The inner [try ... finally]. *)
Definition worker_try : M (frame * world) unit :=
  try_finally worker_body worker_finally.

(** The handler of the outer [try], lines 330 to 351. The dictionary it
    stores is new, so the test for ['image_data'] in it is false. *)
Definition worker_except (e : exn) : M (frame * world) unit :=
  let* id := local image_id in
  let* src := local image_path in
  let* _ := lift (set_entry id
      {| e_status := error; e_data := None; e_path := Some src;
         e_image_data := None; e_error := Some (exn_str e);
         e_txt_content := None; e_parsed_data := None;
         e_csv_content := None; e_is_saved := None |}) in
  let* _ := lift task_done in
  delete_temp_file.

(** One pass of the [while True] loop on the task at the head of the
    queue. [Raise] is an exception that leaves the loop and ends the
    thread; with an empty queue [get()] waits and nothing changes. *)
Definition run_task (stmt : M (frame * world) unit) (w : world)
  : outcome unit * world :=
  match process_queue w with
  | [] => (Ok tt, w)
  | t :: rest =>
      let '(r, (_, w')) :=
        stmt (frame_of t, set_queue rest (unfinished_tasks w) w) in
      (match r with Continue => Ok tt | r => r end, w')
  end.

Definition background_processor_step : world -> outcome unit * world :=
  run_task (try_except worker_try worker_except).

(** The worker run on [n] tasks, stopping when the thread has ended. *)
Fixpoint background_processor (n : nat) (w : world) : outcome unit * world :=
  match n with
  | O => (Ok tt, w)
  | S n' =>
      match background_processor_step w with
      | (Ok _, w') => background_processor n' w'
      | r => r
      end
  end.

(** ** Route handlers ([app.py]) *)

(** One file of [upload_documents]: [image_id] is the timestamp and the
    secured file name, and the file would be stored under it in the
    upload folder. *)
Definition upload_file (document_type : str) (image_id : str)
  (file_data : bytes) (w : world) : world :=
  let file_path := UPLOAD_FOLDER ++ [SLASH] ++ image_id in
  let file_size := Z.of_nat (length file_data) in
  let fresh :=
    with_image_data file_data (with_path (PStr file_path) (entry_of processing)) in
  if (file_size <? 1024 * 1024) && CLEANUP_AFTER_PROCESSING then
    put {| t_image_path := PBuf file_data; t_document_type := document_type;
           t_image_id := image_id; t_in_memory := true |}
        (set_results (insert image_id fresh) w)
  else
    put {| t_image_path := PStr file_path; t_document_type := document_type;
           t_image_id := image_id; t_in_memory := false |}
        (set_results (insert image_id fresh)
           (set_files (insert file_path file_data) w)).

(** [allowed_file(filename)] *)
Definition ALLOWED_EXTENSIONS : list str :=
  [lit "png"; lit "jpg"; lit "jpeg"; lit "pdf"].

Definition rsplit_dot (s : str) : str :=
  rev (match split1 46%N (rev s) with Some (ext, _) => ext | None => [] end).

Definition allowed_file (filename : str) : bool :=
  contains 46%N filename
  && bool_decide (lower (rsplit_dot filename) ∈ ALLOWED_EXTENSIONS).

(** An uploaded file: its name, the timestamp taken for it, its name after
    [secure_filename], and its content. *)
Record upload := {
  u_filename : str;
  u_timestamp : str;
  u_secure_filename : str;
  u_data : bytes;
}.

(** [upload_documents]: [None] is the answer 400. *)
Definition upload_documents (document_type : option str)
  (uploads : list upload) (w : world) : option world :=
  match document_type with
  | None | Some [] => None
  | Some dt =>
      if negb (bool_decide (dt ∈ [lit "passport"; lit "check"; lit "invoice"]))
      then None
      else match uploads with
           | [] => None
           | first :: _ =>
               match u_filename first with
               | [] => None
               | _ =>
                   if (10 <? length uploads)%nat then None
                   else Some (fold_left
                     (fun w f =>
                        if allowed_file (u_filename f) then
                          upload_file dt
                            (u_timestamp f ++ lit "_" ++ u_secure_filename f)
                            (u_data f) w
                        else w)
                     uploads w)
               end
           end
  end.

(** The answers of [check_status]. *)
Inductive status_response :=
| StatusCompleted (data : dict)
| StatusError (error : str)
| StatusProcessing
| StatusNotFound.

Definition check_status (session_document_type : str) (image_id : str)
  (w : world) : outcome status_response :=
  match results_dict w !! image_id with
  | Some result =>
      match e_status result with
      | completed =>
          match e_data result with
          | Some data =>
              Ok (StatusCompleted (parse_extracted_text data session_document_type))
          | None => Raise (KeyError (lit "data"))
          end
      | error =>
          Ok (StatusError (match e_error result with
                           | Some msg => msg
                           | None => lit "An unknown error occurred"
                           end))
      | processing => Ok StatusProcessing
      end
  | None => Ok StatusNotFound
  end.

(** The part of [save_document] on the result store and the files, lines
    873 to 897. *)
Definition save_in_store (image_id : str) (corrected_data : dict)
  : M world unit :=
  let* known := gets (fun w => results_dict w !! image_id) in
  match known with
  | None => ret tt
  | Some _ =>
      let* _ := set_field image_id (with_is_saved true) in
      let* e := get_entry image_id in
      let* _ :=
        match e_parsed_data e with
        | Some d => set_field image_id (with_parsed_data (update d corrected_data))
        | None => ret tt
        end in
      let* e := get_entry image_id in
      match e_path e with
      | Some file_path =>
          if CLEANUP_AFTER_PROCESSING then
            match e_image_data e with
            | None =>
                let* present := os_path_exists file_path in
                if present then
                  match file_path with
                  | PStr p =>
                      let* content := gets (fun w => files w !! p) in
                      match content with
                      | Some image_data =>
                          let* _ := set_field image_id (with_image_data image_data) in
                          let* _ := delete_file p in ret tt
                      | None => ret tt
                      end
                  | PBuf _ => ret tt
                  end
                else ret tt
            | Some _ =>
                let* present := os_path_exists file_path in
                if present then
                  match file_path with
                  | PStr p => let* _ := delete_file p in ret tt
                  | PBuf _ => ret tt
                  end
                else ret tt
            end
          else ret tt
      | None => ret tt
      end
  end.

(** [save_document]: the HTTP status of the answer and the new state. An
    exception is the answer 500. *)
Definition save_document (session_email : str)
  (session_document_type : option str) (image_id : str)
  (corrected_data : dict) (verified : bool) (w : world) : Z * world :=
  match image_id, corrected_data with
  | [], _ | _, [] => (400, w)
  | _, _ =>
      match session_document_type with
      | None | Some [] => (400, w)
      | Some document_type =>
          match save_in_store image_id corrected_data w with
          | (Ok _, w') =>
              if verified then
                if save_document_data session_email document_type corrected_data
                then (200, w') else (500, w')
              else (200, w')
          | (_, w') => (500, w')
          end
      end
  end.

(** A request to [save_document]: the session's e-mail and document type,
    then [image_id], [data] and [verified] of the JSON body. *)
Record save_request := {
  s_email : str;
  s_document_type : option str;
  s_image_id : str;
  s_data : dict;
  s_verified : bool;
}.

(** The state after a sequence of save requests. *)
Definition save_all (requests : list save_request) (w : world) : world :=
  fold_left
    (fun w r =>
       snd (save_document (s_email r) (s_document_type r) (s_image_id r)
                          (s_data r) (s_verified r) w))
    requests w.

End Worker.

(** ** Relations between states

    The vocabulary of the properties below: what a statement keeps of the
    state it runs in. *)

(** A statement keeps [R] when [R] relates the state before to the state
    after, whatever the outcome. *)
Definition keeps {S A} (R : S -> S -> Prop) (m : M S A) : Prop :=
  forall s : S, R s (snd (m s)).

(** A relation on the shared state, seen from inside the worker. *)
Definition on_world (R : world -> world -> Prop)
  (s s' : frame * world) : Prop :=
  R (snd s) (snd s').

(** What a status poll reads of an entry. *)
Definition poll_view (e : entry) : status * option str * option str :=
  (e_status e, e_data e, e_error e).

(** Two states that every status poll answers alike. *)
Definition same_polls (w w' : world) : Prop :=
  forall id : str,
    poll_view <$> results_dict w' !! id = poll_view <$> results_dict w !! id.

(** A statement that leaves the answers of the polls as they are. *)
Abbreviation keeps_polls := (keeps same_polls).

(** The result store is the same. *)
Definition same_results (w w' : world) : Prop :=
  results_dict w' = results_dict w.

(** A file that is absent stays absent. *)
Definition still_gone (p : str) (w w' : world) : Prop :=
  files w !! p = None -> files w' !! p = None.

(** ** A concrete environment and concrete jobs

    Used to run the definitions: a CSV writer for fields without special
    characters, an image format whose first two bytes are the width and
    the height, a model with a fixed answer, and an operating system that
    never fails. *)
Module Demo.

Definition TAB : char := 9%N.

Definition quote (s : str) : str := lit "'" ++ s ++ lit "'".

Definition env (load : option exn) (answer : outcome str) : Env :=
  {| writerow := fun row => join [TAB] row ++ [13%N; NL];
     dict_repr := fun d =>
       lit "{"
         ++ join (lit ", ")
              (List.map (fun kv => quote (fst kv) ++ lit ": " ++ quote (snd kv)) d)
         ++ lit "}";
     image_open := fun content =>
       match content with
       | w :: h :: _ => Ok {| im_mode := RGB; im_size := (Z.of_N w, Z.of_N h) |}
       | _ => Raise (External (lit "cannot identify image file"))
       end;
     from_pretrained := load;
     chat := fun _ _ _ => answer;
     mkstemp := fun suffix _ => lit "/tmp/tmp0" ++ suffix;
     write_error := fun _ _ => None;
     save_document_data := fun _ _ _ => true |}.

(** A model that answers with two check fields, and one that raises. *)
Definition check_answer : str :=
  lit "Bank Name: ABC Bank" ++ [NL] ++ lit "Check Number: 1234".

Definition passport_answer : str :=
  lit "Passport Number: X123" ++ [NL] ++ lit "First Name: Ada".

Definition answering (text : str) : Env := env None (Ok text).
Definition failing : Env := env None (Raise (External (lit "CUDA out of memory"))).

(** An environment in which the model cannot be loaded. *)
Definition unloadable : Env :=
  env (Some (External (lit "out of memory"))) (Ok check_answer).

(** The state at start-up, with the model not yet loaded. *)
Definition start : world :=
  {| results_dict := ∅; files := ∅; process_queue := [];
     unfinished_tasks := 0; model_loaded := false |}.

(** A 7 by 7 image in the format of [env]. *)
Definition small_image : bytes := [7%N; 7%N; 0%N].

Definition job_id : str := lit "20240101120000_scan.png".
Definition job_path : str := lit "uploads/20240101120000_scan.png".

(** The state after the upload of [small_image], kept in memory. *)
Definition uploaded (document_type : string) : world :=
  upload_file (lit document_type) job_id small_image start.

(** The state [upload_file] builds for a file of one mebibyte or more:
    the file is on disk and the task names its path. *)
Definition uploaded_on_disk (document_type : string) : world :=
  {| results_dict :=
       {[ job_id := with_image_data small_image
                      (with_path (PStr job_path) (entry_of processing)) ]};
     files := {[ job_path := small_image ]};
     process_queue :=
       [ {| t_image_path := PStr job_path;
            t_document_type := lit document_type;
            t_image_id := job_id; t_in_memory := false |} ];
     unfinished_tasks := 1;
     model_loaded := false |}.

(** The status of the job, and what a poll answers. *)
Definition status_of (w : world) : option status :=
  e_status <$> results_dict w !! job_id.

(** A correction of the bank name, sent to [save_document]. *)
Definition correction : save_request :=
  {| s_email := lit "ada@example.org";
     s_document_type := Some (lit "check");
     s_image_id := job_id;
     s_data := [(lit "Bank Name", lit "XYZ Bank")];
     s_verified := true |}.

(** The state after the worker has processed the check kept in memory. *)
Definition check_done : world :=
  snd (@background_processor_step (answering check_answer) (uploaded "check")).

End Demo.

(** ** Further route handlers ([app.py]) *)

(** The answers of [serve_document_image]: the file sent with its MIME
    type, or 404. *)
Inductive image_response :=
| ImageFile (mimetype : str) (content : bytes)
| ImageNotFound.

(** [serve_document_image(image_id)]: the bytes kept in memory are served
    first, then the file on disk. *)
Definition serve_document_image (image_id : str) : M world image_response :=
  let* known := gets (fun w => results_dict w !! image_id) in
  match known with
  | Some result =>
      match e_image_data result with
      | Some image_data =>
          let* p := path_of result in
          let* ext := get_file_extension p in
          ret (ImageFile (snd ext) image_data)
      | None =>
          let* file_path := path_of result in
          let* present := os_path_exists file_path in
          if present then
            let* ext := get_file_extension file_path in
            match file_path with
            | PStr p =>
                let* content := gets (fun w => files w !! p) in
                match content with
                | Some b => ret (ImageFile (snd ext) b)
                | None => raise (FileNotFoundError p)
                end
            | PBuf _ => ret ImageNotFound
            end
          else ret ImageNotFound
      end
  | None => ret ImageNotFound
  end.

(** The task [upload_file] queues for a file. *)
Definition task_of_upload (document_type image_id : str) (file_data : bytes)
  : task :=
  if (Z.of_nat (length file_data) <? 1024 * 1024) && CLEANUP_AFTER_PROCESSING
  then {| t_image_path := PBuf file_data; t_document_type := document_type;
          t_image_id := image_id; t_in_memory := true |}
  else {| t_image_path := PStr (UPLOAD_FOLDER ++ [SLASH] ++ image_id);
          t_document_type := document_type;
          t_image_id := image_id; t_in_memory := false |}.

(** The id [upload_documents] gives a file. *)
Definition upload_id (f : upload) : str :=
  u_timestamp f ++ lit "_" ++ u_secure_filename f.

(** ** Vocabulary for the properties of the routes *)

(** The entry [save_document] leaves for corrected data [c]. *)
Definition saved_entry (c : dict) (e : entry) : entry :=
  match e_parsed_data e with
  | Some d => with_parsed_data (update d c) (with_is_saved true e)
  | None => with_is_saved true e
  end.

(** The answer of [serve_document_image] for bytes [b] found under the
    path [p]. *)
Definition file_answer (p : pathval) (b : bytes) : outcome image_response :=
  match fst (get_file_extension p tt) with
  | Ok ext => Ok (ImageFile (snd ext) b)
  | Raise x => Raise x
  | Continue => Continue
  end.

(** The files of a request that [upload_documents] takes. *)
Definition taken (uploads : list upload) : list upload :=
  List.filter (fun f => allowed_file (u_filename f)) uploads.

(** ** Vocabulary for the properties of the worker *)

(** A statement that never ends in [continue]. *)
Definition plain {S A} (m : M S A) : Prop :=
  forall s, fst (m s) <> Continue.

(** What a pass on the job [j] leaves alone: the queue, and the entry of
    every other job. *)
Definition untouched (j : str) (w w' : world) : Prop :=
  process_queue w' = process_queue w
  /\ forall i : str, i <> j -> results_dict w' !! i = results_dict w !! i.

(** The job [j] is marked as failed. *)
Definition failed (j : str) (w : world) : Prop :=
  e_status <$> results_dict w !! j = Some error.

(** The frame holds the job [j] of type [dt]. *)
Definition job_is (j dt : str) (s : frame * world) : Prop :=
  image_id (fst s) = j /\ document_type (fst s) = dt.

(** A statement of the worker run on the job [j] of type [dt]: the frame
    stays on this job, the shared states before and after are related by
    [R], and [continue] is reached only in a state where [C] holds. *)
Definition runs_job (j dt : str) (R : world -> world -> Prop)
  (C : world -> Prop) {A} (m : M (frame * world) A) : Prop :=
  forall s, job_is j dt s ->
    job_is j dt (snd (m s))
    /\ R (snd s) (snd (snd (m s)))
    /\ (fst (m s) = Continue -> C (snd (snd (m s)))).

(** Any two shared states. *)
Definition any_change (w w' : world) : Prop := True.

(** No shared state. *)
Definition nowhere (w : world) : Prop := False.

(** The outcomes of a statement that did not go through: an exception, or
    [continue] with the job marked as failed. *)
Definition gave_up (j : str) {A} (r : outcome A * (frame * world)) : Prop :=
  (exists e, fst r = Raise e) \/ (fst r = Continue /\ failed j (snd (snd r))).

Section CompletedCheck.
Context {E : Env}.

(** The entry of a check stored under the path [q] once the model has
    answered [text]: the keys the worker writes, and the keys of the old
    entry it preserves. *)
Definition completed_check (q text : str) (old : entry) : entry :=
  let d := parse_extracted_text text (lit "check") in
  {| e_status := completed; e_data := Some text; e_path := Some (PStr q);
     e_image_data := e_image_data old; e_error := e_error old;
     e_txt_content := Some (check_txt_content (basename q) d);
     e_parsed_data := Some d;
     e_csv_content :=
       Some (convert_to_csv_content
               [ {| filename := basename q; extraction_data := Fields d |} ]
               (Some (lit "check")));
     e_is_saved := e_is_saved old |}.

End CompletedCheck.

(** The entry the handler of the worker stores for the exception [x], the
    image of the task being [src] by then. *)
Definition failed_entry (src : pathval) (x : exn) : entry :=
  {| e_status := error; e_data := None; e_path := Some src;
     e_image_data := None; e_error := Some (exn_str x);
     e_txt_content := None; e_parsed_data := None;
     e_csv_content := None; e_is_saved := None |}.

(** How a pass ends after its task was counted as done a second time,
    [n] tasks being unfinished when the pass began. *)
Definition counted_twice (n : Z) : outcome unit :=
  if 2 <=? n then Ok tt
  else Raise (ValueError (lit "task_done() called too many times")).

(** ** Downloads ([app.py]) *)

Definition TAB : char := 9%N.
Definition CR : char := 13%N.
Definition COMMA : char := 44%N.
Definition QUOTE : char := 34%N.

(** [f'"{value}"' if ',' in value else value] *)
Definition escaped_value (value : str) : str :=
  if contains COMMA value then [QUOTE] ++ value ++ [QUOTE] else value.

(** The loop of [download_csv] on the lines of the table: a line that is
    not blank is split at the tabs and joined again with commas. *)
Definition csv_line (csv_lines : list str) (line : str) : list str :=
  match strip line with
  | [] => csv_lines
  | _ => csv_lines ++ [join [COMMA] (List.map escaped_value (split TAB line))]
  end.

Definition tsv_to_csv (csv_content : str) : str :=
  join [NL] (fold_left csv_line (split NL csv_content) []).

(** The answers of the two download routes: a file sent as an attachment,
    or the redirection to the review page. *)
Inductive download_response :=
| Attachment (download_name mimetype content : str)
| RedirectToReview.

(** [result['data']] *)
Definition data_of (e : entry) {S} : M S str :=
  match e_data e with
  | Some data => ret data
  | None => raise (KeyError (lit "data"))
  end.

Section Downloads.
Context {E : Env}.

(** [download_csv(image_id)], for a logged-in user; [timestamp] is the
    time of the request, formatted. *)
Definition download_csv (session_document_type : option str)
  (timestamp : str) (image_id : str) : M world download_response :=
  let* known := gets (fun w => results_dict w !! image_id) in
  match known with
  | Some result =>
      match e_status result with
      | completed =>
          let document_type := default (lit "document") session_document_type in
          let* p := path_of result in
          let* filename := os_path_basename p in
          let* csv_content :=
            match e_csv_content result with
            | None =>
                let* data := data_of result in
                let all_results :=
                  [ {| filename := filename; extraction_data := Raw data |} ] in
                ret (convert_to_csv_content all_results (Some document_type))
            | Some csv_content => ret csv_content
            end in
          ret (Attachment
                 (document_type ++ lit "_" ++ filename ++ lit "_" ++ timestamp
                    ++ lit ".csv")
                 (lit "text/csv") (tsv_to_csv csv_content))
      | _ => ret RedirectToReview
      end
  | None => ret RedirectToReview
  end.

(** [download_txt(image_id)] *)
Definition download_txt (session_document_type : option str)
  (timestamp : str) (image_id : str) : M world download_response :=
  let* known := gets (fun w => results_dict w !! image_id) in
  match known with
  | Some result =>
      match e_status result with
      | completed =>
          let document_type := default (lit "document") session_document_type in
          let* p := path_of result in
          let* filename := os_path_basename p in
          let* txt_content :=
            match e_txt_content result with
            | None => data_of result
            | Some txt_content => ret txt_content
            end in
          ret (Attachment
                 (document_type ++ lit "_" ++ filename ++ lit "_" ++ timestamp
                    ++ lit ".txt")
                 (lit "text/plain") txt_content)
      | _ => ret RedirectToReview
      end
  | None => ret RedirectToReview
  end.

End Downloads.

(** What the download routes read of an entry. *)
Definition download_view (e : entry)
  : status * option pathval * option str * option str * option str :=
  (e_status e, e_path e, e_data e, e_csv_content e, e_txt_content e).

(** Two states in which every download is the same. *)
Definition same_downloads (w w' : world) : Prop :=
  forall id : str,
    download_view <$> results_dict w' !! id =
    download_view <$> results_dict w !! id.

(** A row as it is read back from the text [csv.writer] wrote: the
    carriage return that ends the row stays on its last value. *)
Definition terminated (row : list str) : list str :=
  List.removelast row ++ [List.last row [] ++ [CR]].

(** A row of values [csv.writer] writes as they are, tabs between them,
    and that is not blank: no value holds the delimiter, a line feed, a
    carriage return or a double quote, for which the writer would put
    the value between quotes, and some value holds a character that is
    not white space. *)
Definition plain_row (row : list str) : Prop :=
  List.Forall
    (fun v => ~ In TAB v /\ ~ In NL v /\ ~ In CR v /\ ~ In QUOTE v) row
  /\ List.Exists (fun v => List.Exists (fun c => is_space c = false) v) row.

Section Answer.
Context {E : Env}.

(** What the extractor returns for an image with the content
    [file_data]. *)
Definition answer_for (file_data : bytes) (document_type : str) : str :=
  process_document_image ∅ (PBuf file_data) document_type.

End Answer.

(** ** Scheduled cleanup ([app.py], [cleanup_uploads_folder]) *)

Section Cleanup.
(** The time of the pass and the modification times of the files, in
    seconds. *)
Variables (now : float) (getmtime : str -> float).

(** [now - os.path.getmtime(file_path) > 86400] *)
Definition older_than_a_day (file_path : str) : bool :=
  PrimFloat.ltb (float_of_int 86400) (PrimFloat.sub now (getmtime file_path)).

(** The body of the loop on one name of the upload folder. *)
Definition cleanup_file (count : Z) (file_name : str) : M world Z :=
  let file_path := UPLOAD_FOLDER ++ [SLASH] ++ file_name in
  let* is_file := gets (fun w => bool_decide (is_Some (files w !! file_path))) in
  if is_file then
    if older_than_a_day file_path then
      let* deleted := delete_file file_path in
      if deleted then ret (count + 1) else ret count
    else ret count
  else ret count.

Fixpoint cleanup_files (listing : list str) (count : Z) : M world Z :=
  match listing with
  | [] => ret count
  | file_name :: rest =>
      let* count := cleanup_file count file_name in
      cleanup_files rest count
  end.

(** One pass of the loop of [cleanup_uploads_folder]; [listing] is what
    [os.listdir] answered, the result is the count that is printed. *)
Definition cleanup_uploads_folder (listing : list str) : M world Z :=
  cleanup_files listing 0.

(** The files a pass removes: those of the listing that are older than a
    day. *)
Definition swept (listing : list str) (file_path : str) : bool :=
  existsb (fun file_name =>
             str_eqb file_path (UPLOAD_FOLDER ++ [SLASH] ++ file_name))
          listing
  && older_than_a_day file_path.

End Cleanup.

(** The exception [task_done] raises when no task is counted as
    unfinished. *)
Definition too_many_calls : exn :=
  ValueError (lit "task_done() called too many times").

(** ** Vocabulary for the properties of the parser *)

(** The labels of a list in the order of their first occurrence, the ones
    in [seen] left out. *)
Fixpoint first_occurrences (seen labels : list str) : list str :=
  match labels with
  | [] => []
  | l :: rest =>
      if bool_decide (l ∈ seen) then first_occurrences seen rest
      else l :: first_occurrences (l :: seen) rest
  end.

(** A text with every line feed turned into carriage return, line feed. *)
Definition crlf (text : str) : str :=
  flat_map (fun c => if N.eqb c NL then [13%N; NL] else [c]) text.

(** What the parser guarantees of a label and its value. *)
Definition clean_field (kv : str * str) : Prop :=
  strip (fst kv) = fst kv /\ strip (snd kv) = snd kv
  /\ ~ In COLON (fst kv) /\ ~ In NL (fst kv) /\ ~ In NL (snd kv).

(** A mapping written in the format the instructions ask for: one line
    [Label: value] per entry. *)
Definition render_fields (fields : dict) : str :=
  join [NL] (List.map (fun kv => fst kv ++ lit ": " ++ snd kv) fields).

(** ** Vocabulary for the properties of the renderer *)

(** The lines of an instruction after its rule of dashes: the format the
    model is told to answer in. *)
Fixpoint after_rule (lines : list str) : list str :=
  match lines with
  | [] => []
  | l :: rest =>
      if str_eqb l (lit "----------------------------") then rest
      else after_rule rest
  end.

(** The labels an instruction tells the model to write. *)
Definition template_labels (instruction : str) : list str :=
  List.map fst (fold_left store_line (after_rule (split NL instruction)) []).

(** ** Further concrete requests *)
Module Sample.

(** A request with an image and a text file; only the image is allowed. *)
Definition request : list upload :=
  [ {| u_filename := lit "scan.png"; u_timestamp := lit "20240101120000";
       u_secure_filename := lit "scan.png"; u_data := Demo.small_image |};
    {| u_filename := lit "notes.txt"; u_timestamp := lit "20240101120000";
       u_secure_filename := lit "notes.txt"; u_data := [1%N; 2%N] |} ].

(** A table of two rows; a value of the second holds a comma. *)
Definition table : list (list str) :=
  [ [lit "Filename"; lit "Bank Name"];
    [lit "scan.png"; lit "First Bank, N.A."] ].

(** The state of [Demo.uploaded_on_disk] once the stored file has been
    removed from the upload folder. *)
Definition cleaned : world :=
  set_files (fun _ => ∅) (Demo.uploaded_on_disk "check").

(** The state [w] with no task counted as unfinished. *)
Definition uncounted (w : world) : world :=
  set_queue (process_queue w) 0 w.

End Sample.

(* ===================================================================== *)
(** * Properties *)
(* ===================================================================== *)

(** ** Strings and dictionaries *)

Example parse_scenario3 :
  parse_extracted_text
    (lit "Bank Name: ABC Bank" ++ [NL] ++ lit "Garbled line" ++ [NL]
       ++ lit "Check Number: 1234") (lit "check")
  = [(lit "Bank Name", lit "ABC Bank"); (lit "Check Number", lit "1234")].
Proof. vm_compute. reflexivity. Qed.

Lemma str_eqb_eq (a b : str) : str_eqb a b = true <-> a = b.
Proof. unfold str_eqb. apply bool_decide_eq_true. Qed.

Lemma str_eqb_refl (a : str) : str_eqb a a = true.
Proof. apply str_eqb_eq. reflexivity. Qed.

Lemma dict_get_set (k k' v : str) (d : dict) :
  dict_get k (dict_set k' v d) =
  if str_eqb k k' then Some v else dict_get k d.
Proof.
  induction d as [|[a w] d IH]; simpl.
  - reflexivity.
  - destruct (str_eqb k' a) eqn:Ea; simpl.
    + apply str_eqb_eq in Ea. subst a.
      destruct (str_eqb k k'); reflexivity.
    + destruct (str_eqb k a) eqn:Eb.
      * apply str_eqb_eq in Eb. subst a.
        destruct (str_eqb k k') eqn:Ec; [|reflexivity].
        apply str_eqb_eq in Ec. subst k'. rewrite str_eqb_refl in Ea.
        discriminate.
      * exact IH.
Qed.

Lemma dict_set_length (k v : str) (d : dict) :
  (length (dict_set k v d) <= S (length d))%nat.
Proof.
  induction d as [|[a w] d IH]; simpl.
  - lia.
  - destruct (str_eqb k a); simpl; lia.
Qed.

Lemma is_space_not_colon (c : char) : is_space c = true -> N.eqb c COLON = false.
Proof.
  intros H. destruct (N.eqb_spec c COLON) as [->|]; [|reflexivity].
  vm_compute in H. discriminate.
Qed.

Lemma contains_split1 (sep : char) (s : str) :
  contains sep s = match split1 sep s with Some _ => true | None => false end.
Proof.
  unfold contains. induction s as [|c s IH]; cbn [existsb split1].
  - reflexivity.
  - rewrite (N.eqb_sym sep c).
    destruct (N.eqb c sep); cbn [orb]; [reflexivity|].
    rewrite IH. destruct (split1 sep s) as [[k v]|]; reflexivity.
Qed.

Lemma split_cons (sep : char) (s : str) :
  exists l ls, split sep s = l :: ls.
Proof.
  induction s as [|c s [l [ls IH]]]; simpl.
  - eauto.
  - destruct (N.eqb c sep); [eauto|]. rewrite IH. eauto.
Qed.

Lemma rstrip_snoc_space (u : str) (c : char) :
  is_space c = true -> rstrip (u ++ [c]) = rstrip u.
Proof.
  intros Hc. induction u as [|a u IH]; simpl.
  - rewrite Hc. reflexivity.
  - rewrite IH. reflexivity.
Qed.

Lemma strip_cons_space (c : char) (s : str) :
  is_space c = true -> strip (c :: s) = strip s.
Proof. intros Hc. unfold strip. simpl. rewrite Hc. reflexivity. Qed.

Lemma strip_snoc_space (s : str) (c : char) :
  is_space c = true -> strip (s ++ [c]) = strip s.
Proof.
  intros Hc. unfold strip. induction s as [|a s IH]; simpl.
  - rewrite Hc. reflexivity.
  - destruct (is_space a); [exact IH|].
    change (a :: s ++ [c]) with ((a :: s) ++ [c]).
    apply rstrip_snoc_space, Hc.
Qed.

Lemma rstrip_decompose (s : str) :
  exists ws, s = rstrip s ++ ws /\ forallb is_space ws = true.
Proof.
  induction s as [|a s [ws [Hs Hws]]]; simpl.
  - exists []. split; reflexivity.
  - destruct (rstrip s) as [|b r] eqn:Er.
    + simpl in Hs. subst ws.
      destruct (is_space a) eqn:Ea.
      * exists (a :: s). simpl. rewrite Ea, Hws. split; reflexivity.
      * exists s. split; [reflexivity|exact Hws].
    + exists ws. split; [|exact Hws]. simpl. f_equal. exact Hs.
Qed.

(** ** The parser *)

Section ParserFacts.
Import ParserSpec.

Lemma store_line_labelled (data : dict) (line : str) :
  store_line data line =
  fold_left (fun d kv => dict_set (fst kv) (snd kv) d) (labelled line) data.
Proof.
  unfold store_line, labelled. rewrite contains_split1.
  destruct (split1 COLON line) as [[k v]|]; reflexivity.
Qed.

Lemma fold_store_line (lines : list str) (data : dict) :
  fold_left store_line lines data =
  fold_left (fun d kv => dict_set (fst kv) (snd kv) d)
            (flat_map labelled lines) data.
Proof.
  revert data. induction lines as [|l lines IH]; intros data;
    cbn [fold_left flat_map].
  - reflexivity.
  - rewrite IH, fold_left_app, store_line_labelled. reflexivity.
Qed.

Lemma last_value_app (k : str) (ps qs : list (str * str)) :
  last_value k (ps ++ qs) =
  match last_value k qs with Some w => Some w | None => last_value k ps end.
Proof.
  induction ps as [|[l v] ps IH]; cbn [app last_value].
  - destruct (last_value k qs); reflexivity.
  - rewrite IH. destruct (last_value k qs); reflexivity.
Qed.

Lemma dict_get_fold (k : str) (ps : list (str * str)) (data : dict) :
  dict_get k (fold_left (fun d kv => dict_set (fst kv) (snd kv) d) ps data) =
  match last_value k ps with Some w => Some w | None => dict_get k data end.
Proof.
  revert data. induction ps as [|[l v] ps IH]; intros data;
    cbn [fold_left last_value fst snd].
  - reflexivity.
  - rewrite IH. destruct (last_value k ps); [reflexivity|].
    rewrite dict_get_set. destruct (str_eqb k l); reflexivity.
Qed.

Lemma length_fold (ps : list (str * str)) (data : dict) :
  (length (fold_left (fun d kv => dict_set (fst kv) (snd kv) d) ps data)
   <= length data + length ps)%nat.
Proof.
  revert data. induction ps as [|[l v] ps IH]; intros data;
    cbn [fold_left fst snd length].
  - lia.
  - specialize (IH (dict_set l v data)).
    pose proof (dict_set_length l v data). lia.
Qed.

Lemma labelled_nil : labelled [] = [].
Proof. reflexivity. Qed.

Lemma labelled_cons_space (c : char) (l : str) :
  is_space c = true -> labelled (c :: l) = labelled l.
Proof.
  intros Hc. unfold labelled. cbn [split1].
  rewrite (is_space_not_colon c Hc).
  destruct (split1 COLON l) as [[k v]|]; [|reflexivity].
  rewrite strip_cons_space by exact Hc. reflexivity.
Qed.

Lemma split1_snoc (c : char) (l : str) :
  N.eqb c COLON = false ->
  split1 COLON (l ++ [c]) =
  match split1 COLON l with Some (k, v) => Some (k, v ++ [c]) | None => None end.
Proof.
  intros Hc. induction l as [|a l IH]; cbn [app split1].
  - rewrite Hc. reflexivity.
  - destruct (N.eqb a COLON); [reflexivity|].
    rewrite IH. destruct (split1 COLON l) as [[k v]|]; reflexivity.
Qed.

Lemma labelled_snoc_space (c : char) (l : str) :
  is_space c = true -> labelled (l ++ [c]) = labelled l.
Proof.
  intros Hc. unfold labelled.
  rewrite split1_snoc by (apply is_space_not_colon, Hc).
  destruct (split1 COLON l) as [[k v]|]; [|reflexivity].
  rewrite strip_snoc_space by exact Hc. reflexivity.
Qed.

(** The lines of a text with [p] put in front of its first line. *)
Definition prepend (p : str) (ls : list str) : list str :=
  match ls with
  | l :: r => (p ++ l) :: r
  | [] => [p]
  end.

Lemma split_prepend (c : char) (s : str) :
  N.eqb c NL = false -> split NL (c :: s) = prepend [c] (split NL s).
Proof.
  intros Hc. cbn [split]. rewrite Hc.
  destruct (split NL s); reflexivity.
Qed.

Lemma prepend_prepend (p q : str) (s : str) :
  prepend p (prepend q (split NL s)) = prepend (p ++ q) (split NL s).
Proof.
  destruct (split_cons NL s) as [l [ls ->]]. cbn [prepend].
  rewrite app_assoc. reflexivity.
Qed.

Lemma pairs_snoc_space_gen (c : char) (s p : str) :
  is_space c = true ->
  flat_map labelled (prepend p (split NL (s ++ [c]))) =
  flat_map labelled (prepend p (split NL s)).
Proof.
  intros Hc. revert p. induction s as [|a s IH]; intros p.
  - cbn [app split]. destruct (N.eqb c NL); cbn [prepend flat_map].
    + rewrite labelled_nil. reflexivity.
    + rewrite labelled_snoc_space by exact Hc.
      rewrite (app_nil_r p). reflexivity.
  - change ((a :: s) ++ [c]) with (a :: (s ++ [c])).
    destruct (N.eqb a NL) eqn:Ea.
    + cbn [split]. rewrite Ea. cbn [prepend flat_map]. f_equal.
      specialize (IH []).
      destruct (split_cons NL (s ++ [c])) as [l1 [r1 E1]].
      destruct (split_cons NL s) as [l2 [r2 E2]].
      rewrite E1, E2 in IH |- *. exact IH.
    + rewrite !split_prepend by exact Ea. rewrite !prepend_prepend. apply IH.
Qed.

Lemma pairs_snoc_space (c : char) (s : str) :
  is_space c = true -> pairs (s ++ [c]) = pairs s.
Proof.
  intros Hc. unfold pairs.
  pose proof (pairs_snoc_space_gen c s [] Hc) as H.
  destruct (split_cons NL (s ++ [c])) as [l1 [r1 E1]].
  destruct (split_cons NL s) as [l2 [r2 E2]].
  rewrite E1, E2 in H |- *. exact H.
Qed.

Lemma pairs_cons_space (c : char) (s : str) :
  is_space c = true -> pairs (c :: s) = pairs s.
Proof.
  intros Hc. unfold pairs. cbn [split].
  destruct (N.eqb c NL).
  - reflexivity.
  - destruct (split_cons NL s) as [l [ls ->]]. cbn [flat_map].
    rewrite labelled_cons_space by exact Hc. reflexivity.
Qed.

Lemma pairs_lstrip (s : str) : pairs (lstrip s) = pairs s.
Proof.
  induction s as [|c s IH]; cbn [lstrip].
  - reflexivity.
  - destruct (is_space c) eqn:Ec; [|reflexivity].
    rewrite IH. symmetry. apply pairs_cons_space, Ec.
Qed.

Lemma pairs_app_spaces (ws s : str) :
  forallb is_space ws = true -> pairs (s ++ ws) = pairs s.
Proof.
  induction ws as [|c ws IH] using rev_ind; intros H.
  - rewrite app_nil_r. reflexivity.
  - rewrite forallb_app in H. apply andb_true_iff in H as [H1 H2].
    cbn [forallb] in H2. rewrite andb_true_r in H2.
    rewrite app_assoc, pairs_snoc_space by exact H2. apply IH, H1.
Qed.

Lemma pairs_rstrip (s : str) : pairs (rstrip s) = pairs s.
Proof.
  destruct (rstrip_decompose s) as [ws [Hs Hws]].
  rewrite Hs at 2. symmetry. apply pairs_app_spaces, Hws.
Qed.

Lemma pairs_strip (s : str) : pairs (strip s) = pairs s.
Proof. unfold strip. rewrite pairs_rstrip. apply pairs_lstrip. Qed.

Lemma length_labelled (lines : list str) :
  length (flat_map labelled lines) =
  length (filter (fun line => contains COLON line = true) lines).
Proof.
  induction lines as [|l lines IH]; [reflexivity|].
  cbn [flat_map]. rewrite length_app, IH, filter_cons.
  unfold labelled at 1. rewrite contains_split1.
  destruct (split1 COLON l) as [[k v]|]; case_decide; try congruence;
    reflexivity.
Qed.

Lemma parse_as_pairs (text document_type : str) :
  parse_extracted_text text document_type =
  fold_left (fun d kv => dict_set (fst kv) (snd kv) d) (pairs text) [].
Proof.
  unfold parse_extracted_text. destruct text as [|c text]; [reflexivity|].
  rewrite fold_store_line. fold (pairs (strip (c :: text))).
  rewrite pairs_strip. reflexivity.
Qed.

End ParserFacts.

(** C2. For every text, the parser's mapping is the one the specification
    describes: the text is split on line breaks, each line with a colon is
    cut at its first colon and both sides are trimmed, the value of a label
    is the one of its last line, lines without a colon contribute nothing,
    and the mapping has at most as many entries as there are lines with a
    colon. *)
Theorem C2_parser_refines_spec (text document_type : str) :
  (forall label,
     dict_get label (parse_extracted_text text document_type) =
     ParserSpec.last_value label (ParserSpec.pairs text))
  /\ length (ParserSpec.pairs text) = length (ParserSpec.colon_lines text)
  /\ (length (parse_extracted_text text document_type)
      <= length (ParserSpec.colon_lines text))%nat
  /\ (length (ParserSpec.colon_lines text)
      + length (ParserSpec.plain_lines text)
      = length (split NL text))%nat.
Proof.
  rewrite parse_as_pairs. repeat split.
  - intros label. rewrite dict_get_fold.
    destruct (ParserSpec.last_value label (ParserSpec.pairs text)); reflexivity.
  - apply length_labelled.
  - pose proof (length_fold (ParserSpec.pairs text) []) as H.
    cbn [length] in H. unfold ParserSpec.pairs in H.
    rewrite length_labelled in H. exact H.
  - unfold ParserSpec.colon_lines, ParserSpec.plain_lines.
    induction (split NL text) as [|l ls IH]; [reflexivity|].
    rewrite !filter_cons. destruct (contains COLON l);
      repeat case_decide; try congruence; cbn [length]; lia.
Qed.

(** ** The image normaliser *)

Lemma normalize_result (img : image) (input_size min_size : Z) :
  0 < fst (im_size img) -> 0 < snd (im_size img) -> 0 < input_size ->
  exists resized : Z * Z,
    normalize img input_size min_size =
    Ok {| pasted_size := resized;
          square_size := Z.max (Z.max (fst resized) (snd resized)) input_size;
          paste_at :=
            ((Z.max (Z.max (fst resized) (snd resized)) input_size
              - fst (im_size img)) / 2,
             (Z.max (Z.max (fst resized) (snd resized)) input_size
              - snd (im_size img)) / 2);
          out_mode := RGB;
          out_size := (input_size, input_size);
          tensor_shape := [1; 3; input_size; input_size] |}
    /\ (min_size <= fst (im_size img) -> min_size <= snd (im_size img) ->
        resized = im_size img).
Proof.
  destruct img as [m [w h]]. cbn [im_size fst snd]. intros Hw Hh Hin.
  assert (Hout : forall d : Z,
    (if input_size <? Z.max d input_size
     then if input_size <? 1
          then Raise (ValueError (lit "height and width must be > 0"))
          else Ok (input_size, input_size)
     else Ok (Z.max d input_size, Z.max d input_size))
    = Ok (input_size, input_size)).
  { intros d. replace (input_size <? 1) with false
      by (symmetry; apply Z.ltb_ge; lia).
    destruct (Z.ltb_spec input_size (Z.max d input_size));
      [reflexivity|]. do 2 f_equal; lia. }
  unfold normalize.
  assert (Hsz : forall b : bool,
    im_size (if b then {| im_mode := m; im_size := (w, h) |}
             else {| im_mode := RGB;
                     im_size := im_size {| im_mode := m; im_size := (w, h) |} |})
    = (w, h)) by (intros []; reflexivity).
  cbn [im_mode]. rewrite Hsz.
  destruct ((w <? min_size) || (h <? min_size)) eqn:Esmall.
  - replace ((w =? 0) || (h =? 0)) with false
      by (symmetry; apply orb_false_iff; split; apply Z.eqb_neq; lia).
    eexists (_, _). cbn [im_size fst snd]. rewrite Hout. split; [reflexivity|].
    intros H1 H2. apply orb_true_iff in Esmall as [H|H];
      apply Z.ltb_lt in H; lia.
  - exists (w, h). rewrite Hsz. cbn [fst snd]. rewrite Hout.
    split; reflexivity.
Qed.

(** A target side below 1 is refused: the canvas is larger, and its
    resize raises. *)
Lemma normalize_refuses_small_target (img : image) (input_size min_size : Z) :
  0 < fst (im_size img) -> 0 < snd (im_size img) -> input_size < 1 ->
  normalize img input_size min_size =
  Raise (ValueError (lit "height and width must be > 0")).
Proof.
  destruct img as [m [w h]]. cbn [im_size fst snd]. intros Hw Hh Hin.
  unfold normalize.
  assert (Hsz : forall b : bool,
    im_size (if b then {| im_mode := m; im_size := (w, h) |}
             else {| im_mode := RGB;
                     im_size := im_size {| im_mode := m; im_size := (w, h) |} |})
    = (w, h)) by (intros []; reflexivity).
  cbn [im_mode]. rewrite Hsz.
  assert (Hout : forall a b : Z, 0 < a ->
    (if input_size <? Z.max (Z.max a b) input_size
     then if input_size <? 1
          then Raise (ValueError (lit "height and width must be > 0"))
          else Ok (input_size, input_size)
     else Ok (Z.max (Z.max a b) input_size, Z.max (Z.max a b) input_size))
    = Raise (ValueError (lit "height and width must be > 0"))).
  { intros a b Ha.
    replace (input_size <? Z.max (Z.max a b) input_size) with true
      by (symmetry; apply Z.ltb_lt; lia).
    replace (input_size <? 1) with true by (symmetry; apply Z.ltb_lt; lia).
    reflexivity. }
  destruct ((w <? min_size) || (h <? min_size)) eqn:Esmall.
  - replace ((w =? 0) || (h =? 0)) with false
      by (symmetry; apply orb_false_iff; split; apply Z.eqb_neq; lia).
    cbn [im_size fst snd]. rewrite Hout; [reflexivity|].
    apply orb_true_iff in Esmall as [H|H]; apply Z.ltb_lt in H; lia.
  - rewrite Hsz. cbn [fst snd]. rewrite Hout by exact Hw. reflexivity.
Qed.

(** C3. For every decodable image with positive sides, of any mode and
    any aspect ratio, also below the minimum size, and every target side
    S > 0, the normaliser returns a three-channel image of exactly S by S
    pixels and a tensor of shape 1 x 3 x S x S. *)
Theorem C3_normalizer_output_is_square `{E : Env} (files : gmap str bytes)
  (image_path : pathval) (img : image) (input_size min_size : Z) :
  open_image files image_path = Ok img ->
  0 < fst (im_size img) -> 0 < snd (im_size img) -> 0 < input_size ->
  exists n : normalized,
    preprocess_image files image_path input_size min_size = Ok n
    /\ out_size n = (input_size, input_size)
    /\ out_mode n = lit "RGB"
    /\ tensor_shape n = [1; 3; input_size; input_size].
Proof.
  intros Hopen Hw Hh Hin.
  destruct (normalize_result img input_size min_size Hw Hh Hin) as [r [Hn _]].
  unfold preprocess_image. rewrite Hopen, Hn.
  eexists. split; [reflexivity|]. repeat split.
Qed.

Lemma C3_witness :
  exists n : normalized,
    @preprocess_image (Demo.answering Demo.check_answer)
      {[ Demo.job_path := Demo.small_image ]} (PStr Demo.job_path) 448 14 = Ok n
    /\ out_size n = (448, 448)
    /\ out_mode n = lit "RGB"
    /\ tensor_shape n = [1; 3; 448; 448].
Proof.
  apply (@C3_normalizer_output_is_square (Demo.answering Demo.check_answer)
           {[ Demo.job_path := Demo.small_image ]} (PStr Demo.job_path)
           {| im_mode := RGB; im_size := (7, 7) |} 448 14).
  - vm_compute. reflexivity.
  - simpl. lia.
  - simpl. lia.
  - lia.
Defined.

(** An image that is not upscaled is pasted in the centre of the canvas. *)
Lemma normalize_centered_when_large (img : image) (input_size min_size : Z) :
  0 < fst (im_size img) -> 0 < snd (im_size img) -> 0 < input_size ->
  min_size <= fst (im_size img) -> min_size <= snd (im_size img) ->
  exists n : normalized,
    normalize img input_size min_size = Ok n
    /\ pasted_size n = im_size img
    /\ paste_at n = ((square_size n - fst (pasted_size n)) / 2,
                     (square_size n - snd (pasted_size n)) / 2).
Proof.
  intros Hw Hh Hin H1 H2.
  destruct (normalize_result img input_size min_size Hw Hh Hin) as [r [Hn Hr]].
  rewrite (Hr H1 H2) in Hn. rewrite Hn. eexists. split; [reflexivity|].
  split; reflexivity.
Qed.

(** C4. A 7 by 7 image is upscaled to 14 by 14 and pasted on the canvas
    of side 448 at (220, 220), the offsets of the size before the
    upscaling; the centre of the image pasted would be (217, 217). *)
Theorem C4_paste_offsets_of_upscaled_image :
  exists n : normalized,
    normalize {| im_mode := lit "RGB"; im_size := (7, 7) |} 448 14 = Ok n
    /\ pasted_size n = (14, 14)
    /\ square_size n = 448
    /\ paste_at n = (220, 220)
    /\ ((square_size n - fst (pasted_size n)) / 2,
        (square_size n - snd (pasted_size n)) / 2) = (217, 217).
Proof.
  eexists. split; [vm_compute; reflexivity|]. repeat split.
Qed.

(** ** The export renderer *)

Lemma str_eqb_neq (a b : str) : a <> b -> str_eqb a b = false.
Proof. intros H. unfold str_eqb. apply bool_decide_eq_false. exact H. Qed.

(** The fields the passport row is read from: a mapping is read as it
    is, and raw text is cut into lines, each line with a colon giving a
    label and a value, both trimmed, the last line of a label giving its
    value. *)
Lemma as_dict_fields (data : extraction) (field : str) :
  dict_get field (as_dict data) =
  match data with
  | Fields d => dict_get field d
  | Raw text => ParserSpec.last_value field (ParserSpec.pairs text)
  end.
Proof.
  destruct data as [text|d]; [|reflexivity].
  unfold as_dict. rewrite fold_store_line.
  fold (ParserSpec.pairs text). rewrite dict_get_fold.
  destruct (ParserSpec.last_value field (ParserSpec.pairs text)); reflexivity.
Qed.

(** C5. For the document type passport, every row of the table has 18
    columns: the file name, then the 17 passport fields in the order of
    the header. When the data is a mapping a column holds the value the
    mapping has for the field; when it is raw text, the value of the
    last line of the text whose label, the text before its first colon,
    trimmed, is the field; the sentinel NA when there is none. *)
Theorem C5_passport_rows `{E : Env} (all_results : list result) :
  csv_rows all_results (Some (lit "passport")) =
    (lit "Filename" :: passport_fields)
      :: List.map
           (fun r =>
              filename r
                :: List.map
                     (fun field =>
                        match
                          match extraction_data r with
                          | Fields d => dict_get field d
                          | Raw text =>
                              ParserSpec.last_value field
                                (ParserSpec.pairs text)
                          end
                        with
                        | Some value => value
                        | None => lit "NA"
                        end)
                     passport_fields)
           all_results
  /\ passport_fields =
     List.map lit
       ["Passport Country Code"; "Passport Type"; "Passport Number";
        "First Name"; "Family Name"; "Date of Birth Day";
        "Date of Birth Month"; "Date of Birth Year"; "Place of Birth";
        "Gender"; "Date of Issue Day"; "Date of Issue Month";
        "Date of Issue Year"; "Date of Expiration Day";
        "Date of Expiration Month"; "Date of Expiration Year";
        "Authority"]%string
  /\ length passport_fields = 17%nat
  /\ Forall (fun row => length row = 18%nat)
            (csv_rows all_results (Some (lit "passport"))).
Proof.
  assert (Hrows : csv_rows all_results (Some (lit "passport")) =
    passport_headers
      :: List.map (fun r => extract_passport_data (filename r) (extraction_data r))
                  all_results).
  { unfold csv_rows.
    replace (str_eqb (doc_type_or_unknown (Some (lit "passport"))) (lit "check"))
      with false by (vm_compute; reflexivity).
    replace (str_eqb (doc_type_or_unknown (Some (lit "passport"))) (lit "passport"))
      with true by (vm_compute; reflexivity).
    reflexivity. }
  rewrite Hrows. split; [|split; [|split]].
  - unfold passport_headers. f_equal. apply List.map_ext. intros r.
    unfold extract_passport_data, get, passport_fields. cbn [List.map].
    rewrite <- !as_dict_fields. reflexivity.
  - reflexivity.
  - reflexivity.
  - constructor; [reflexivity|]. clear Hrows.
    induction all_results as [|r rs IH]; cbn [List.map]; constructor;
      [reflexivity|exact IH].
Qed.

(** C6. For a document type other than passport, check and invoice (also
    a missing or empty one), the renderer returns the generic table: the
    header (Filename, Extraction Data) and one two-column row per result,
    with the file name and the text of the extraction data. *)
Theorem C6_generic_fallback `{E : Env} (all_results : list result)
  (document_type : option str) :
  document_type <> Some (lit "passport") ->
  document_type <> Some (lit "check") ->
  document_type <> Some (lit "invoice") ->
  csv_rows all_results document_type =
    [lit "Filename"; lit "Extraction Data"]
      :: List.map (fun r => [filename r; py_str (extraction_data r)]) all_results
  /\ length (csv_rows all_results document_type) = S (length all_results)
  /\ convert_to_csv_content all_results document_type =
     writerow [lit "Filename"; lit "Extraction Data"]
       ++ concat (List.map (fun r => writerow [filename r; py_str (extraction_data r)])
                           all_results).
Proof.
  intros Hp Hc Hi.
  assert (Hrows : csv_rows all_results document_type =
    [lit "Filename"; lit "Extraction Data"]
      :: List.map (fun r => [filename r; py_str (extraction_data r)]) all_results).
  { unfold csv_rows.
    assert (Hne : forall t, document_type <> Some t -> t <> lit "unknown" ->
                            doc_type_or_unknown document_type <> t).
    { intros t Ht Hu Heq. destruct document_type as [[|c s]|];
        cbn [doc_type_or_unknown] in Heq;
        [apply Hu; symmetry; exact Heq
        |apply Ht; rewrite Heq; reflexivity
        |apply Hu; symmetry; exact Heq]. }
    rewrite !str_eqb_neq; [reflexivity| | |]; apply Hne; try assumption;
      vm_compute; discriminate. }
  split; [exact Hrows|]. split.
  - rewrite Hrows. cbn [length]. rewrite length_map. reflexivity.
  - unfold convert_to_csv_content. rewrite Hrows. cbn [List.map concat].
    rewrite map_map. reflexivity.
Qed.

Lemma C6_witness :
  csv_rows (E := Demo.answering Demo.check_answer)
    [ {| filename := lit "scan.png"; extraction_data := Raw Demo.check_answer |} ]
    (Some (lit "unknown_type"))
  = [ [lit "Filename"; lit "Extraction Data"];
      [lit "scan.png"; Demo.check_answer] ].
Proof.
  apply (@C6_generic_fallback (Demo.answering Demo.check_answer)
           [ {| filename := lit "scan.png";
                extraction_data := Raw Demo.check_answer |} ]
           (Some (lit "unknown_type"))); vm_compute; discriminate.
Defined.

(** ** The field extractor *)

(** C7. For a document type other than passport, check and invoice, the
    extractor selects the passport template and, once the image is
    normalised, calls the model with the prompt composed from it; the
    reply of the model is returned as it is. *)
Theorem C7_unknown_type_uses_passport_template `{E : Env}
  (files : gmap str bytes) (image_path : pathval) (document_type : str)
  (pixel_values : normalized) :
  document_type <> lit "passport" ->
  document_type <> lit "check" ->
  document_type <> lit "invoice" ->
  preprocess_image files image_path 448 14 = Ok pixel_values ->
  system_instruction_for document_type = passport_instruction
  /\ process_document_image files image_path document_type =
     match chat pixel_values
                (lit "<image>" ++ [NL] ++ passport_instruction ++ [NL; NL]) 512 with
     | Ok response => response
     | Raise e => lit "Error processing image: " ++ exn_str e
     | Continue => []
     end.
Proof.
  intros Hp Hc Hi Hpre.
  assert (Hsel : system_instruction_for document_type = passport_instruction).
  { unfold system_instruction_for. rewrite !str_eqb_neq by assumption.
    reflexivity. }
  split; [exact Hsel|].
  unfold process_document_image. rewrite Hpre, Hsel. reflexivity.
Qed.

Lemma C7_witness :
  @process_document_image (Demo.answering Demo.passport_answer)
    {[ Demo.job_path := Demo.small_image ]} (PStr Demo.job_path)
    (lit "unknown_type")
  = Demo.passport_answer.
Proof.
  destruct (@C7_unknown_type_uses_passport_template
              (Demo.answering Demo.passport_answer)
              {[ Demo.job_path := Demo.small_image ]} (PStr Demo.job_path)
              (lit "unknown_type")
              {| pasted_size := (14, 14); square_size := 448;
                 paste_at := (220, 220); out_mode := RGB;
                 out_size := (448, 448);
                 tensor_shape := [1; 3; 448; 448] |}) as [_ H];
    try (vm_compute; discriminate).
  - vm_compute. reflexivity.
  - rewrite H. reflexivity.
Defined.

(** ** Status polls and saved corrections *)

Lemma same_polls_refl (w : world) : same_polls w w.
Proof. intros id. reflexivity. Qed.

Lemma same_polls_trans (w1 w2 w3 : world) :
  same_polls w1 w2 -> same_polls w2 w3 -> same_polls w1 w3.
Proof. intros H12 H23 id. rewrite H23. apply H12. Qed.

Lemma check_status_same_polls (dt id : str) (w w' : world) :
  same_polls w w' -> check_status dt id w' = check_status dt id w.
Proof.
  intros H. specialize (H id). unfold check_status.
  destruct (results_dict w' !! id) as [e'|], (results_dict w !! id) as [e|];
    cbn in H; try discriminate; [|reflexivity].
  injection H as Hs Hd He. rewrite Hs, Hd, He. reflexivity.
Qed.

(** Statements that keep a relation between the state before and after,
    whatever their outcome. *)
Section Keeps.
Context {S : Type} (R : S -> S -> Prop).
Local Abbreviation keeps := (keeps R).
Hypothesis R_refl : forall s, R s s.
Hypothesis R_trans : forall s1 s2 s3, R s1 s2 -> R s2 s3 -> R s1 s3.

Lemma keeps_ret {A} (a : A) : keeps (ret a).
Proof. intros s. apply R_refl. Qed.

Lemma keeps_raise {A} (e : exn) : keeps (raise (A := A) e).
Proof. intros s. apply R_refl. Qed.

Lemma keeps_continue {A} : keeps (continue_ (A := A)).
Proof. intros s. apply R_refl. Qed.

Lemma keeps_gets {A} (f : S -> A) : keeps (gets f).
Proof. intros s. apply R_refl. Qed.

Lemma keeps_bind {A B} (m : M S A) (k : A -> M S B) :
  keeps m -> (forall a, keeps (k a)) -> keeps (bind m k).
Proof.
  intros Hm Hk s. unfold bind. specialize (Hm s).
  destruct (m s) as [[a|e|] s1]; cbn [snd] in *; try exact Hm.
  eapply R_trans; [exact Hm|apply Hk].
Qed.

Lemma keeps_try_except {A} (m : M S A) (h : exn -> M S A) :
  keeps m -> (forall e, keeps (h e)) -> keeps (try_except m h).
Proof.
  intros Hm Hh s. unfold try_except. specialize (Hm s).
  destruct (m s) as [[a|e|] s1]; cbn [snd] in *; try exact Hm.
  eapply R_trans; [exact Hm|apply Hh].
Qed.

Lemma keeps_try_finally {A} (m : M S A) (c : M S unit) :
  keeps m -> keeps c -> keeps (try_finally m c).
Proof.
  intros Hm Hc s. unfold try_finally. specialize (Hm s).
  destruct (m s) as [r s1]. specialize (Hc s1).
  destruct (c s1) as [[u|e|] s2]; cbn [snd] in *;
    eapply R_trans; eassumption.
Qed.

End Keeps.

Lemma keeps_lift (R : world -> world -> Prop) {A} (m : M world A) :
  keeps R m -> keeps (on_world R) (lift m).
Proof.
  intros H [fr w]. unfold lift, on_world. cbn [fst snd]. specialize (H w).
  destruct (m w) as [r w1]. exact H.
Qed.

Lemma keeps_local (R : world -> world -> Prop) {A} (f : frame -> A) :
  (forall w, R w w) -> keeps (on_world R) (local f).
Proof. intros H s. apply H. Qed.

Lemma keeps_set_local (R : world -> world -> Prop) (f : frame -> frame) :
  (forall w, R w w) -> keeps (on_world R) (set_local f).
Proof. intros H s. apply H. Qed.

Lemma keeps_get_entry (R : world -> world -> Prop) (id : str) :
  (forall w, R w w) -> keeps R (get_entry id).
Proof.
  intros H w. unfold get_entry. destruct (results_dict w !! id); apply H.
Qed.

Lemma keeps_os_path_exists (R : world -> world -> Prop) (p : pathval) :
  (forall w, R w w) -> keeps R (os_path_exists p).
Proof.
  intros H. destruct p; [apply keeps_gets|apply keeps_raise]; exact H.
Qed.

Lemma keeps_polls_delete_file (p : str) : keeps_polls (delete_file p).
Proof.
  intros w. unfold delete_file. destruct (files w !! p);
    intros id; reflexivity.
Qed.

Lemma keeps_polls_set_field (id : str) (f : entry -> entry) :
  (forall e, poll_view (f e) = poll_view e) -> keeps_polls (set_field id f).
Proof.
  intros Hf w. unfold set_field, bind, get_entry.
  destruct (results_dict w !! id) as [e|] eqn:He; [|apply same_polls_refl].
  intros id'. cbn. destruct (decide (id = id')) as [<-|Hne].
  - rewrite lookup_insert_eq, He. cbn. rewrite Hf. reflexivity.
  - rewrite lookup_insert_ne by exact Hne. reflexivity.
Qed.

Ltac keeps_polls_step :=
  first
    [ apply keeps_ret, same_polls_refl
    | apply keeps_raise, same_polls_refl
    | apply keeps_gets, same_polls_refl
    | apply keeps_get_entry, same_polls_refl
    | apply keeps_os_path_exists, same_polls_refl
    | apply keeps_polls_delete_file
    | apply keeps_polls_set_field; intros []; reflexivity
    | apply (keeps_bind same_polls same_polls_trans); [|intros ?]
    | match goal with
      | |- keeps _ (match ?x with _ => _ end) => destruct x
      end ].

Section SaveFacts.
Context {E : Env}.

Lemma save_in_store_keeps_polls (image_id : str) (corrected_data : dict) :
  keeps_polls (save_in_store image_id corrected_data).
Proof. unfold save_in_store. repeat keeps_polls_step. Qed.

Lemma save_document_same_polls (r : save_request) (w : world) :
  same_polls w
    (snd (save_document (s_email r) (s_document_type r) (s_image_id r)
                        (s_data r) (s_verified r) w)).
Proof.
  unfold save_document.
  pose proof (save_in_store_keeps_polls (s_image_id r) (s_data r) w) as H.
  destruct (s_image_id r), (s_data r), (s_document_type r) as [[|c t]|];
    try apply same_polls_refl;
    destruct (save_in_store _ _ w) as [[u|e|] w'];
    repeat match goal with
           | |- context [if ?b then _ else _] => destruct b
           end; exact H.
Qed.

Lemma save_all_same_polls (requests : list save_request) (w : world) :
  same_polls w (save_all requests w).
Proof.
  revert w. induction requests as [|r rs IH]; intros w.
  - apply same_polls_refl.
  - cbn [save_all fold_left].
    eapply same_polls_trans; [apply save_document_same_polls|apply IH].
Qed.

(** A human correction or save never changes the status of a job. *)
Lemma save_all_keeps_status (requests : list save_request) (w : world)
  (id : str) :
  e_status <$> results_dict (save_all requests w) !! id =
  e_status <$> results_dict w !! id.
Proof.
  pose proof (save_all_same_polls requests w id) as H.
  unfold poll_view in H.
  destruct (results_dict (save_all requests w) !! id),
           (results_dict w !! id); cbn in *; congruence.
Qed.

End SaveFacts.

(** C10. The answer to a status poll on a completed job is the stored raw
    text parsed anew; it is the same after any sequence of save requests,
    whatever corrections they carry, since these go to the parsed fields
    and leave the raw text as it is. *)
Theorem C10_polls_ignore_corrections `{E : Env} (w : world)
  (session_document_type image_id text : str) (e : entry) :
  results_dict w !! image_id = Some e ->
  e_status e = completed ->
  e_data e = Some text ->
  check_status session_document_type image_id w =
    Ok (StatusCompleted (parse_extracted_text text session_document_type))
  /\ forall requests : list save_request,
       check_status session_document_type image_id (save_all requests w) =
         Ok (StatusCompleted (parse_extracted_text text session_document_type)).
Proof.
  intros He Hs Hd.
  assert (H : check_status session_document_type image_id w =
              Ok (StatusCompleted (parse_extracted_text text session_document_type))).
  { unfold check_status. rewrite He, Hs, Hd. reflexivity. }
  split; [exact H|]. intros requests.
  rewrite (check_status_same_polls _ _ w) by apply save_all_same_polls.
  exact H.
Qed.

Lemma C10_witness :
  @check_status (lit "check") Demo.job_id
    (@save_all (Demo.answering Demo.check_answer) [Demo.correction]
               Demo.check_done)
  = Ok (StatusCompleted [(lit "Bank Name", lit "ABC Bank");
                         (lit "Check Number", lit "1234")]).
Proof.
  assert (He : results_dict Demo.check_done !! Demo.job_id =
               Some (default (entry_of processing)
                       (results_dict Demo.check_done !! Demo.job_id)))
    by (vm_compute; reflexivity).
  destruct (@C10_polls_ignore_corrections (Demo.answering Demo.check_answer)
              Demo.check_done (lit "check") Demo.job_id Demo.check_answer
              _ He) as [_ H].
  - vm_compute. reflexivity.
  - vm_compute. reflexivity.
  - rewrite H. vm_compute. reflexivity.
Defined.

(** The correction itself reaches the parsed fields of the entry. *)
Example correction_updates_parsed_data :
  (e_parsed_data <$>
     results_dict (@save_all (Demo.answering Demo.check_answer)
                     [Demo.correction] Demo.check_done) !! Demo.job_id)
  = Some (Some [(lit "Bank Name", lit "XYZ Bank");
                (lit "Check Number", lit "1234")]).
Proof. vm_compute. reflexivity. Qed.

(** ** The worker *)

Lemma task_done_same_results : keeps same_results task_done.
Proof.
  intros w. unfold task_done, same_results.
  destruct (unfinished_tasks w - 1 <? 0); reflexivity.
Qed.

Lemma delete_file_same_results (q : str) : keeps same_results (delete_file q).
Proof.
  intros w. unfold delete_file, same_results.
  destruct (files w !! q); reflexivity.
Qed.

Lemma task_done_still_gone (p : str) : keeps (still_gone p) task_done.
Proof.
  intros w. unfold task_done, still_gone.
  destruct (unfinished_tasks w - 1 <? 0); intros H; exact H.
Qed.

Lemma delete_file_still_gone (p q : str) : keeps (still_gone p) (delete_file q).
Proof.
  intros w. unfold delete_file, still_gone.
  destruct (files w !! q); cbn [snd]; intros H; [|exact H].
  destruct (decide (q = p)) as [->|Hq].
  - apply lookup_delete_eq.
  - cbn. rewrite lookup_delete_ne by exact Hq. exact H.
Qed.

Lemma same_results_refl (w : world) : same_results w w.
Proof. reflexivity. Qed.

Lemma still_gone_refl (p : str) (w : world) : still_gone p w w.
Proof. intros H. exact H. Qed.

Lemma same_results_trans (w1 w2 w3 : world) :
  same_results w1 w2 -> same_results w2 w3 -> same_results w1 w3.
Proof. unfold same_results. congruence. Qed.

Lemma still_gone_trans (p : str) (w1 w2 w3 : world) :
  still_gone p w1 w2 -> still_gone p w2 w3 -> still_gone p w1 w3.
Proof. unfold still_gone. auto. Qed.

Ltac keeps_world_step R Rrefl Rtrans :=
  first
    [ apply keeps_ret; intros ?; unfold on_world; apply Rrefl
    | apply keeps_raise; intros ?; unfold on_world; apply Rrefl
    | apply keeps_continue; intros ?; unfold on_world; apply Rrefl
    | apply (keeps_local R); intros ?; apply Rrefl
    | apply (keeps_lift R)
    | apply keeps_get_entry; intros ?; apply Rrefl
    | apply keeps_os_path_exists; intros ?; apply Rrefl
    | apply (keeps_bind (on_world R)); [intros ? ? ?; apply Rtrans| |intros ?]
    | match goal with
      | |- keeps _ (match ?x with _ => _ end) => destruct x
      | |- keeps _ (if ?x then _ else _) => destruct x
      end ].

Section WorkerFacts.
Context {E : Env}.

(** For a document type other than check, [extracted_data_dict] is unbound
    when it is read: the text export is stored and the function raises. *)
Lemma process_extracted_data_unbound (id dt data : str) (w : world) (e : entry) :
  dt <> lit "check" ->
  results_dict w !! id = Some e ->
  exists txt : str,
    process_extracted_data_by_type id dt data w =
      (Raise (UnboundLocalError (lit "extracted_data_dict")),
       set_results (insert id (with_txt_content txt e)) w).
Proof.
  intros Hdt He. unfold process_extracted_data_by_type.
  rewrite (str_eqb_neq dt (lit "check") Hdt).
  destruct (str_eqb dt (lit "passport")); [|destruct (str_eqb dt (lit "invoice"));
    [|destruct (str_eqb dt (lit "text"))]];
    eexists; unfold bind, ret, set_field, bind, get_entry, set_entry, modify, raise;
    rewrite He; reflexivity.
Qed.

(** Once the model is loaded, the worker stores status completed for a
    document that is not a check, with the text of the extractor, and
    then raises. *)
Lemma extract_and_store_unbound (fr : frame) (w : world) :
  document_type fr <> lit "check" ->
  (model_loaded w = true \/ from_pretrained = None) ->
  exists w' : world,
    extract_and_store (fr, w) =
      (Raise (UnboundLocalError (lit "extracted_data_dict")), (fr, w'))
    /\ e_status <$> results_dict w' !! image_id fr = Some completed
    /\ e_data <$> results_dict w' !! image_id fr =
       Some (Some (process_document_image (files w) (image_path fr)
                     (document_type fr))).
Proof.
  intros Hdt Hload.
  assert (Hl : exists w1, load_model w = (Ok tt, w1)
                 /\ results_dict w1 = results_dict w /\ files w1 = files w).
  { unfold load_model. destruct (model_loaded w) eqn:Em.
    - exists w. repeat split.
    - destruct Hload as [H|H]; [discriminate|]. rewrite H.
      eexists. repeat split. }
  destruct Hl as [w1 [Hl [Hr Hf]]].
  unfold extract_and_store, bind, local, lift, gets, set_entry, modify.
  cbn [fst snd]. rewrite Hl. cbn [fst snd].
  match goal with
  | |- context [process_extracted_data_by_type ?i ?d ?x ?w2] =>
      destruct (process_extracted_data_unbound i d x w2
                  (default (entry_of processing) (results_dict w2 !! i)) Hdt)
        as [txt Hp]
  end.
  { cbn. rewrite lookup_insert_eq. reflexivity. }
  rewrite Hp. eexists. split; [reflexivity|].
  cbn. rewrite !lookup_insert_eq. cbn. rewrite Hf.
  split; destruct (results_dict w1 !! image_id fr); reflexivity.
Qed.

Lemma delete_temp_file_same_results :
  keeps (on_world same_results) delete_temp_file.
Proof.
  unfold delete_temp_file.
  repeat first [ apply (keeps_lift same_results), delete_file_same_results
               | keeps_world_step same_results same_results_refl
                   same_results_trans ].
Qed.

Lemma worker_except_entry (e : exn) (fr : frame) (w : world) :
  results_dict (snd (snd (worker_except e (fr, w)))) !! image_id fr =
  Some {| e_status := error; e_data := None; e_path := Some (image_path fr);
          e_image_data := None; e_error := Some (exn_str e);
          e_txt_content := None; e_parsed_data := None;
          e_csv_content := None; e_is_saved := None |}.
Proof.
  assert (Hrest : keeps (on_world same_results)
            (let* _ := lift task_done in delete_temp_file)).
  { apply (keeps_bind (on_world same_results)).
    - intros ? ? ?. apply same_results_trans.
    - apply (keeps_lift same_results), task_done_same_results.
    - intros _. apply delete_temp_file_same_results. }
  unfold worker_except.
  unfold bind at 1. unfold local at 1, gets at 1.
  unfold bind at 1. unfold local at 1, gets at 1.
  unfold bind at 1. unfold lift at 1, set_entry, modify. cbn [fst snd].
  match goal with
  | |- context [bind (lift task_done) ?k ?s] => specialize (Hrest s)
  end.
  unfold on_world, same_results in Hrest. rewrite Hrest. cbn [snd].
  apply lookup_insert_eq.
Qed.

(** After the temporary file is removed, what follows cannot bring it
    back. *)
Lemma delete_temp_file_then {A} (k : unit -> M (frame * world) A)
  (fr : frame) (w : world) (temp : str) :
  temp_file_path fr = Some temp -> temp <> [] ->
  (forall u, keeps (on_world (still_gone temp)) (k u)) ->
  files (snd (snd (bind delete_temp_file k (fr, w)))) !! temp = None.
Proof.
  intros Ht Hne Hk. destruct temp as [|c p]; [congruence|]. clear Hne.
  unfold bind at 1, delete_temp_file. unfold bind at 1.
  unfold local at 1, gets at 1. cbn [fst snd]. rewrite Ht.
  unfold bind at 1, lift at 1. cbn [fst snd].
  assert (Hgone : files (snd (delete_file (c :: p) w)) !! (c :: p) = None).
  { unfold delete_file. destruct (files w !! (c :: p)) eqn:Ef; cbn [snd].
    - apply lookup_delete_eq.
    - exact Ef. }
  assert (Hok : exists b, fst (delete_file (c :: p) w) = Ok b).
  { unfold delete_file. destruct (files w !! (c :: p)); eexists; reflexivity. }
  destruct Hok as [b Hok].
  destruct (delete_file (c :: p) w) as [r w1]. cbn [fst snd] in *. subst r.
  unfold ret. apply (Hk tt (fr, w1)). exact Hgone.
Qed.

(** The [finally] block removes the temporary file of the task. *)
Lemma worker_finally_deletes_temp_file (fr : frame) (w : world) (temp : str) :
  temp_file_path fr = Some temp -> temp <> [] ->
  files (snd (snd (worker_finally (fr, w)))) !! temp = None.
Proof.
  intros Ht Hne. unfold worker_finally.
  apply delete_temp_file_then; [exact Ht|exact Hne|]. intros _.
  repeat first
    [ apply (keeps_lift (still_gone temp)), task_done_still_gone
    | apply (keeps_lift (still_gone temp)), delete_file_still_gone
    | keeps_world_step (still_gone temp) (still_gone_refl temp)
        (still_gone_trans temp) ].
Qed.

(** The [finally] block leaves a file that is not the temporary one on
    disk when the entry of the job holds no image bytes. *)
Lemma worker_finally_keeps_file (fr : frame) (w : world) (p : str)
  (content : bytes) (e : entry) :
  files w !! p = Some content ->
  temp_file_path fr <> Some p ->
  results_dict w !! image_id fr = Some e ->
  e_image_data e = None ->
  files (snd (snd (worker_finally (fr, w)))) !! p = Some content.
Proof.
  intros Hp Ht He Hd.
  assert (Hdone : forall w2 : world, files w2 !! p = Some content ->
    files (snd (snd (lift task_done (fr, w2)))) !! p = Some content).
  { intros w2 H2. unfold lift, task_done. cbn [fst snd].
    destruct (unfinished_tasks w2 - 1 <? 0); exact H2. }
  assert (Hdel : exists w1,
    delete_temp_file (fr, w) = (Ok tt, (fr, w1))
    /\ files w1 !! p = Some content
    /\ results_dict w1 = results_dict w).
  { unfold delete_temp_file. unfold bind at 1. unfold local at 1, gets at 1.
    cbn [fst snd].
    destruct (temp_file_path fr) as [[|c t]|]; try (exists w; repeat split; exact Hp).
    unfold bind, lift, delete_file, ret. cbn [fst snd].
    destruct (files w !! (c :: t)); cbn [fst snd]; eexists;
      (split; [reflexivity|]); split; try reflexivity; try exact Hp.
    cbn. rewrite lookup_delete_ne; [exact Hp|]. congruence. }
  destruct Hdel as [w1 [Hdel [Hp1 Hr1]]].
  unfold worker_finally. unfold bind at 1. rewrite Hdel.
  unfold bind at 1. unfold local at 1, gets at 1.
  unfold bind at 1. unfold local at 1, gets at 1. cbn [fst snd].
  destruct (negb (in_memory fr) && CLEANUP_AFTER_PROCESSING).
  - unfold bind at 1. unfold bind at 1. unfold lift at 1, get_entry.
    cbn [fst snd]. rewrite Hr1, He. cbn [fst snd]. rewrite Hd.
    destruct (e_path e); unfold ret; apply Hdone, Hp1.
  - unfold bind at 1, ret. apply Hdone, Hp1.
Qed.

End WorkerFacts.

Section ExtractorFacts.
Context {E : Env}.

(** An exception of the model is returned by the extractor as text. *)
Lemma process_document_image_returns_error_text (files : gmap str bytes)
  (image_path : pathval) (document_type : str) (pixel_values : normalized)
  (e : exn) :
  preprocess_image files image_path 448 14 = Ok pixel_values ->
  chat pixel_values (prompt_of (system_instruction_for document_type)) 512
    = Raise e ->
  process_document_image files image_path document_type =
    lit "Error processing image: " ++ exn_str e.
Proof.
  intros Hpre Hchat. unfold process_document_image.
  rewrite Hpre, Hchat. reflexivity.
Qed.

End ExtractorFacts.

(** C1. A check is uploaded and the model raises on it: after the worker
    has run, the job has status completed, the text of the exception is
    its raw data and it has no error detail; a poll answers completed,
    with the text of the exception parsed as a field. *)
Theorem C1_model_exception_ends_completed :
  let w := snd (@background_processor_step Demo.failing (Demo.uploaded "check")) in
  Demo.status_of (Demo.uploaded "check") = Some processing
  /\ Demo.status_of w = Some completed
  /\ e_data <$> results_dict w !! Demo.job_id =
     Some (Some (lit "Error processing image: CUDA out of memory"))
  /\ e_error <$> results_dict w !! Demo.job_id = Some None
  /\ check_status (lit "check") Demo.job_id w =
     Ok (StatusCompleted
           [(lit "Error processing image", lit "CUDA out of memory")]).
Proof. cbv zeta. repeat split; vm_compute; reflexivity. Qed.

(** C8. A passport is uploaded and the model answers: the worker first
    stores status completed, then [process_extracted_data_by_type] raises
    on the unbound [extracted_data_dict] and the handler of the worker
    stores status error. The status goes from processing to completed to
    error, and a poll between the two sees the job completed. *)
Theorem C8_status_completed_then_error :
  let E := Demo.answering Demo.passport_answer in
  let w0 := Demo.uploaded "passport" in
  let w1 := snd (run_task worker_try w0) in
  let w2 := snd (background_processor_step w0) in
  Demo.status_of w0 = Some processing
  /\ fst (run_task worker_try w0) =
     Raise (UnboundLocalError (lit "extracted_data_dict"))
  /\ Demo.status_of w1 = Some completed
  /\ check_status (lit "passport") Demo.job_id w1 =
     Ok (StatusCompleted [(lit "Passport Number", lit "X123");
                          (lit "First Name", lit "Ada")])
  /\ Demo.status_of w2 = Some error
  /\ check_status (lit "passport") Demo.job_id w2 =
     Ok (StatusError (exn_str (UnboundLocalError (lit "extracted_data_dict")))).
Proof. cbv zeta. repeat split; vm_compute; reflexivity. Qed.

(** C9. A check whose file is on disk, and a model that cannot be loaded:
    [load_model] raises, the [finally] block deletes the uploaded file,
    the bytes being in the entry, and the handler of the worker then
    replaces the entry by one without the bytes. After the task the image
    is neither on disk nor in the result store. *)
Theorem C9_image_lost_after_failure :
  let E := Demo.unloadable in
  let w0 := Demo.uploaded_on_disk "check" in
  let w1 := snd (run_task worker_try w0) in
  let w2 := snd (background_processor_step w0) in
  files w0 !! Demo.job_path = Some Demo.small_image
  /\ e_image_data <$> results_dict w0 !! Demo.job_id =
     Some (Some Demo.small_image)
  /\ fst (run_task worker_try w0) =
     Raise (RuntimeError (lit "Error loading model: out of memory"))
  /\ files w1 !! Demo.job_path = None
  /\ e_image_data <$> results_dict w1 !! Demo.job_id =
     Some (Some Demo.small_image)
  /\ files w2 = ∅
  /\ e_image_data <$> results_dict w2 !! Demo.job_id = Some None.
Proof. cbv zeta. repeat split; vm_compute; reflexivity. Qed.

(** The same loss on a passport whose file is on disk and whose model
    answers: the exception is the unbound [extracted_data_dict]. *)
Example passport_image_lost :
  let E := Demo.answering Demo.passport_answer in
  let w2 := snd (background_processor_step (Demo.uploaded_on_disk "passport")) in
  files w2 = ∅
  /\ e_image_data <$> results_dict w2 !! Demo.job_id = Some None.
Proof. cbv zeta. split; vm_compute; reflexivity. Qed.

(** The handler of the worker counts the task as done a second time, after
    the [finally] block: with no other task unfinished, [task_done] raises
    inside the handler and the loop of the worker ends. *)
Example worker_loop_ends_after_failed_task :
  fst (@background_processor_step (Demo.answering Demo.passport_answer)
         (Demo.uploaded "passport"))
  = Raise (ValueError (lit "task_done() called too many times")).
Proof. vm_compute. reflexivity. Qed.

(* ===================================================================== *)
(** * Further properties of the code *)
(* ===================================================================== *)

(** ** The parser: order, trimming and line endings *)

Lemma dict_set_keys (k v : str) (d : dict) :
  List.map fst (dict_set k v d) =
  if bool_decide (k ∈ List.map fst d) then List.map fst d
  else List.map fst d ++ [k].
Proof.
  induction d as [|[a w] d IH]; cbn [dict_set List.map fst].
  - rewrite bool_decide_eq_false_2 by apply not_elem_of_nil. reflexivity.
  - destruct (str_eqb k a) eqn:Ea.
    + apply str_eqb_eq in Ea. subst a. cbn [List.map fst].
      rewrite bool_decide_eq_true_2 by apply list_elem_of_here. reflexivity.
    + assert (Hne : k <> a).
      { intros ->. rewrite str_eqb_refl in Ea. discriminate. }
      cbn [List.map fst]. rewrite IH.
      destruct (bool_decide (k ∈ List.map fst d)) eqn:Ek.
      * apply bool_decide_eq_true in Ek.
        rewrite bool_decide_eq_true_2 by (apply list_elem_of_further, Ek).
        reflexivity.
      * apply bool_decide_eq_false in Ek.
        rewrite bool_decide_eq_false_2; [reflexivity|].
        intros H. apply elem_of_cons in H as [H|H]; [exact (Hne H)|exact (Ek H)].
Qed.

Lemma first_occurrences_ext (s1 s2 labels : list str) :
  (forall x, x ∈ s1 <-> x ∈ s2) ->
  first_occurrences s1 labels = first_occurrences s2 labels.
Proof.
  revert s1 s2. induction labels as [|l rest IH]; intros s1 s2 H; [reflexivity|].
  cbn [first_occurrences].
  rewrite (bool_decide_ext (l ∈ s1) (l ∈ s2)) by apply H.
  destruct (bool_decide (l ∈ s2)).
  - apply IH, H.
  - f_equal. apply IH. intros x. rewrite !elem_of_cons, H. reflexivity.
Qed.

Lemma fold_dict_set_keys (ps : list (str * str)) (d : dict) :
  List.map fst (fold_left (fun d kv => dict_set (fst kv) (snd kv) d) ps d) =
  List.map fst d ++ first_occurrences (List.map fst d) (List.map fst ps).
Proof.
  revert d. induction ps as [|[l v] ps IH]; intros d;
    cbn [fold_left List.map fst snd first_occurrences].
  - rewrite app_nil_r. reflexivity.
  - rewrite IH, dict_set_keys.
    destruct (bool_decide (l ∈ List.map fst d)) eqn:El; [reflexivity|].
    rewrite <- app_assoc. cbn [app]. do 2 f_equal.
    apply first_occurrences_ext. intros x.
    rewrite elem_of_app, !elem_of_cons, elem_of_nil. tauto.
Qed.

Lemma first_occurrences_NoDup (seen labels : list str) :
  NoDup (first_occurrences seen labels)
  /\ forall x, x ∈ first_occurrences seen labels <-> x ∈ labels /\ x ∉ seen.
Proof.
  revert seen. induction labels as [|l rest IH]; intros seen;
    cbn [first_occurrences].
  - split; [constructor|]. intros x. split.
    + intros H. apply elem_of_nil in H. destruct H.
    + intros [H _]. apply elem_of_nil in H. destruct H.
  - destruct (bool_decide (l ∈ seen)) eqn:El.
    + apply bool_decide_eq_true in El. destruct (IH seen) as [Hn Hx].
      split; [exact Hn|]. intros x. rewrite Hx, elem_of_cons. split.
      * intros [H1 H2]. auto.
      * intros [[->|H1] H2]; [contradiction|auto].
    + apply bool_decide_eq_false in El. destruct (IH (l :: seen)) as [Hn Hx].
      split.
      * constructor; [|exact Hn]. rewrite Hx. intros [_ H]. apply H.
        apply list_elem_of_here.
      * intros x. rewrite !elem_of_cons, Hx, elem_of_cons. split.
        -- intros [->|[H1 H2]]; [auto|]. split; [auto|]. intros H. apply H2. auto.
        -- intros [[->|H1] H2]; [auto|].
           destruct (decide (x = l)) as [->|Hne]; [auto|].
           right. split; [exact H1|]. intros [H|H]; auto.
Qed.

(** X1. The labels of the parsed mapping are the labels of the lines with
    a colon, each once, in the order of their first line. *)
Theorem parser_keeps_first_occurrence_order (text document_type : str) :
  List.map fst (parse_extracted_text text document_type) =
    first_occurrences [] (List.map fst (ParserSpec.pairs text))
  /\ NoDup (List.map fst (parse_extracted_text text document_type)).
Proof.
  rewrite parse_as_pairs, fold_dict_set_keys. cbn [List.map app].
  split; [reflexivity|]. apply first_occurrences_NoDup.
Qed.

Lemma lstrip_incl (c : char) (s : str) : In c (lstrip s) -> In c s.
Proof.
  induction s as [|a s IH]; cbn [lstrip]; [tauto|].
  destruct (is_space a); [|tauto]. intros H. right. apply IH, H.
Qed.

Lemma rstrip_incl (c : char) (s : str) : In c (rstrip s) -> In c s.
Proof.
  induction s as [|a s IH]; cbn [rstrip]; [tauto|].
  destruct (rstrip s) as [|b r].
  - destruct (is_space a); cbn [In]; tauto.
  - intros [H|H]; [left; exact H|right; apply IH, H].
Qed.

Lemma strip_incl (c : char) (s : str) : In c (strip s) -> In c s.
Proof. intros H. apply lstrip_incl, rstrip_incl, H. Qed.

Lemma rstrip_idempotent (s : str) : rstrip (rstrip s) = rstrip s.
Proof.
  induction s as [|a s IH]; [reflexivity|]. cbn [rstrip].
  destruct (rstrip s) as [|b r] eqn:Er.
  - destruct (is_space a) eqn:Ea; [reflexivity|]. cbn [rstrip].
    rewrite Ea. reflexivity.
  - cbn [rstrip] in IH |- *. rewrite IH. reflexivity.
Qed.

Lemma lstrip_rstrip_head (a : char) (s : str) :
  is_space a = false -> lstrip (rstrip (a :: s)) = rstrip (a :: s).
Proof.
  intros Ha. cbn [rstrip]. destruct (rstrip s); rewrite ?Ha; cbn [lstrip];
    rewrite Ha; reflexivity.
Qed.

Lemma strip_idempotent (s : str) : strip (strip s) = strip s.
Proof.
  unfold strip.
  assert (H : lstrip (rstrip (lstrip s)) = rstrip (lstrip s)).
  { induction s as [|a s IH]; [reflexivity|]. cbn [lstrip].
    destruct (is_space a) eqn:Ea; [exact IH|].
    apply lstrip_rstrip_head, Ea. }
  rewrite H. apply rstrip_idempotent.
Qed.

Lemma split_no_separator (sep : char) (s line : str) :
  In line (split sep s) -> ~ In sep line.
Proof.
  revert line. induction s as [|c s IH]; intros line; cbn [split].
  - intros [<-|[]]. intros [].
  - destruct (N.eqb_spec c sep) as [->|Hne].
    + intros [<-|H]; [intros []|apply IH, H].
    + destruct (split sep s) as [|l ls].
      * intros [<-|[]]. intros [H|[]]. congruence.
      * intros [<-|H].
        -- intros [H|H]; [congruence|]. apply (IH l); [left; reflexivity|exact H].
        -- apply IH. right. exact H.
Qed.

Lemma split1_parts (sep : char) (s k v : str) :
  split1 sep s = Some (k, v) ->
  s = k ++ sep :: v /\ ~ In sep k.
Proof.
  revert k v. induction s as [|c s IH]; intros k v; cbn [split1];
    [discriminate|].
  destruct (N.eqb_spec c sep) as [->|Hne].
  - intros [= <- <-]. split; [reflexivity|intros []].
  - destruct (split1 sep s) as [[k' v']|]; [|discriminate].
    intros [= <- <-]. destruct (IH k' v' eq_refl) as [-> Hk].
    split; [reflexivity|]. intros [H|H]; [congruence|exact (Hk H)].
Qed.

Lemma labelled_clean (line : str) (kv : str * str) :
  ~ In NL line -> In kv (ParserSpec.labelled line) -> clean_field kv.
Proof.
  intros Hnl. unfold ParserSpec.labelled.
  destruct (split1 COLON line) as [[k v]|] eqn:Hs; [|intros []].
  intros [<-|[]]. destruct (split1_parts _ _ _ _ Hs) as [-> Hk].
  unfold clean_field. cbn [fst snd]. rewrite !strip_idempotent.
  repeat split.
  - intros H. apply Hk, strip_incl, H.
  - intros H. apply Hnl, in_or_app. left. apply strip_incl, H.
  - intros H. apply Hnl, in_or_app. right. right. apply strip_incl, H.
Qed.

Lemma dict_set_Forall (P : str * str -> Prop) (k v : str) (d : dict) :
  P (k, v) -> (forall w, P (k, w) -> P (k, v)) ->
  Forall P d -> Forall P (dict_set k v d).
Proof.
  intros Hkv _ Hd. induction Hd as [|[a w] d Ha Hd IH]; cbn [dict_set].
  - constructor; [exact Hkv|constructor].
  - destruct (str_eqb k a) eqn:Ea.
    + apply str_eqb_eq in Ea. subst a. constructor; [exact Hkv|exact Hd].
    + constructor; [exact Ha|exact IH].
Qed.

(** X2. Every label of the parsed mapping is trimmed and holds neither a
    colon nor a line feed; every value is trimmed and holds no line
    feed. *)
Theorem parser_fields_are_clean (text document_type : str) :
  Forall clean_field (parse_extracted_text text document_type).
Proof.
  rewrite parse_as_pairs.
  assert (Hp : Forall clean_field (ParserSpec.pairs text)).
  { apply List.Forall_forall. intros kv Hkv. unfold ParserSpec.pairs in Hkv.
    apply in_flat_map in Hkv as [line [Hl Hkv]].
    apply (labelled_clean line); [|exact Hkv].
    apply (split_no_separator NL text), Hl. }
  assert (Hgen : forall d, Forall clean_field d ->
    Forall clean_field
      (fold_left (fun d kv => dict_set (fst kv) (snd kv) d)
                 (ParserSpec.pairs text) d)).
  { induction Hp as [|[k v] ps Hkv Hps IH]; intros d Hd; cbn [fold_left fst snd].
    - exact Hd.
    - apply IH, dict_set_Forall; [exact Hkv|auto|exact Hd]. }
  apply Hgen. constructor.
Qed.

(** ** The parser and Windows line endings *)

Lemma pairs_crlf_gen (s p : str) :
  flat_map ParserSpec.labelled (prepend p (split NL (crlf s))) =
  flat_map ParserSpec.labelled (prepend p (split NL s)).
Proof.
  revert p. induction s as [|c s IH]; intros p; [reflexivity|].
  unfold crlf. cbn [flat_map]. fold (crlf s).
  destruct (N.eqb c NL) eqn:Ec.
  - apply N.eqb_eq in Ec. subst c.
    change (([13%N; NL] ++ crlf s)) with (13%N :: NL :: crlf s).
    rewrite (split_prepend 13%N) by reflexivity.
    change (split NL (NL :: crlf s)) with ([] :: split NL (crlf s)).
    change (split NL (NL :: s)) with ([] :: split NL s).
    cbn [prepend app flat_map].
    rewrite labelled_snoc_space by reflexivity.
    rewrite (app_nil_r p). f_equal.
    specialize (IH []).
    destruct (split_cons NL (crlf s)) as [l1 [r1 E1]].
    destruct (split_cons NL s) as [l2 [r2 E2]].
    rewrite E1, E2 in IH |- *. exact IH.
  - cbn [app]. rewrite !split_prepend by exact Ec.
    rewrite !prepend_prepend. apply IH.
Qed.

(** X3. Carriage returns before the line feeds change nothing: a text
    with Windows line endings parses to the mapping of the text with
    plain line feeds. *)
Theorem parser_ignores_carriage_returns (text document_type : str) :
  parse_extracted_text (crlf text) document_type =
  parse_extracted_text text document_type.
Proof.
  rewrite !parse_as_pairs. f_equal. unfold ParserSpec.pairs.
  pose proof (pairs_crlf_gen text []) as H.
  destruct (split_cons NL (crlf text)) as [l1 [r1 E1]].
  destruct (split_cons NL text) as [l2 [r2 E2]].
  rewrite E1, E2 in H |- *. exact H.
Qed.

(** ** The export renderer: shape of the tables and labels read *)

Lemma Forall_map_length {A} (f : A -> list str) (n : nat) (l : list A) :
  (forall a, length (f a) = n) ->
  Forall (fun row => length row = n) (List.map f l).
Proof.
  intros H. induction l as [|a l IH]; cbn [List.map]; constructor;
    [apply H|exact IH].
Qed.

(** X4. Every table the renderer builds is rectangular: whatever the
    document type and the results, each row has as many columns as the
    header (28 for a check, 18 for a passport, 8 for an invoice, 2
    otherwise). *)
Theorem csv_rows_rectangular `{E : Env} (all_results : list result)
  (document_type : option str) :
  exists (header : list str) (rows : list (list str)),
    csv_rows all_results document_type = header :: rows
    /\ length rows = length all_results
    /\ Forall (fun row => length row = length header) rows
    /\ length header =
       (if str_eqb (doc_type_or_unknown document_type) (lit "check") then 28
        else if str_eqb (doc_type_or_unknown document_type) (lit "passport")
        then 18
        else if str_eqb (doc_type_or_unknown document_type) (lit "invoice")
        then 8 else 2)%nat.
Proof.
  unfold csv_rows.
  destruct (str_eqb (doc_type_or_unknown document_type) (lit "check"));
    [|destruct (str_eqb (doc_type_or_unknown document_type) (lit "passport"));
      [|destruct (str_eqb (doc_type_or_unknown document_type) (lit "invoice"))]];
    eexists _, _; (split; [reflexivity|]);
    (split; [apply length_map|]);
    (split; [apply Forall_map_length; intros a; reflexivity|reflexivity]).
Qed.

Lemma dict_get_absent (k : str) (d : dict) :
  k ∉ List.map fst d -> dict_get k d = None.
Proof.
  induction d as [|[a v] d IH]; cbn [dict_get List.map fst]; [reflexivity|].
  intros H. rewrite str_eqb_neq.
  - apply IH. intros Hk. apply H, list_elem_of_further, Hk.
  - intros ->. apply H, list_elem_of_here.
Qed.

(** Every label of the mapping is one of [known]. *)
Lemma get_absent (d : dict) (k default : str) (known : list str) :
  forallb (fun kv => bool_decide (fst kv ∈ known)) d = true ->
  bool_decide (k ∈ known) = false ->
  get d k default = default.
Proof.
  intros Hd Hk. unfold get. rewrite dict_get_absent; [reflexivity|].
  intros H. apply bool_decide_eq_false in Hk. apply Hk.
  apply list_elem_of_fmap in H as [[l v] [-> H]].
  apply list_elem_of_In in H.
  rewrite forallb_forall in Hd. specialize (Hd _ H).
  apply bool_decide_eq_true in Hd. exact Hd.
Qed.

(** X5. The check row reads the labels Payor Name, Payor Address, Amount,
    Payee Name and Payee Address, which the check instruction does not
    ask for. For every mapping whose labels are those of the instruction,
    the row of 28 columns holds the file name, the bank name and the
    check number, and [Not found] in each of the 25 other columns,
    whatever the mapping holds for the payor, the payee, the amount and
    the addresses. *)
Theorem check_row_drops_template_fields (filename : str) (d : dict) :
  forallb (fun kv => bool_decide (fst kv ∈ template_labels check_instruction)) d
    = true ->
  extract_check_data filename (Fields d) =
    filename
      :: repeat (lit "Not found") 4
      ++ [get d (lit "Bank Name") (lit "Not found")]
      ++ repeat (lit "Not found") 16
      ++ [get d (lit "Check Number") (lit "Not found")]
      ++ repeat (lit "Not found") 5.
Proof.
  intros Hd. unfold extract_check_data.
  rewrite (get_absent d (lit "Payor Name") _ _ Hd) by (vm_compute; reflexivity).
  rewrite (get_absent d (lit "Payor Address") _ _ Hd) by (vm_compute; reflexivity).
  rewrite (get_absent d (lit "Amount") _ _ Hd) by (vm_compute; reflexivity).
  rewrite (get_absent d (lit "Payee Name") _ _ Hd) by (vm_compute; reflexivity).
  rewrite (get_absent d (lit "Payee Address") _ _ Hd) by (vm_compute; reflexivity).
  reflexivity.
Qed.

Lemma check_row_drops_template_fields_witness :
  extract_check_data (lit "scan.png")
    (Fields [(lit "Bank Name", lit "ABC Bank");
             (lit "1st Payor First Name", lit "Ada Lovelace");
             (lit "Check Amount", lit "1,123.56");
             (lit "Check Number", lit "1234")])
  = lit "scan.png"
      :: repeat (lit "Not found") 4 ++ [lit "ABC Bank"]
      ++ repeat (lit "Not found") 16 ++ [lit "1234"]
      ++ repeat (lit "Not found") 5.
Proof.
  apply (check_row_drops_template_fields (lit "scan.png")
           [(lit "Bank Name", lit "ABC Bank");
            (lit "1st Payor First Name", lit "Ada Lovelace");
            (lit "Check Amount", lit "1,123.56");
            (lit "Check Number", lit "1234")]).
  vm_compute. reflexivity.
Defined.

(** X6. The invoice row reads the labels Date, Vendor Name and Customer
    Name, which the invoice instruction does not ask for (it asks for
    Invoice Date, Vendor/Seller and Customer). For every mapping whose
    labels are those of the instruction, these three columns are [NA]. *)
Theorem invoice_row_drops_template_fields (filename : str) (d : dict) :
  forallb (fun kv => bool_decide (fst kv ∈ template_labels invoice_instruction)) d
    = true ->
  extract_invoice_data filename (Fields d) =
    [ filename;
      get d (lit "Invoice Number") (lit "NA");
      lit "NA";
      get d (lit "Due Date") (lit "NA");
      get d (lit "Total Amount") (lit "NA");
      lit "NA";
      lit "NA";
      get d (lit "Payment Terms") (lit "NA") ].
Proof.
  intros Hd. unfold extract_invoice_data, as_dict.
  rewrite (get_absent d (lit "Date") _ _ Hd) by (vm_compute; reflexivity).
  rewrite (get_absent d (lit "Vendor Name") _ _ Hd) by (vm_compute; reflexivity).
  rewrite (get_absent d (lit "Customer Name") _ _ Hd) by (vm_compute; reflexivity).
  reflexivity.
Qed.

Lemma invoice_row_drops_template_fields_witness :
  extract_invoice_data (lit "scan.png")
    (Fields [(lit "Invoice Number", lit "INV-7");
             (lit "Invoice Date", lit "2024-01-01");
             (lit "Vendor/Seller", lit "ACME");
             (lit "Customer", lit "Ada Lovelace");
             (lit "Total Amount", lit "12.00")])
  = [ lit "scan.png"; lit "INV-7"; lit "NA"; lit "NA"; lit "12.00";
      lit "NA"; lit "NA"; lit "NA" ].
Proof.
  apply (invoice_row_drops_template_fields (lit "scan.png")
           [(lit "Invoice Number", lit "INV-7");
            (lit "Invoice Date", lit "2024-01-01");
            (lit "Vendor/Seller", lit "ACME");
            (lit "Customer", lit "Ada Lovelace");
            (lit "Total Amount", lit "12.00")]).
  vm_compute. reflexivity.
Defined.

(** ** The parser inverts the format of the instructions *)

Lemma split_no_sep (sep : char) (s : str) :
  ~ In sep s -> split sep s = [s].
Proof.
  induction s as [|c s IH]; intros H; [reflexivity|]. cbn [split].
  destruct (N.eqb_spec c sep) as [->|Hne].
  - exfalso. apply H. left. reflexivity.
  - rewrite IH; [reflexivity|]. intros Hs. apply H. right. exact Hs.
Qed.

Lemma split_app_sep (sep : char) (p t : str) :
  ~ In sep p -> split sep (p ++ sep :: t) = p :: split sep t.
Proof.
  induction p as [|c p IH]; intros H; cbn [app split].
  - rewrite N.eqb_refl. reflexivity.
  - destruct (N.eqb_spec c sep) as [->|Hne].
    + exfalso. apply H. left. reflexivity.
    + rewrite IH; [reflexivity|]. intros Hs. apply H. right. exact Hs.
Qed.

Lemma split_join (lines : list str) :
  lines <> [] -> Forall (fun l => ~ In NL l) lines ->
  split NL (join [NL] lines) = lines.
Proof.
  intros Hne H. induction H as [|l ls Hl Hls IH]; [congruence|].
  destruct ls as [|l' ls'].
  - cbn [join]. apply split_no_sep, Hl.
  - change (join [NL] (l :: l' :: ls')) with (l ++ NL :: join [NL] (l' :: ls')).
    rewrite split_app_sep by exact Hl. rewrite IH by discriminate.
    reflexivity.
Qed.

Lemma split1_app_sep (sep : char) (k t : str) :
  ~ In sep k -> split1 sep (k ++ sep :: t) = Some (k, t).
Proof.
  induction k as [|c k IH]; intros H; cbn [app split1].
  - rewrite N.eqb_refl. reflexivity.
  - destruct (N.eqb_spec c sep) as [->|Hne].
    + exfalso. apply H. left. reflexivity.
    + rewrite IH; [reflexivity|]. intros Hs. apply H. right. exact Hs.
Qed.

Lemma labelled_rendered (kv : str * str) :
  clean_field kv ->
  ParserSpec.labelled (fst kv ++ lit ": " ++ snd kv) = [kv]
  /\ ~ In NL (fst kv ++ lit ": " ++ snd kv).
Proof.
  destruct kv as [k v]. unfold clean_field. cbn [fst snd].
  intros (Hk & Hv & Hc & Hkn & Hvn). split.
  - unfold ParserSpec.labelled.
    change (k ++ lit ": " ++ v) with (k ++ COLON :: 32%N :: v).
    rewrite split1_app_sep by exact Hc.
    rewrite (strip_cons_space 32%N v) by reflexivity.
    rewrite Hk, Hv. reflexivity.
  - intros H. apply in_app_or in H as [H|H]; [exact (Hkn H)|].
    change (lit ": " ++ v) with (COLON :: 32%N :: v) in H.
    destruct H as [H|[H|H]]; [discriminate|discriminate|exact (Hvn H)].
Qed.

Lemma fold_dict_set_fresh (ps d : dict) :
  NoDup (List.map fst (d ++ ps)) ->
  fold_left (fun d kv => dict_set (fst kv) (snd kv) d) ps d = d ++ ps.
Proof.
  revert d. induction ps as [|[k v] ps IH]; intros d H; cbn [fold_left fst snd].
  - rewrite app_nil_r. reflexivity.
  - assert (Hset : dict_set k v d = d ++ [(k, v)]).
    { assert (Hk : k ∉ List.map fst d).
      { rewrite map_app in H. cbn [List.map fst] in H.
        apply NoDup_app in H as (_ & H & _). intros Hin.
        apply (H k Hin). apply list_elem_of_here. }
      clear H IH. induction d as [|[a w] d IHd]; [reflexivity|].
      cbn [dict_set]. rewrite str_eqb_neq.
      - cbn [app]. f_equal. apply IHd. intros Hin.
        apply Hk. cbn [List.map fst]. apply list_elem_of_further, Hin.
      - intros ->. apply Hk. cbn [List.map fst]. apply list_elem_of_here. }
    rewrite Hset, IH.
    + rewrite <- app_assoc. reflexivity.
    + rewrite <- app_assoc. exact H.
Qed.

(** X7. The parser inverts the format [Label: value]: for every mapping
    with distinct labels whose labels and values are trimmed and free of
    line feeds, the labels free of colons, parsing its lines gives the
    mapping back, entry by entry and in order. *)
Theorem parser_inverts_render (fields : dict) (document_type : str) :
  Forall clean_field fields ->
  NoDup (List.map fst fields) ->
  parse_extracted_text (render_fields fields) document_type = fields.
Proof.
  intros Hclean Hnodup. rewrite parse_as_pairs.
  assert (Hpairs : ParserSpec.pairs (render_fields fields) = fields).
  { unfold ParserSpec.pairs, render_fields.
    destruct fields as [|kv fields]; [reflexivity|].
    rewrite split_join.
    - clear Hnodup. induction Hclean as [|x l Hx Hl IH]; [reflexivity|].
      change (flat_map ParserSpec.labelled
                (List.map (fun kv => fst kv ++ lit ": " ++ snd kv) (x :: l)))
        with (ParserSpec.labelled (fst x ++ lit ": " ++ snd x)
                ++ flat_map ParserSpec.labelled
                     (List.map (fun kv => fst kv ++ lit ": " ++ snd kv) l)).
      rewrite (proj1 (labelled_rendered x Hx)), IH. reflexivity.
    - discriminate.
    - clear Hnodup. induction Hclean as [|x l Hx Hl IH]; cbn [List.map];
        constructor; [apply labelled_rendered, Hx|exact IH]. }
  rewrite Hpairs. apply (fold_dict_set_fresh fields []). exact Hnodup.
Qed.

Lemma parser_inverts_render_witness :
  parse_extracted_text
    (render_fields [(lit "Bank Name", lit "ABC Bank");
                    (lit "Check Number", lit "1234")]) (lit "check")
  = [(lit "Bank Name", lit "ABC Bank"); (lit "Check Number", lit "1234")].
Proof.
  apply parser_inverts_render.
  - apply List.Forall_cons; [|apply List.Forall_cons; [|apply List.Forall_nil]];
      vm_compute; intuition discriminate.
  - apply (bool_decide_unpack _). vm_compute. exact I.
Defined.

(** ** Uploads, the image served and saves *)

Lemma put_results (t : task) (w : world) :
  results_dict (put t w) = results_dict w /\ files (put t w) = files w.
Proof. split; reflexivity. Qed.

Lemma upload_file_entry (document_type image_id : str) (file_data : bytes)
  (w : world) :
  results_dict (upload_file document_type image_id file_data w) !! image_id =
  Some (with_image_data file_data
          (with_path (PStr (UPLOAD_FOLDER ++ [SLASH] ++ image_id))
                     (entry_of processing))).
Proof.
  unfold upload_file.
  destruct ((Z.of_nat (length file_data) <? 1024 * 1024)
            && CLEANUP_AFTER_PROCESSING);
    cbn; apply lookup_insert_eq.
Qed.

(** X8. Upload and serving round-trip: after [upload_file], whether the
    file was kept in memory or written to disk, [serve_document_image]
    answers with the uploaded bytes, under the MIME type of the name, and
    a status poll answers processing. *)
Theorem upload_then_serve (document_type image_id : str) (file_data : bytes)
  (w : world) :
  let w' := upload_file document_type image_id file_data w in
  exists ext mimetype : str,
    get_file_extension (PStr (UPLOAD_FOLDER ++ [SLASH] ++ image_id)) w'
      = (Ok (ext, mimetype), w')
    /\ serve_document_image image_id w' = (Ok (ImageFile mimetype file_data), w')
    /\ check_status document_type image_id w' = Ok StatusProcessing.
Proof.
  cbv zeta.
  pose proof (upload_file_entry document_type image_id file_data w) as He.
  set (w' := upload_file document_type image_id file_data w) in *.
  set (p := UPLOAD_FOLDER ++ [SLASH] ++ image_id) in *.
  assert (Hext : exists ext mimetype : str,
    forall (S : Type) (s : S),
      get_file_extension (PStr p) s = (Ok (ext, mimetype), s)).
  { unfold get_file_extension.
    destruct (endswith (lower p) (lit ".jpg") || endswith (lower p) (lit ".jpeg"));
      [|destruct (endswith (lower p) (lit ".png"));
        [|destruct (endswith (lower p) (lit ".pdf"))]];
      eexists _, _; intros S s; reflexivity. }
  destruct Hext as [ext [mimetype Hext]].
  exists ext, mimetype. split; [apply Hext|]. split.
  - unfold serve_document_image, bind, gets. cbn [fst snd]. rewrite He.
    cbn [e_image_data with_image_data path_of e_path with_path].
    unfold ret at 1. rewrite Hext. reflexivity.
  - unfold check_status. rewrite He. reflexivity.
Qed.

(** ** Running statements *)

Lemma bind_ok {S A B} (m : M S A) (k : A -> M S B) (s s' : S) (a : A) :
  m s = (Ok a, s') -> bind m k s = k a s'.
Proof. intros H. unfold bind. rewrite H. reflexivity. Qed.

Lemma bind_raise {S A B} (m : M S A) (k : A -> M S B) (s s' : S) (e : exn) :
  m s = (Raise e, s') -> bind m k s = (Raise e, s').
Proof. intros H. unfold bind. rewrite H. reflexivity. Qed.

Lemma bind_continue {S A B} (m : M S A) (k : A -> M S B) (s s' : S) :
  m s = (Continue, s') -> bind m k s = (Continue, s').
Proof. intros H. unfold bind. rewrite H. reflexivity. Qed.

Lemma bind_gets {S A B} (f : S -> A) (k : A -> M S B) (s : S) :
  bind (gets f) k s = k (f s) s.
Proof. reflexivity. Qed.

Lemma bind_ret {S A B} (a : A) (k : A -> M S B) (s : S) :
  bind (ret a) k s = k a s.
Proof. reflexivity. Qed.

Lemma get_entry_ok (id : str) (w : world) (e : entry) :
  results_dict w !! id = Some e -> get_entry id w = (Ok e, w).
Proof. intros H. unfold get_entry. rewrite H. reflexivity. Qed.

Lemma get_entry_missing (id : str) (w : world) :
  results_dict w !! id = None -> get_entry id w = (Raise (KeyError id), w).
Proof. intros H. unfold get_entry. rewrite H. reflexivity. Qed.

Lemma set_field_ok (id : str) (f : entry -> entry) (w : world) (e : entry) :
  results_dict w !! id = Some e ->
  set_field id f w = (Ok tt, set_results (insert id (f e)) w).
Proof.
  intros H. unfold set_field. rewrite (bind_ok _ _ _ _ _ (get_entry_ok _ _ _ H)).
  reflexivity.
Qed.

Lemma lookup_set_results (id : str) (e : entry) (w : world) :
  results_dict (set_results (insert id e) w) !! id = Some e.
Proof. cbn [results_dict set_results]. apply lookup_insert_eq. Qed.

Lemma os_path_exists_str (p : str) (w : world) :
  os_path_exists (PStr p) w = (Ok (bool_decide (is_Some (files w !! p))), w).
Proof. reflexivity. Qed.

Lemma delete_file_present (p : str) (w : world) (b : bytes) :
  files w !! p = Some b ->
  delete_file p w = (Ok true, set_files (delete p) w).
Proof. intros H. unfold delete_file. rewrite H. reflexivity. Qed.

Lemma delete_file_absent (p : str) (w : world) :
  files w !! p = None -> delete_file p w = (Ok false, w).
Proof. intros H. unfold delete_file. rewrite H. reflexivity. Qed.

Section SaveEffect.
Context {E : Env}.

Lemma save_in_store_effect (id : str) (c : dict) (w : world) (e : entry) :
  results_dict w !! id = Some e ->
  match e_path e, e_image_data e with
  | Some (PStr p), None =>
      match files w !! p with
      | Some b =>
          results_dict (snd (save_in_store id c w)) =
            <[id := with_image_data b (saved_entry c e)]> (results_dict w)
          /\ files (snd (save_in_store id c w)) = delete p (files w)
      | None =>
          results_dict (snd (save_in_store id c w)) =
            <[id := saved_entry c e]> (results_dict w)
          /\ files (snd (save_in_store id c w)) = files w
      end
  | Some (PStr p), Some _ =>
      results_dict (snd (save_in_store id c w)) =
        <[id := saved_entry c e]> (results_dict w)
      /\ files (snd (save_in_store id c w)) = delete p (files w)
  | _, _ =>
      results_dict (snd (save_in_store id c w)) =
        <[id := saved_entry c e]> (results_dict w)
      /\ files (snd (save_in_store id c w)) = files w
  end.
Proof.
  intros He. unfold save_in_store. rewrite bind_gets, He.
  rewrite (bind_ok _ _ _ _ _ (set_field_ok _ _ _ _ He)).
  rewrite (bind_ok _ _ _ _ _ (get_entry_ok _ _ _ (lookup_set_results _ _ _))).
  assert (H2 : exists w2,
    (match e_parsed_data (with_is_saved true e) with
     | Some d => set_field id (with_parsed_data (update d c))
     | None => ret tt
     end) (set_results (insert id (with_is_saved true e)) w) = (Ok tt, w2)
    /\ results_dict w2 = <[id := saved_entry c e]> (results_dict w)
    /\ files w2 = files w).
  { unfold saved_entry. cbn [e_parsed_data with_is_saved].
    destruct (e_parsed_data e) as [d|].
    - rewrite (set_field_ok _ _ _ _ (lookup_set_results _ _ _)).
      eexists. split; [reflexivity|]. cbn [results_dict set_results files].
      rewrite insert_insert_eq. split; reflexivity.
    - eexists. split; [reflexivity|]. split; reflexivity. }
  destruct H2 as [w2 [H2 [Hr2 Hf2]]].
  rewrite (bind_ok _ _ _ _ _ H2).
  assert (He2 : results_dict w2 !! id = Some (saved_entry c e)).
  { rewrite Hr2. apply lookup_insert_eq. }
  rewrite (bind_ok _ _ _ _ _ (get_entry_ok _ _ _ He2)).
  assert (Hp : e_path (saved_entry c e) = e_path e).
  { unfold saved_entry. destruct (e_parsed_data e); reflexivity. }
  assert (Hi : e_image_data (saved_entry c e) = e_image_data e).
  { unfold saved_entry. destruct (e_parsed_data e); reflexivity. }
  rewrite Hp, Hi.
  destruct (e_path e) as [[p|b]|]; cbn [CLEANUP_AFTER_PROCESSING].
  - destruct (e_image_data e) as [b|].
    + rewrite (bind_ok _ _ _ _ _ (os_path_exists_str _ _)). rewrite Hf2.
      destruct (files w !! p) as [x|] eqn:Ef.
      * rewrite bool_decide_eq_true_2 by eauto. cbv beta iota.
        rewrite (bind_ok _ _ _ _ _
                   (delete_file_present p w2 x ltac:(rewrite Hf2; exact Ef))).
        cbn [ret snd results_dict files set_files]. rewrite Hr2, Hf2.
        split; reflexivity.
      * rewrite bool_decide_eq_false_2 by (intros [? ?]; discriminate).
        cbv beta iota. cbn [ret snd]. rewrite Hr2, Hf2, (delete_id _ _ Ef). split; reflexivity.
    + rewrite (bind_ok _ _ _ _ _ (os_path_exists_str _ _)). rewrite Hf2.
      destruct (files w !! p) as [x|] eqn:Ef.
      * rewrite bool_decide_eq_true_2 by eauto. cbv beta iota.
        rewrite bind_gets, Hf2, Ef.
        rewrite (bind_ok _ _ _ _ _ (set_field_ok _ _ _ _ He2)).
        rewrite (bind_ok _ _ _ _ _
                   (delete_file_present p
                      (set_results
                         (insert id (with_image_data x (saved_entry c e))) w2) x
                      ltac:(cbn [files set_results]; rewrite Hf2; exact Ef))).
        cbn [ret snd results_dict files set_files set_results].
        rewrite Hr2, Hf2, insert_insert_eq. split; reflexivity.
      * rewrite bool_decide_eq_false_2 by (intros [? ?]; discriminate).
        cbv beta iota. cbn [ret snd]. rewrite Hr2, Hf2. split; reflexivity.
  - assert (Hx : forall k : bool -> M world unit,
      snd (bind (os_path_exists (PBuf b)) k w2) = w2) by reflexivity.
    destruct (e_image_data e); rewrite Hx, Hr2, Hf2; split; reflexivity.
  - destruct (e_image_data e); cbn [ret snd]; rewrite Hr2, Hf2;
      split; reflexivity.
Qed.

End SaveEffect.

Lemma get_file_extension_state (p : pathval) {S1 S2} (s1 : S1) (s2 : S2) :
  fst (get_file_extension p s1) = fst (get_file_extension p s2).
Proof.
  destruct p as [p|b]; [|reflexivity]. unfold get_file_extension.
  destruct (endswith (lower p) (lit ".jpg") || endswith (lower p) (lit ".jpeg"));
    [|destruct (endswith (lower p) (lit ".png"));
      [|destruct (endswith (lower p) (lit ".pdf"))]]; reflexivity.
Qed.

Lemma get_file_extension_snd (p : pathval) {S} (s : S) :
  snd (get_file_extension p s) = s.
Proof.
  destruct p as [p|b]; [|reflexivity]. unfold get_file_extension.
  destruct (endswith (lower p) (lit ".jpg") || endswith (lower p) (lit ".jpeg"));
    [|destruct (endswith (lower p) (lit ".png"));
      [|destruct (endswith (lower p) (lit ".pdf"))]]; reflexivity.
Qed.

Lemma bind_get_file_extension {S} (p : pathval) (b : bytes) (s : S) :
  fst (bind (get_file_extension p)
            (fun ext => ret (ImageFile (snd ext) b)) s) = file_answer p b.
Proof.
  unfold bind, file_answer.
  rewrite (get_file_extension_state p tt s).
  destruct (get_file_extension p s) as [[ext|x|] s']; reflexivity.
Qed.

Lemma serve_memory (id : str) (w : world) (e : entry) (b : bytes) :
  results_dict w !! id = Some e -> e_image_data e = Some b ->
  fst (serve_document_image id w) =
  match e_path e with
  | Some p => file_answer p b
  | None => Raise (KeyError (lit "path"))
  end.
Proof.
  intros He Hb. unfold serve_document_image. rewrite bind_gets, He, Hb.
  unfold path_of. destruct (e_path e) as [p|]; [|reflexivity].
  rewrite bind_ret. apply bind_get_file_extension.
Qed.

Lemma serve_disk (id : str) (w : world) (e : entry) (p : str) :
  results_dict w !! id = Some e -> e_image_data e = None ->
  e_path e = Some (PStr p) ->
  fst (serve_document_image id w) =
  match files w !! p with
  | Some b => file_answer (PStr p) b
  | None => Ok ImageNotFound
  end.
Proof.
  intros He Hb Hp. unfold serve_document_image. rewrite bind_gets, He, Hb.
  unfold path_of. rewrite Hp, bind_ret.
  rewrite (bind_ok _ _ _ _ _ (os_path_exists_str _ _)).
  destruct (files w !! p) as [b|] eqn:Ef.
  - rewrite bool_decide_eq_true_2 by eauto. cbv beta iota.
    unfold bind, file_answer. rewrite (get_file_extension_state (PStr p) tt w).
    pose proof (get_file_extension_snd (PStr p) w) as Hs.
    destruct (get_file_extension (PStr p) w) as [[ext|x|] s']; try reflexivity.
    cbn [snd] in Hs. subst s'. unfold gets. cbn [fst snd]. rewrite Ef.
    reflexivity.
  - rewrite bool_decide_eq_false_2 by (intros [? ?]; discriminate).
    reflexivity.
Qed.

Section SaveServe.
Context {E : Env}.

Lemma save_in_store_unknown (id : str) (c : dict) (w : world) :
  results_dict w !! id = None -> save_in_store id c w = (Ok tt, w).
Proof. intros H. unfold save_in_store. rewrite bind_gets, H. reflexivity. Qed.

Lemma save_in_store_serve (id : str) (c : dict) (w : world) :
  fst (serve_document_image id (snd (save_in_store id c w))) =
  fst (serve_document_image id w).
Proof.
  destruct (results_dict w !! id) as [e|] eqn:He.
  2:{ rewrite save_in_store_unknown by exact He. reflexivity. }
  pose proof (save_in_store_effect id c w e He) as Heff.
  set (w' := snd (save_in_store id c w)) in *.
  assert (Hp : e_path (saved_entry c e) = e_path e).
  { unfold saved_entry. destruct (e_parsed_data e); reflexivity. }
  assert (Hi : e_image_data (saved_entry c e) = e_image_data e).
  { unfold saved_entry. destruct (e_parsed_data e); reflexivity. }
  destruct (e_image_data e) as [b|] eqn:Eb.
  - assert (He' : results_dict w' !! id = Some (saved_entry c e)).
    { destruct (e_path e) as [[p|x]|]; destruct Heff as [-> _];
        apply lookup_insert_eq. }
    rewrite (serve_memory id w' _ b He') by (rewrite Hi; reflexivity).
    rewrite (serve_memory id w e b He Eb), Hp. reflexivity.
  - destruct (e_path e) as [[p|x]|] eqn:Ep.
    + rewrite (serve_disk id w e p He Eb Ep).
      destruct (files w !! p) as [b|] eqn:Ef; destruct Heff as [Hr Hf].
      * assert (He' : results_dict w' !! id =
                      Some (with_image_data b (saved_entry c e))).
        { rewrite Hr. apply lookup_insert_eq. }
        rewrite (serve_memory id w' _ b He') by reflexivity.
        cbn [e_path with_image_data]. rewrite Hp. reflexivity.
      * assert (He' : results_dict w' !! id = Some (saved_entry c e)).
        { rewrite Hr. apply lookup_insert_eq. }
        rewrite (serve_disk id w' _ p He') by (rewrite ?Hi, ?Hp; reflexivity).
        rewrite Hf, Ef. reflexivity.
    + destruct Heff as [Hr Hf].
      assert (He' : results_dict w' !! id = Some (saved_entry c e)).
      { rewrite Hr. apply lookup_insert_eq. }
      unfold serve_document_image. rewrite !bind_gets, He, He', Hi, Eb.
      unfold path_of. rewrite Hp, Ep. reflexivity.
    + destruct Heff as [Hr Hf].
      assert (He' : results_dict w' !! id = Some (saved_entry c e)).
      { rewrite Hr. apply lookup_insert_eq. }
      unfold serve_document_image. rewrite !bind_gets, He, He', Hi, Eb.
      unfold path_of. rewrite Hp, Ep. reflexivity.
Qed.

End SaveServe.

Section SaveDocumentFacts.
Context {E : Env}.

Lemma save_document_state (r : save_request) (w : world) :
  let w' := snd (save_document (s_email r) (s_document_type r) (s_image_id r)
                               (s_data r) (s_verified r) w) in
  w' = w \/ w' = snd (save_in_store (s_image_id r) (s_data r) w).
Proof.
  cbv zeta. unfold save_document.
  destruct (s_image_id r) as [|c0 id]; [left; reflexivity|].
  destruct (s_data r) as [|kv c]; [left; reflexivity|].
  destruct (s_document_type r) as [[|t0 t]|]; try (left; reflexivity).
  right. destruct (save_in_store _ _ w) as [[u|x|] w'];
    repeat match goal with
           | |- context [if ?b then _ else _] => destruct b
           end; reflexivity.
Qed.

(** X9. A save never loses the image: whatever the request,
    [serve_document_image] answers for the saved job after
    [save_document] what it answered before. When the bytes were only on
    disk, they are read into the entry before the file is deleted. *)
Theorem save_keeps_image_servable (r : save_request) (w : world) :
  fst (serve_document_image (s_image_id r)
         (snd (save_document (s_email r) (s_document_type r) (s_image_id r)
                             (s_data r) (s_verified r) w))) =
  fst (serve_document_image (s_image_id r) w).
Proof.
  destruct (save_document_state r w) as [-> | ->]; [reflexivity|].
  apply save_in_store_serve.
Qed.

End SaveDocumentFacts.

Lemma last_value_absent (k : str) (c : dict) :
  k ∉ List.map fst c -> ParserSpec.last_value k c = None.
Proof.
  induction c as [|[l v] c IH]; cbn [ParserSpec.last_value List.map fst];
    [reflexivity|].
  intros H. rewrite IH.
  - rewrite str_eqb_neq; [reflexivity|]. intros ->. apply H, list_elem_of_here.
  - intros Hk. apply H, list_elem_of_further, Hk.
Qed.

Lemma last_value_NoDup (k : str) (c : dict) :
  NoDup (List.map fst c) -> ParserSpec.last_value k c = dict_get k c.
Proof.
  induction c as [|[l v] c IH]; cbn [ParserSpec.last_value dict_get List.map fst];
    [reflexivity|].
  intros H. apply NoDup_cons in H as [Hl Hc].
  destruct (str_eqb k l) eqn:Ek.
  - apply str_eqb_eq in Ek. subst l. rewrite last_value_absent by exact Hl.
    reflexivity.
  - rewrite (IH Hc). destruct (dict_get k c); reflexivity.
Qed.

Section SaveCorrections.
Context {E : Env}.

(** X10. [save_document] answers 400 exactly when the image id or the
    data is empty or the session has no document type, and then changes
    nothing; a save for an id the result store does not hold changes
    nothing either. *)
Theorem save_document_rejections (r : save_request) (w : world) :
  let answer := save_document (s_email r) (s_document_type r) (s_image_id r)
                              (s_data r) (s_verified r) w in
  (fst answer = 400 <->
     s_image_id r = [] \/ s_data r = [] \/ s_document_type r = None
     \/ s_document_type r = Some [])
  /\ (fst answer = 400 -> snd answer = w)
  /\ (results_dict w !! s_image_id r = None -> snd answer = w).
Proof.
  cbv zeta. unfold save_document.
  destruct (s_image_id r) as [|c0 id] eqn:Eid.
  { repeat split; auto. }
  destruct (s_data r) as [|kv c] eqn:Ec.
  { repeat split; auto. }
  destruct (s_document_type r) as [[|t0 t]|] eqn:Et.
  1,3: repeat split; auto.
  assert (Hcode : forall (o : outcome unit) (w' : world),
    fst (match o with
         | Ok _ =>
             if s_verified r
             then if save_document_data (s_email r) (t0 :: t) (kv :: c)
                  then (200, w') else (500, w')
             else (200, w')
         | _ => (500, w')
         end) <> 400).
  { intros [u|x|] w'; repeat match goal with
      | |- context [if ?b then _ else _] => destruct b end;
      cbn [fst]; lia. }
  split; [|split].
  - split.
    + intros H. destruct (save_in_store (c0 :: id) (kv :: c) w) as [o w'].
      exfalso. exact (Hcode o w' H).
    + intros [H|[H|[H|H]]]; discriminate.
  - intros H. destruct (save_in_store (c0 :: id) (kv :: c) w) as [o w'].
    exfalso. exact (Hcode o w' H).
  - intros H. rewrite (save_in_store_unknown _ _ _ H).
    repeat match goal with
      | |- context [if ?b then _ else _] => destruct b end; reflexivity.
Qed.

(** X11. A save writes the corrections into the parsed fields key by key:
    for a request with an image id, data with distinct labels and a
    document type in the session, on a job whose entry holds parsed
    fields, the entry is marked saved; a corrected label takes the
    corrected value, every other label keeps its value, the labels keep
    their order and new labels come last; status, raw text and error
    detail are as before. *)
Theorem save_applies_corrections (r : save_request) (w : world) (e : entry)
  (d : dict) :
  s_image_id r <> [] -> s_data r <> [] ->
  s_document_type r <> None -> s_document_type r <> Some [] ->
  NoDup (List.map fst (s_data r)) ->
  results_dict w !! s_image_id r = Some e ->
  e_parsed_data e = Some d ->
  exists (e' : entry) (d' : dict),
    results_dict
      (snd (save_document (s_email r) (s_document_type r) (s_image_id r)
                          (s_data r) (s_verified r) w)) !! s_image_id r
      = Some e'
    /\ e_is_saved e' = Some true
    /\ poll_view e' = poll_view e
    /\ e_parsed_data e' = Some d'
    /\ (forall k, dict_get k d' =
                  match dict_get k (s_data r) with
                  | Some v => Some v
                  | None => dict_get k d
                  end)
    /\ List.map fst d' =
       List.map fst d
         ++ first_occurrences (List.map fst d) (List.map fst (s_data r)).
Proof.
  intros Hid Hc Ht1 Ht2 Hnd He Hd.
  assert (Hw : snd (save_document (s_email r) (s_document_type r) (s_image_id r)
                                  (s_data r) (s_verified r) w)
               = snd (save_in_store (s_image_id r) (s_data r) w)).
  { unfold save_document.
    destruct (s_image_id r) as [|c0 id]; [congruence|].
    destruct (s_data r) as [|kv c]; [congruence|].
    destruct (s_document_type r) as [[|t0 t]|]; try congruence.
    destruct (save_in_store _ _ w) as [[u|x|] w'];
      repeat match goal with
             | |- context [if ?b then _ else _] => destruct b
             end; reflexivity. }
  rewrite Hw.
  pose proof (save_in_store_effect (s_image_id r) (s_data r) w e He) as Heff.
  assert (Hs : saved_entry (s_data r) e =
               with_parsed_data (update d (s_data r)) (with_is_saved true e)).
  { unfold saved_entry. rewrite Hd. reflexivity. }
  assert (Hfinal : exists e',
    results_dict (snd (save_in_store (s_image_id r) (s_data r) w))
      !! s_image_id r = Some e'
    /\ (e' = saved_entry (s_data r) e
        \/ exists b, e' = with_image_data b (saved_entry (s_data r) e))).
  { destruct (e_path e) as [[p|x]|]; [destruct (e_image_data e)| |];
      try (destruct Heff as [-> _]; eexists; split;
           [apply lookup_insert_eq|left; reflexivity]).
    destruct (files w !! p) as [b|]; destruct Heff as [-> _]; eexists;
      (split; [apply lookup_insert_eq|]); [right; eauto|left; reflexivity]. }
  destruct Hfinal as [e' [He' Hcase]].
  exists e', (update d (s_data r)).
  split; [exact He'|].
  assert (Hfields : e_is_saved e' = Some true /\ poll_view e' = poll_view e
                    /\ e_parsed_data e' = Some (update d (s_data r))).
  { destruct Hcase as [-> | [b ->]]; rewrite Hs; repeat split. }
  destruct Hfields as (H1 & H2 & H3).
  repeat split; try assumption.
  - intros k. unfold update. rewrite dict_get_fold, last_value_NoDup by exact Hnd.
    reflexivity.
  - unfold update. apply fold_dict_set_keys.
Qed.

End SaveCorrections.

Lemma save_applies_corrections_witness :
  exists e' : entry,
    results_dict (@save_all (Demo.answering Demo.check_answer)
                    [Demo.correction] Demo.check_done) !! Demo.job_id = Some e'
    /\ e_is_saved e' = Some true
    /\ e_parsed_data e' = Some [(lit "Bank Name", lit "XYZ Bank");
                                (lit "Check Number", lit "1234")].
Proof.
  destruct (@save_applies_corrections (Demo.answering Demo.check_answer)
              Demo.correction Demo.check_done
              (default (entry_of processing)
                 (results_dict Demo.check_done !! Demo.job_id))
              [(lit "Bank Name", lit "ABC Bank");
               (lit "Check Number", lit "1234")])
    as (e' & d' & H1 & H2 & _ & H4 & _).
  - vm_compute. discriminate.
  - vm_compute. discriminate.
  - discriminate.
  - vm_compute. discriminate.
  - apply (bool_decide_unpack _). vm_compute. exact I.
  - vm_compute. reflexivity.
  - vm_compute. reflexivity.
  - exists e'. split; [exact H1|]. split; [exact H2|].
    assert (He : results_dict (@save_all (Demo.answering Demo.check_answer)
                   [Demo.correction] Demo.check_done) !! Demo.job_id
                 = Some e') by exact H1.
    clear - He. vm_compute in He. injection He as <-. reflexivity.
Defined.

(** ** Uploads and the queue *)

Lemma upload_file_queue (document_type image_id : str) (file_data : bytes)
  (w : world) :
  let w' := upload_file document_type image_id file_data w in
  process_queue w' =
    process_queue w ++ [task_of_upload document_type image_id file_data]
  /\ unfinished_tasks w' = unfinished_tasks w + 1
  /\ model_loaded w' = model_loaded w
  /\ (Z.of_nat (length file_data) < 1024 * 1024 -> files w' = files w)
  /\ forall id, id <> image_id ->
       results_dict w' !! id = results_dict w !! id.
Proof.
  cbv zeta. unfold upload_file, task_of_upload.
  destruct (Z.ltb_spec (Z.of_nat (length file_data)) (1024 * 1024));
    cbn [andb CLEANUP_AFTER_PROCESSING]; repeat split; try lia;
    intros id Hid; cbn; apply lookup_insert_ne; congruence.
Qed.

Lemma upload_fold (t : str) (uploads : list upload) (w : world) :
  let w' := fold_left
              (fun w f =>
                 if allowed_file (u_filename f)
                 then upload_file t (upload_id f) (u_data f) w else w)
              uploads w in
  process_queue w' =
    process_queue w
      ++ List.map (fun f => task_of_upload t (upload_id f) (u_data f))
                  (taken uploads)
  /\ unfinished_tasks w' = unfinished_tasks w + Z.of_nat (length (taken uploads))
  /\ (Forall (fun f => Z.of_nat (length (u_data f)) < 1024 * 1024)
             (taken uploads) -> files w' = files w)
  /\ (forall id, id ∉ List.map upload_id (taken uploads) ->
        results_dict w' !! id = results_dict w !! id)
  /\ forall f, In f (taken uploads) ->
       exists e, results_dict w' !! upload_id f = Some e
                 /\ e_status e = processing
                 /\ e_path e = Some (PStr (UPLOAD_FOLDER ++ [SLASH] ++ upload_id f)).
Proof.
  cbv zeta. revert w. induction uploads as [|f uploads IH]; intros w.
  - cbn [fold_left taken List.filter List.map length app].
    rewrite app_nil_r. repeat split; try lia. intros f [].
  - cbn [fold_left]. unfold taken in *. cbn [List.filter].
    destruct (allowed_file (u_filename f)) eqn:Ea.
    + destruct (upload_file_queue t (upload_id f) (u_data f) w)
        as (Hq & Hu & _ & Hf & Ho).
      destruct (IH (upload_file t (upload_id f) (u_data f) w))
        as (IHq & IHu & IHf & IHo & IHe).
      cbn [List.map length]. split; [|split; [|split; [|split]]].
      * rewrite IHq, Hq, <- app_assoc. reflexivity.
      * rewrite IHu, Hu. lia.
      * intros H. apply List.Forall_cons_iff in H as [H1 H2].
        rewrite (IHf H2). apply Hf, H1.
      * intros id Hid. rewrite IHo.
        -- apply Ho. intros ->. apply Hid, list_elem_of_here.
        -- intros H. apply Hid, list_elem_of_further, H.
      * intros g [<-|Hg]; [|apply IHe, Hg].
        destruct (decide (upload_id f ∈
                    List.map upload_id
                      (List.filter (fun f => allowed_file (u_filename f)) uploads)))
          as [Hin|Hout].
        -- apply list_elem_of_fmap in Hin as [g [Hg1 Hg2]].
           apply list_elem_of_In in Hg2.
           destruct (IHe g Hg2) as [e He]. rewrite <- Hg1 in He.
           exists e. exact He.
        -- rewrite (IHo _ Hout), upload_file_entry. eexists.
           split; [reflexivity|]. split; reflexivity.
    + apply IH.
Qed.

Lemma upload_documents_accepted (document_type : option str)
  (uploads : list upload) (w w' : world) :
  upload_documents document_type uploads w = Some w' ->
  exists t : str,
    document_type = Some t
    /\ t ∈ [lit "passport"; lit "check"; lit "invoice"]
    /\ (1 <= length uploads <= 10)%nat
    /\ w' = fold_left
              (fun w f =>
                 if allowed_file (u_filename f)
                 then upload_file t (upload_id f) (u_data f) w else w)
              uploads w.
Proof.
  unfold upload_documents. intros H.
  destruct document_type as [[|c t]|]; try discriminate.
  destruct (bool_decide (c :: t ∈ [lit "passport"; lit "check"; lit "invoice"]))
    eqn:Et; cbn [negb] in H; [|discriminate].
  apply bool_decide_eq_true in Et.
  destruct uploads as [|first rest]; [discriminate|].
  destruct (u_filename first) eqn:Ename; [discriminate|].
  destruct (Nat.ltb_spec 10 (length (first :: rest))); [discriminate|].
  injection H as <-.
  exists (c :: t). split; [reflexivity|]. split; [exact Et|].
  split; [cbn [length] in *; lia|reflexivity].
Qed.

(** X12. A request that [upload_documents] accepts names one of the
    three document types and carries one to ten files; it puts one task
    per allowed file at the back of the queue, in the order of the files
    and with the document type of the request, counts each as unfinished,
    and leaves an entry with status processing under the id of each. *)
Theorem upload_documents_enqueues_in_order (document_type : option str)
  (uploads : list upload) (w w' : world) :
  upload_documents document_type uploads w = Some w' ->
  exists t : str,
    document_type = Some t
    /\ t ∈ [lit "passport"; lit "check"; lit "invoice"]
    /\ (1 <= length uploads <= 10)%nat
    /\ process_queue w' =
       process_queue w
         ++ List.map (fun f => task_of_upload t (upload_id f) (u_data f))
                     (taken uploads)
    /\ unfinished_tasks w' =
       unfinished_tasks w + Z.of_nat (length (taken uploads))
    /\ forall f, In f (taken uploads) ->
         exists e, results_dict w' !! upload_id f = Some e
                   /\ e_status e = processing.
Proof.
  intros H.
  destruct (upload_documents_accepted _ _ _ _ H) as (t & Hdt & Ht & Hn & ->).
  destruct (upload_fold t uploads w) as (Hq & Hu & _ & _ & He).
  exists t. repeat split; try assumption; try lia.
  intros f Hf. destruct (He f Hf) as [e [H1 [H2 _]]]. eauto.
Qed.

(** X13. Files below one mebibyte never reach the disk: when every
    allowed file of an accepted request is smaller, [upload_documents]
    leaves the files as they are and each new task carries its bytes. *)
Theorem upload_documents_small_files_in_memory (document_type : option str)
  (uploads : list upload) (w w' : world) :
  upload_documents document_type uploads w = Some w' ->
  Forall (fun f => Z.of_nat (length (u_data f)) < 1024 * 1024) (taken uploads) ->
  files w' = files w
  /\ Forall (fun t => t_in_memory t = true
                      /\ exists b, t_image_path t = PBuf b)
            (skipn (length (process_queue w)) (process_queue w')).
Proof.
  intros H Hsmall.
  destruct (upload_documents_accepted _ _ _ _ H) as (t & Hdt & Ht & Hn & ->).
  destruct (upload_fold t uploads w) as (Hq & _ & Hf & _).
  split; [apply Hf, Hsmall|].
  rewrite Hq, skipn_app, Nat.sub_diag, skipn_all, app_nil_l. cbn [skipn].
  clear - Hsmall. induction Hsmall as [|f l Hfl Hl IH]; cbn [List.map];
    constructor; [|exact IH].
  unfold task_of_upload.
  destruct (Z.ltb_spec (Z.of_nat (length (u_data f))) (1024 * 1024)); [|lia].
  cbn. eauto.
Qed.

Lemma upload_documents_enqueues_in_order_witness :
  process_queue (Demo.uploaded "check") =
    [ {| t_image_path := PBuf Demo.small_image;
         t_document_type := lit "check";
         t_image_id := Demo.job_id; t_in_memory := true |} ]
  /\ unfinished_tasks (Demo.uploaded "check") = 1.
Proof.
  destruct (upload_documents_enqueues_in_order (Some (lit "check"))
              Sample.request Demo.start (Demo.uploaded "check"))
    as (t & Ht & _ & _ & Hq & Hu & _).
  - vm_compute. reflexivity.
  - injection Ht as <-. rewrite Hq, Hu. split; vm_compute; reflexivity.
Defined.

Lemma upload_documents_small_files_in_memory_witness :
  files (Demo.uploaded "check") = ∅.
Proof.
  destruct (upload_documents_small_files_in_memory (Some (lit "check"))
              Sample.request Demo.start (Demo.uploaded "check"))
    as [Hf _].
  - vm_compute. reflexivity.
  - apply List.Forall_cons; [vm_compute; reflexivity|apply List.Forall_nil].
  - rewrite Hf. reflexivity.
Defined.

(** ** The worker: one pass, one job *)

(** ** Statements that do not end in [continue] *)

Lemma plain_ret {S A} (a : A) : plain (ret (S := S) a).
Proof. intros s. discriminate. Qed.

Lemma plain_raise {S A} (e : exn) : plain (raise (S := S) (A := A) e).
Proof. intros s. discriminate. Qed.

Lemma plain_gets {S A} (f : S -> A) : plain (gets f).
Proof. intros s. discriminate. Qed.

Lemma plain_modify {S} (f : S -> S) : plain (modify f).
Proof. intros s. discriminate. Qed.

Lemma plain_bind {S A B} (m : M S A) (k : A -> M S B) :
  plain m -> (forall a, plain (k a)) -> plain (bind m k).
Proof.
  intros Hm Hk s. unfold bind. specialize (Hm s).
  destruct (m s) as [[a|e|] s1]; cbn [fst] in *;
    [apply Hk|discriminate|congruence].
Qed.

Lemma plain_get_entry (id : str) : plain (get_entry id).
Proof.
  intros w. unfold get_entry. destruct (results_dict w !! id); discriminate.
Qed.

Lemma plain_set_entry (id : str) (e : entry) : plain (set_entry id e).
Proof. apply plain_modify. Qed.

Lemma plain_set_field (id : str) (f : entry -> entry) : plain (set_field id f).
Proof.
  apply plain_bind; [apply plain_get_entry|intros e; apply plain_set_entry].
Qed.

Lemma plain_task_done : plain task_done.
Proof.
  intros w. unfold task_done.
  destruct (unfinished_tasks w - 1 <? 0); discriminate.
Qed.

Lemma plain_delete_file (p : str) : plain (delete_file p).
Proof.
  intros w. unfold delete_file. destruct (files w !! p); discriminate.
Qed.

Lemma plain_os_path_exists (p : pathval) : plain (os_path_exists p).
Proof. destruct p; [apply plain_gets|apply plain_raise]. Qed.

Lemma plain_path_of {S} (e : entry) : plain (path_of (S := S) e).
Proof. unfold path_of. destruct (e_path e); [apply plain_ret|apply plain_raise]. Qed.

Lemma plain_os_path_basename {S} (p : pathval) :
  plain (os_path_basename (S := S) p).
Proof. destruct p; [apply plain_ret|apply plain_raise]. Qed.

Ltac plain_step :=
  first
    [ apply plain_ret | apply plain_raise | apply plain_gets
    | apply plain_modify | apply plain_get_entry | apply plain_set_entry
    | apply plain_set_field | apply plain_task_done | apply plain_delete_file
    | apply plain_os_path_exists | apply plain_path_of
    | apply plain_os_path_basename
    | apply plain_bind; [|intros ?]
    | match goal with
      | |- plain (match ?x with _ => _ end) => destruct x
      | |- plain (if ?x then _ else _) => destruct x
      | |- plain (let '(_, _) := ?x in _) => destruct x
      end ].

Section PlainWorker.
Context {E : Env}.

Lemma plain_load_model : plain load_model.
Proof.
  intros w. unfold load_model.
  destruct (model_loaded w); [discriminate|].
  destruct from_pretrained; discriminate.
Qed.

Lemma plain_process_extracted_data_by_type (id dt data : str) :
  plain (process_extracted_data_by_type id dt data).
Proof. unfold process_extracted_data_by_type. repeat plain_step. Qed.

End PlainWorker.

(** ** What a pass of the worker leaves alone *)

Lemma untouched_refl (j : str) (w : world) : untouched j w w.
Proof. split; [reflexivity|intros; reflexivity]. Qed.

Lemma untouched_trans (j : str) (w1 w2 w3 : world) :
  untouched j w1 w2 -> untouched j w2 w3 -> untouched j w1 w3.
Proof.
  intros [Hq1 Hr1] [Hq2 Hr2]. split; [congruence|].
  intros i Hi. rewrite Hr2, Hr1 by exact Hi. reflexivity.
Qed.

Lemma untouched_set_entry (j : str) (e : entry) :
  keeps (untouched j) (set_entry j e).
Proof.
  intros w. split; [reflexivity|]. intros i Hi. cbn.
  apply lookup_insert_ne. congruence.
Qed.

Lemma untouched_set_field (j : str) (f : entry -> entry) :
  keeps (untouched j) (set_field j f).
Proof.
  apply (keeps_bind (untouched j) (untouched_trans j)).
  - apply keeps_get_entry, untouched_refl.
  - intros e. apply untouched_set_entry.
Qed.

Lemma untouched_set_files (j : str) (f : gmap str bytes -> gmap str bytes) :
  keeps (untouched j) (modify (set_files f)).
Proof. intros w. split; [reflexivity|intros; reflexivity]. Qed.

Lemma untouched_task_done (j : str) : keeps (untouched j) task_done.
Proof.
  intros w. unfold task_done.
  destruct (unfinished_tasks w - 1 <? 0); apply untouched_refl ||
    (split; [reflexivity|intros; reflexivity]).
Qed.

Lemma untouched_delete_file (j p : str) : keeps (untouched j) (delete_file p).
Proof.
  intros w. unfold delete_file.
  destruct (files w !! p); split; intros; reflexivity.
Qed.

Ltac untouched_step j :=
  first
    [ apply keeps_ret, untouched_refl
    | apply keeps_raise, untouched_refl
    | apply keeps_gets, untouched_refl
    | apply keeps_get_entry, untouched_refl
    | apply keeps_os_path_exists, untouched_refl
    | apply untouched_set_entry
    | apply untouched_set_field
    | apply untouched_set_files
    | apply untouched_task_done
    | apply untouched_delete_file
    | apply (keeps_bind (untouched j) (untouched_trans j));
        [|intros ?]
    | match goal with
      | |- keeps _ (match ?x with _ => _ end) => destruct x
      | |- keeps _ (if ?x then _ else _) => destruct x
      | |- keeps _ (let '(_, _) := ?x in _) => destruct x
      end ].

Section UntouchedWorker.
Context {E : Env}.

Lemma untouched_load_model (j : str) : keeps (untouched j) load_model.
Proof.
  intros w. unfold load_model.
  destruct (model_loaded w); [apply untouched_refl|].
  destruct from_pretrained; split; intros; reflexivity.
Qed.

Lemma untouched_process_extracted_data_by_type (j dt data : str) :
  keeps (untouched j) (process_extracted_data_by_type j dt data).
Proof.
  unfold process_extracted_data_by_type, path_of, os_path_basename.
  repeat untouched_step j.
Qed.

End UntouchedWorker.

(** ** Statements of the worker on one job *)

Section RunsJob.
Context (j dt : str) (R : world -> world -> Prop) (C : world -> Prop).
Hypothesis R_refl : forall w, R w w.
Hypothesis R_trans : forall w1 w2 w3, R w1 w2 -> R w2 w3 -> R w1 w3.
Local Abbreviation runs := (runs_job j dt R C).

Lemma runs_ret {A} (a : A) : runs (ret a).
Proof. intros s Hs. repeat split; try apply Hs; [apply R_refl|discriminate]. Qed.

Lemma runs_raise {A} (e : exn) : runs (raise (A := A) e).
Proof. intros s Hs. repeat split; try apply Hs; [apply R_refl|discriminate]. Qed.

Lemma runs_continue {A} : (forall w, C w) -> runs (continue_ (A := A)).
Proof. intros HC s Hs. repeat split; try apply Hs; [apply R_refl|intros _; apply HC]. Qed.

Lemma runs_local {A} (f : frame -> A) : runs (local f).
Proof. intros s Hs. repeat split; try apply Hs; [apply R_refl|discriminate]. Qed.

Lemma runs_set_local (f : frame -> frame) :
  (forall fr, image_id (f fr) = image_id fr) ->
  (forall fr, document_type (f fr) = document_type fr) ->
  runs (set_local f).
Proof.
  intros Hi Hd [fr w] [H1 H2]. unfold set_local, modify, job_is in *.
  cbn [fst snd] in *.
  repeat split; [rewrite Hi; exact H1|rewrite Hd; exact H2|apply R_refl|discriminate].
Qed.

Lemma runs_lift {A} (m : M world A) : keeps R m -> plain m -> runs (lift m).
Proof.
  intros Hk Hp [fr w] Hs. unfold lift. cbn [fst snd] in *.
  specialize (Hk w). specialize (Hp w).
  destruct (m w) as [r w1]. cbn [fst snd] in *.
  repeat split; try apply Hs; [exact Hk|congruence].
Qed.

Lemma runs_bind {A B} (m : M (frame * world) A)
  (k : A -> M (frame * world) B) :
  runs m -> (forall a, runs (k a)) -> runs (bind m k).
Proof.
  intros Hm Hk s Hs. unfold bind. destruct (Hm s Hs) as [H1 [H2 H3]].
  destruct (m s) as [[a|e|] s1]; cbn [fst snd] in *.
  - destruct (Hk a s1 H1) as [K1 [K2 K3]]. repeat split; try apply K1.
    + eapply R_trans; eassumption.
    + exact K3.
  - repeat split; try apply H1; [exact H2|discriminate].
  - repeat split; try apply H1; [exact H2|intros _; apply H3; reflexivity].
Qed.

(** The statement that follows [image_id] being read is run on [j]. *)
Lemma runs_bind_image_id {B} (k : str -> M (frame * world) B) :
  runs (k j) -> runs (bind (local image_id) k).
Proof.
  intros Hk s Hs. unfold bind, local, gets. cbn [fst snd].
  destruct Hs as [Hj Hd]. rewrite Hj. apply Hk. split; assumption.
Qed.

Lemma runs_bind_document_type {B} (k : str -> M (frame * world) B) :
  runs (k dt) -> runs (bind (local document_type) k).
Proof.
  intros Hk s Hs. unfold bind, local, gets. cbn [fst snd].
  destruct Hs as [Hj Hd]. rewrite Hd. apply Hk. split; assumption.
Qed.

Lemma runs_try_except {A} (m : M (frame * world) A)
  (h : exn -> M (frame * world) A) :
  runs m -> (forall e, runs (h e)) -> runs (try_except m h).
Proof.
  intros Hm Hh s Hs. unfold try_except. destruct (Hm s Hs) as [H1 [H2 H3]].
  destruct (m s) as [[a|e|] s1]; cbn [fst snd] in *.
  - repeat split; try apply H1; [exact H2|discriminate].
  - destruct (Hh e s1 H1) as [K1 [K2 K3]]. repeat split; try apply K1.
    + eapply R_trans; eassumption.
    + exact K3.
  - repeat split; try apply H1; [exact H2|exact H3].
Qed.

Lemma runs_try_finally {A} (m : M (frame * world) A)
  (c : M (frame * world) unit) :
  (forall w, C w) -> runs m -> runs c -> runs (try_finally m c).
Proof.
  intros HC Hm Hc s Hs. unfold try_finally. destruct (Hm s Hs) as [H1 [H2 H3]].
  destruct (m s) as [r s1]. cbn [fst snd] in *.
  destruct (Hc s1 H1) as [K1 [K2 K3]].
  destruct (c s1) as [[u|e|] s2]; cbn [fst snd] in *;
    (repeat split; try apply K1; [eapply R_trans; eassumption|intros _; apply HC]).
Qed.

End RunsJob.

Ltac runs_step j dt R C Rrefl Rtrans world_step :=
  first
    [ apply (runs_ret j dt R C Rrefl)
    | apply (runs_raise j dt R C Rrefl)
    | apply (runs_local j dt R C Rrefl)
    | apply (runs_set_local j dt R C Rrefl); intros ?; reflexivity
    | apply (runs_lift j dt R C); [world_step|solve [repeat plain_step]]
    | apply (runs_bind_image_id j dt R C); cbv beta
    | apply (runs_bind_document_type j dt R C); cbv beta
    | apply (runs_bind j dt R C Rtrans); [|intros ?]
    | apply (runs_try_except j dt R C Rtrans); [|intros ?]
    | match goal with
      | |- runs_job _ _ _ _ (match ?x with _ => _ end) => destruct x
      | |- runs_job _ _ _ _ (if ?x then _ else _) => destruct x
      end ].

Section WorkerPass.
Context {E : Env}.

Ltac untouched_world j :=
  solve [ apply untouched_load_model
        | apply untouched_process_extracted_data_by_type
        | repeat untouched_step j ].

Ltac plain_world :=
  solve [ apply plain_load_model
        | apply plain_process_extracted_data_by_type
        | repeat plain_step ].

Ltac pass_step j dt :=
  first
    [ apply (runs_continue j dt (untouched j) (fun _ => True) (untouched_refl j));
        intros ?; exact I
    | apply (runs_try_finally j dt (untouched j) (fun _ => True)
               (untouched_trans j)); [intros ?; exact I| |]
    | apply (runs_lift j dt (untouched j) (fun _ => True));
        [untouched_world j|plain_world]
    | runs_step j dt (untouched j) (fun _ : world => True) (untouched_refl j)
        (untouched_trans j) ltac:(untouched_world j) ].

Lemma pass_untouched (j dt : str) :
  runs_job j dt (untouched j) (fun _ => True)
    (try_except worker_try worker_except).
Proof.
  unfold worker_try, worker_except, worker_body, worker_finally,
    delete_temp_file, resolve_source, extract_and_store, temp_file_failed,
    make_temp_file, write_file, getvalue, path_of, get_file_extension.
  repeat pass_step j dt.
Qed.

(** X14. One pass of the worker touches one job only: the queue loses
    exactly its head, so that a task is never put back or retried, and
    the entry of every job other than the one taken is left as it was,
    whatever the pass does and however it ends. *)
Theorem worker_pass_touches_one_job (w : world) :
  process_queue (snd (background_processor_step w)) = tl (process_queue w)
  /\ forall (t : task) (rest : list task) (i : str),
       process_queue w = t :: rest -> i <> t_image_id t ->
       results_dict (snd (background_processor_step w)) !! i =
       results_dict w !! i.
Proof.
  unfold background_processor_step, run_task.
  destruct (process_queue w) as [|t rest] eqn:Eq.
  - split; [exact Eq|]. intros; discriminate.
  - destruct (pass_untouched (t_image_id t) (t_document_type t)
                (frame_of t, set_queue rest (unfinished_tasks w) w))
      as [_ [[Hq Hr] _]]; [split; reflexivity|].
    destruct (try_except worker_try worker_except
                (frame_of t, set_queue rest (unfinished_tasks w) w))
      as [r [fr w']].
    cbn [fst snd] in *. split; [exact Hq|].
    intros t' rest' i Ht Hi. injection Ht as <- <-.
    rewrite Hr by exact Hi. reflexivity.
Qed.

End WorkerPass.

(** ** Jobs that are not checks *)

Lemma any_change_refl (w : world) : any_change w w.
Proof. exact I. Qed.

Lemma any_change_trans (w1 w2 w3 : world) :
  any_change w1 w2 -> any_change w2 w3 -> any_change w1 w3.
Proof. intros _ _. exact I. Qed.

Lemma any_change_keeps {A} (m : M world A) : keeps any_change m.
Proof. intros w. exact I. Qed.

Lemma failed_same_results (j : str) (w w' : world) :
  same_results w w' -> failed j w -> failed j w'.
Proof. unfold same_results, failed. intros ->. auto. Qed.

(** The two places where a pass gives up on its task before the model is
    run: the job is marked as failed first. *)
Lemma early_exit_fails (j dt : str) (msg : str) :
  runs_job j dt any_change (failed j)
    (let* _ := lift (set_field j (with_status error)) in
     let* _ := lift (set_field j (with_error msg)) in
     let* _ := lift task_done in
     continue_ (A := unit)).
Proof.
  intros [fr w] Hs.
  destruct (results_dict w !! j) as [e|] eqn:He.
  - pose proof (lookup_set_results j (with_status error e) w) as He1.
    unfold bind, lift. cbn [fst snd].
    rewrite (set_field_ok _ _ _ _ He). cbn [fst snd].
    rewrite (set_field_ok _ _ _ _ He1). cbn [fst snd].
    unfold task_done, continue_.
    match goal with
    | |- context [if ?b then _ else _] => destruct b
    end; cbn [fst snd];
      (repeat split; try apply Hs; try discriminate).
    intros _. unfold failed. cbn. rewrite lookup_insert_eq. reflexivity.
  - unfold bind, lift, set_field. cbn [fst snd].
    rewrite (bind_raise _ _ _ _ _ (get_entry_missing _ _ He)). cbn [fst snd].
    repeat split; try apply Hs. discriminate.
Qed.

Section NeverCompleted.
Context {E : Env}.

Ltac plain_world :=
  solve [ apply plain_load_model
        | apply plain_process_extracted_data_by_type
        | repeat plain_step ].

Ltac any_step j dt C :=
  first
    [ apply early_exit_fails
    | apply (runs_lift j dt any_change C);
        [apply any_change_keeps|plain_world]
    | runs_step j dt any_change C any_change_refl any_change_trans
        ltac:(apply any_change_keeps) ].

Lemma resolve_source_fails (j dt : str) :
  runs_job j dt any_change (failed j) resolve_source.
Proof.
  unfold resolve_source, temp_file_failed, make_temp_file, write_file,
    getvalue, path_of, get_file_extension.
  repeat any_step j dt (failed j).
Qed.

Lemma extract_and_store_goes_on (j dt : str) :
  runs_job j dt any_change nowhere extract_and_store.
Proof.
  unfold extract_and_store.
  repeat any_step j dt nowhere.
Qed.

Ltac same_results_world :=
  solve [ apply task_done_same_results
        | apply delete_file_same_results
        | repeat first
            [ apply keeps_get_entry, same_results_refl
            | apply keeps_os_path_exists, same_results_refl ] ].

Lemma worker_finally_goes_on (j dt : str) :
  runs_job j dt same_results nowhere worker_finally.
Proof.
  unfold worker_finally, delete_temp_file.
  repeat runs_step j dt same_results nowhere same_results_refl
    same_results_trans ltac:(same_results_world).
Qed.

(** For a document type other than check, the statements that run the
    model and store its answer never come to their end. *)
Lemma extract_and_store_never_ok (s : frame * world) (u : unit) :
  document_type (fst s) <> lit "check" ->
  fst (extract_and_store s) <> Ok u.
Proof.
  intros Hdt. destruct s as [fr w]. cbn [fst] in Hdt.
  unfold extract_and_store, bind, local, lift, gets, set_entry, modify.
  cbn [fst snd].
  destruct (load_model w) as [[u'|e|] w1]; cbn [fst snd]; try discriminate.
  match goal with
  | |- context [process_extracted_data_by_type ?i ?d ?x ?w2] =>
      destruct (process_extracted_data_unbound i d x w2
                  (default (entry_of processing) (results_dict w2 !! i)) Hdt)
        as [txt Hp]
  end.
  { cbn. rewrite lookup_insert_eq. reflexivity. }
  rewrite Hp. discriminate.
Qed.

Lemma worker_body_gave_up (j dt : str) (s : frame * world) :
  dt <> lit "check" -> job_is j dt s ->
  job_is j dt (snd (worker_body s)) /\ gave_up j (worker_body s).
Proof.
  intros Hdt Hs. unfold worker_body, bind, gave_up.
  destruct (resolve_source_fails j dt s Hs) as [H1 [_ H3]].
  destruct (resolve_source s) as [[u|e|] s1]; cbn [fst snd] in *.
  - destruct (extract_and_store_goes_on j dt s1 H1) as [K1 [_ K3]].
    split; [exact K1|]. left.
    assert (Hno := fun u => extract_and_store_never_ok s1 u).
    destruct (extract_and_store s1) as [[[]|e|] s2]; cbn [fst snd] in *.
    + exfalso. apply (Hno tt); [|reflexivity].
      destruct H1 as [_ ->]. exact Hdt.
    + eexists. reflexivity.
    + destruct K3. reflexivity.
  - split; [exact H1|]. left. eexists. reflexivity.
  - split; [exact H1|]. right. split; [reflexivity|]. apply H3. reflexivity.
Qed.

Lemma worker_try_gave_up (j dt : str) (s : frame * world) :
  dt <> lit "check" -> job_is j dt s ->
  job_is j dt (snd (worker_try s)) /\ gave_up j (worker_try s).
Proof.
  intros Hdt Hs. unfold worker_try, try_finally.
  destruct (worker_body_gave_up j dt s Hdt Hs) as [H1 H2].
  destruct (worker_body s) as [r s1]. cbn [fst snd] in *.
  destruct (worker_finally_goes_on j dt s1 H1) as [K1 [K2 K3]].
  destruct (worker_finally s1) as [[u|e|] s2]; cbn [fst snd] in *.
  - split; [exact K1|]. destruct H2 as [[e He]|[Hc Hf]]; cbn [fst snd] in *.
    + left. exists e. exact He.
    + right. split; [exact Hc|]. eapply failed_same_results; eassumption.
  - split; [exact K1|]. left. eexists. reflexivity.
  - destruct K3. reflexivity.
Qed.

(** X15. A job whose document type is not check never ends as completed:
    whatever the image, the model and the state of the store, the pass of
    the worker that takes the task leaves the job with status error. *)
Theorem worker_never_completes_other_types (w : world) (t : task)
  (rest : list task) :
  process_queue w = t :: rest ->
  t_document_type t <> lit "check" ->
  e_status <$> results_dict (snd (background_processor_step w)) !! t_image_id t
    = Some error.
Proof.
  intros Hq Hdt. unfold background_processor_step, run_task. rewrite Hq.
  set (s := (frame_of t, set_queue rest (unfinished_tasks w) w)).
  assert (Hs : job_is (t_image_id t) (t_document_type t) s) by (split; reflexivity).
  unfold try_except.
  destruct (worker_try_gave_up _ _ s Hdt Hs) as [[H1 _] H2].
  destruct (worker_try s) as [r [fr1 w1]]. cbn [fst snd] in *.
  destruct H2 as [[e He]|[Hc Hf]]; cbn [fst snd] in *; subst r.
  - pose proof (worker_except_entry e fr1 w1) as Hx.
    destruct (worker_except e (fr1, w1)) as [r2 [fr2 w2]].
    cbn [fst snd] in *. rewrite H1 in Hx. rewrite Hx. reflexivity.
  - exact Hf.
Qed.

End NeverCompleted.

Lemma worker_never_completes_other_types_witness :
  Demo.status_of
    (snd (@background_processor_step (Demo.answering Demo.passport_answer)
            (Demo.uploaded "invoice")))
  = Some error.
Proof.
  apply (@worker_never_completes_other_types
           (Demo.answering Demo.passport_answer) (Demo.uploaded "invoice")
           {| t_image_path := PBuf Demo.small_image;
              t_document_type := lit "invoice";
              t_image_id := Demo.job_id; t_in_memory := true |} []).
  - vm_compute. reflexivity.
  - vm_compute. discriminate.
Defined.

(** ** A check kept in memory, from the queue to the store *)

Lemma bind_local {A B} (f : frame -> A) (k : A -> M (frame * world) B)
  (s : frame * world) :
  bind (local f) k s = k (f (fst s)) s.
Proof. reflexivity. Qed.

Lemma bind_set_local {B} (f : frame -> frame)
  (k : unit -> M (frame * world) B) (s : frame * world) :
  bind (set_local f) k s = k tt (f (fst s), snd s).
Proof. reflexivity. Qed.

Lemma lift_ok {A} (m : M world A) (fr : frame) (w w' : world) (a : A) :
  m w = (Ok a, w') -> lift m (fr, w) = (Ok a, (fr, w')).
Proof. intros H. unfold lift. cbn [fst snd]. rewrite H. reflexivity. Qed.

Lemma bind_lift_gets {A B} (f : world -> A) (k : A -> M (frame * world) B)
  (fr : frame) (w : world) :
  bind (lift (gets f)) k (fr, w) = k (f w) (fr, w).
Proof. reflexivity. Qed.

Lemma lift_raise {A} (m : M world A) (fr : frame) (w w' : world) (e : exn) :
  m w = (Raise e, w') -> lift m (fr, w) = (Raise e, (fr, w')).
Proof. intros H. unfold lift. cbn [fst snd]. rewrite H. reflexivity. Qed.

Lemma get_file_extension_ok (q : str) (ext : str * str) {S} (s : S) :
  fst (get_file_extension (PStr q) tt) = Ok ext ->
  get_file_extension (PStr q) s = (Ok ext, s).
Proof.
  intros H. rewrite (get_file_extension_state (PStr q) tt s) in H.
  pose proof (get_file_extension_snd (PStr q) s) as Hs.
  destruct (get_file_extension (PStr q) s) as [r s']. cbn [fst snd] in *.
  congruence.
Qed.

Lemma parse_as_worker (text dt : str) :
  fold_left store_line (split NL (strip text)) [] = parse_extracted_text text dt.
Proof. destruct text; reflexivity. Qed.

Section CheckPass.
Context {E : Env}.

Lemma resolve_source_in_memory (fr : frame) (w : world) (e : entry)
  (q : str) (b : bytes) (ext : str * str) :
  in_memory fr = true ->
  image_path fr = PBuf b ->
  results_dict w !! image_id fr = Some e ->
  e_path e = Some (PStr q) ->
  fst (get_file_extension (PStr q) tt) = Ok ext ->
  write_error (mkstemp (fst ext) (files w)) b = None ->
  resolve_source (fr, w) =
    (Ok tt,
     (set_image_path (PStr (mkstemp (fst ext) (files w)))
        (set_temp_file_path (mkstemp (fst ext) (files w)) fr),
      set_files (insert (mkstemp (fst ext) (files w)) b)
        (set_files (insert (mkstemp (fst ext) (files w)) []) w))).
Proof.
  intros Hmem Hsrc He Hp Hext Hw. unfold resolve_source.
  rewrite !bind_local. cbn [fst]. rewrite Hmem.
  rewrite (bind_ok _ _ _ _ _ (lift_ok _ _ _ _ _ (get_entry_ok _ _ _ He))).
  unfold path_of. rewrite Hp, bind_ret.
  rewrite (bind_ok _ _ _ _ _ (get_file_extension_ok q ext (fr, w) Hext)).
  assert (Ht : make_temp_file (fst ext) (fr, w) =
    (Ok (mkstemp (fst ext) (files w)),
     (set_temp_file_path (mkstemp (fst ext) (files w)) fr,
      set_files (insert (mkstemp (fst ext) (files w)) []) w))) by reflexivity.
  rewrite (bind_ok _ _ _ _ _ Ht).
  unfold try_except. rewrite bind_local. cbn [fst image_path set_temp_file_path].
  rewrite Hsrc. unfold getvalue. rewrite bind_ret.
  unfold write_file. rewrite Hw.
  reflexivity.
Qed.

Lemma load_model_ok (w : world) :
  model_loaded w = true \/ from_pretrained = None ->
  exists w', load_model w = (Ok tt, w')
    /\ results_dict w' = results_dict w /\ files w' = files w
    /\ process_queue w' = process_queue w
    /\ unfinished_tasks w' = unfinished_tasks w /\ model_loaded w' = true.
Proof.
  intros H. unfold load_model. destruct (model_loaded w) eqn:Em.
  - exists w. repeat split. exact Em.
  - destruct H as [H|H]; [discriminate|]. rewrite H.
    eexists. repeat split.
Qed.

Lemma process_check_data (id data : str) (w : world) (e : entry) (q : str) :
  results_dict w !! id = Some e ->
  e_path e = Some (PStr q) ->
  process_extracted_data_by_type id (lit "check") data w =
    (Ok tt,
     set_results
       (insert id
          (let d := parse_extracted_text data (lit "check") in
           with_csv_content
             (convert_to_csv_content
                [ {| filename := basename q; extraction_data := Fields d |} ]
                (Some (lit "check")))
             (with_parsed_data d
                (with_txt_content (check_txt_content (basename q) d) e)))) w).
Proof.
  intros He Hp. unfold process_extracted_data_by_type.
  replace (str_eqb (lit "check") (lit "check")) with true by reflexivity.
  cbv beta iota zeta.
  rewrite (parse_as_worker data (lit "check")).
  match goal with
  | |- bind ?inner _ _ = _ =>
      assert (Hb : inner w =
        (Ok (check_txt_content (basename q)
               (parse_extracted_text data (lit "check")),
             Some (parse_extracted_text data (lit "check"))), w))
  end.
  { rewrite (bind_ok _ _ _ _ _ (get_entry_ok _ _ _ He)).
    unfold path_of. rewrite Hp, bind_ret. reflexivity. }
  rewrite (bind_ok _ _ _ _ _ Hb). cbv beta iota.
  rewrite (bind_ok _ _ _ _ _ (set_field_ok _ _ _ _ He)).
  rewrite (bind_ok _ _ _ _ _ (set_field_ok _ _ _ _ (lookup_set_results _ _ _))).
  rewrite (bind_ok _ _ _ _ _ (get_entry_ok _ _ _ (lookup_set_results _ _ _))).
  unfold path_of. cbn [e_path with_parsed_data with_txt_content].
  rewrite Hp, bind_ret. unfold os_path_basename. rewrite bind_ret.
  rewrite (set_field_ok _ _ _ _ (lookup_set_results _ _ _)).
  unfold set_results. cbn [results_dict files process_queue unfinished_tasks
    model_loaded]. rewrite !insert_insert_eq. reflexivity.
Qed.

Lemma extract_and_store_check (fr : frame) (w : world) (e : entry) (q : str) :
  document_type fr = lit "check" ->
  results_dict w !! image_id fr = Some e ->
  e_path e = Some (PStr q) ->
  model_loaded w = true \/ from_pretrained = None ->
  exists w',
    extract_and_store (fr, w) = (Ok tt, (fr, w'))
    /\ results_dict w' =
       <[image_id fr :=
           completed_check q
             (process_document_image (files w) (image_path fr) (lit "check"))
             e]> (results_dict w)
    /\ files w' = files w /\ process_queue w' = process_queue w
    /\ unfinished_tasks w' = unfinished_tasks w /\ model_loaded w' = true.
Proof.
  intros Hdt He Hp Hload.
  destruct (load_model_ok w Hload) as [w1 [Hl [Hr [Hf [Hq [Hu Hm]]]]]].
  unfold extract_and_store. rewrite !bind_local. cbn [fst]. rewrite Hdt.
  rewrite (bind_ok _ _ _ _ _ (lift_ok _ _ _ _ _ Hl)).
  rewrite bind_local. cbn [fst].
  rewrite !bind_lift_gets.
  rewrite Hr, He, Hf. cbv beta iota. rewrite Hp.
  match goal with
  | |- context [set_entry ?i ?x] =>
      rewrite (bind_ok _ _ _ _ _
                 (lift_ok (set_entry i x) fr w1 _ tt eq_refl))
  end.
  match goal with
  | |- context [lift (process_extracted_data_by_type ?i ?d ?x) (_, ?w2)] =>
      pose proof (process_check_data i x w2 _ q (lookup_set_results _ _ _)
                    eq_refl) as Hx
  end.
  rewrite (lift_ok _ _ _ _ _ Hx).
  eexists. split; [reflexivity|].
  cbn [results_dict files process_queue unfinished_tasks model_loaded
       set_results].
  rewrite insert_insert_eq, Hr. repeat split; assumption.
Qed.

Lemma worker_finally_in_memory (fr : frame) (w : world) (temp : str) :
  temp_file_path fr = Some temp -> temp <> [] -> in_memory fr = true ->
  1 <= unfinished_tasks w ->
  exists w',
    worker_finally (fr, w) = (Ok tt, (fr, w'))
    /\ results_dict w' = results_dict w
    /\ files w' = delete temp (files w)
    /\ process_queue w' = process_queue w
    /\ unfinished_tasks w' = unfinished_tasks w - 1
    /\ model_loaded w' = model_loaded w.
Proof.
  intros Ht Hne Hmem Hu.
  assert (Hd : exists w1, delete_temp_file (fr, w) = (Ok tt, (fr, w1))
            /\ results_dict w1 = results_dict w
            /\ files w1 = delete temp (files w)
            /\ process_queue w1 = process_queue w
            /\ unfinished_tasks w1 = unfinished_tasks w
            /\ model_loaded w1 = model_loaded w).
  { unfold delete_temp_file. rewrite bind_local. cbn [fst]. rewrite Ht.
    destruct temp as [|c p]; [congruence|].
    destruct (files w !! (c :: p)) as [x|] eqn:Ef.
    - rewrite (bind_ok _ _ _ _ _
                 (lift_ok _ _ _ _ _ (delete_file_present _ _ _ Ef))).
      eexists. split; [reflexivity|]. repeat split.
    - rewrite (bind_ok _ _ _ _ _
                 (lift_ok _ _ _ _ _ (delete_file_absent _ _ Ef))).
      eexists. split; [reflexivity|]. rewrite (delete_id _ _ Ef).
      repeat split. }
  destruct Hd as [w1 [Hd [Hr [Hf [Hq [Hu1 Hm]]]]]].
  unfold worker_finally. rewrite (bind_ok _ _ _ _ _ Hd).
  rewrite !bind_local. cbn [fst]. rewrite Hmem. cbn [negb andb].
  rewrite bind_ret. unfold lift, task_done. cbn [fst snd].
  replace (unfinished_tasks w1 - 1 <? 0) with false
    by (symmetry; apply Z.ltb_ge; lia).
  eexists. split; [reflexivity|].
  cbn [results_dict files process_queue unfinished_tasks model_loaded set_queue].
  rewrite Hu1. repeat split; assumption.
Qed.

End CheckPass.

Section CheckPassTheorem.
Context {E : Env}.

(** The pass on a check kept in memory when its task is counted. *)
Lemma check_pass_in_memory (w : world) (id q : str) (b : bytes)
  (rest : list task) (e : entry) (ext : str * str) :
  process_queue w =
    {| t_image_path := PBuf b; t_document_type := lit "check";
       t_image_id := id; t_in_memory := true |} :: rest ->
  results_dict w !! id = Some e ->
  e_path e = Some (PStr q) ->
  fst (get_file_extension (PStr q) tt) = Ok ext ->
  mkstemp (fst ext) (files w) <> [] ->
  write_error (mkstemp (fst ext) (files w)) b = None ->
  model_loaded w = true \/ from_pretrained = None ->
  1 <= unfinished_tasks w ->
  let temp := mkstemp (fst ext) (files w) in
  let text :=
    process_document_image (<[temp := b]> (files w)) (PStr temp) (lit "check") in
  exists w' : world,
    background_processor_step w = (Ok tt, w')
    /\ results_dict w' = <[id := completed_check q text e]> (results_dict w)
    /\ files w' = delete temp (files w)
    /\ process_queue w' = rest
    /\ unfinished_tasks w' = unfinished_tasks w - 1
    /\ model_loaded w' = true
    /\ check_status (lit "check") id w' =
       Ok (StatusCompleted (parse_extracted_text text (lit "check"))).
Proof.
  intros Hq He Hp Hext Hne Hw Hload Hu temp text.
  unfold background_processor_step, run_task. rewrite Hq.
  set (t := {| t_image_path := PBuf b; t_document_type := lit "check";
               t_image_id := id; t_in_memory := true |}).
  set (w0 := set_queue rest (unfinished_tasks w) w).
  pose proof (resolve_source_in_memory (frame_of t) w0 e q b ext
                eq_refl eq_refl He Hp Hext Hw) as H1.
  change (mkstemp (fst ext) (files w0)) with temp in H1.
  set (fr1 := set_image_path (PStr temp) (set_temp_file_path temp (frame_of t)))
    in H1.
  set (w1 := set_files (insert temp b) (set_files (insert temp []) w0)) in H1.
  destruct (extract_and_store_check fr1 w1 e q eq_refl He Hp Hload)
    as [w2 [H2 [Hr2 [Hf2 [Hq2 [Hu2 Hm2]]]]]].
  destruct (worker_finally_in_memory fr1 w2 temp eq_refl Hne eq_refl
              ltac:(rewrite Hu2; exact Hu))
    as [w3 [H3 [Hr3 [Hf3 [Hq3 [Hu3 Hm3]]]]]].
  assert (Htext : process_document_image (files w1) (image_path fr1)
                    (lit "check") = text).
  { unfold text, w1, fr1. cbn [files set_files image_path set_image_path].
    rewrite insert_insert_eq. reflexivity. }
  rewrite Htext in Hr2.
  change (image_id fr1) with id in Hr2.
  change (results_dict w1) with (results_dict w) in Hr2.
  unfold try_except, worker_try, try_finally, worker_body.
  rewrite (bind_ok _ _ _ _ _ H1), H2, H3.
  exists w3. split; [reflexivity|].
  unfold check_status.
  rewrite Hr3, Hr2, Hf3, Hf2, Hq3, Hq2, Hu3, Hu2, Hm3, lookup_insert_eq.
  unfold w1. cbn [files set_files].
  rewrite !delete_insert_eq.
  repeat split; try reflexivity. exact Hm2.
Qed.

Lemma resolve_source_on_disk (fr : frame) (w : world) (p : str)
  (content : bytes) :
  in_memory fr = false ->
  image_path fr = PStr p ->
  files w !! p = Some content ->
  resolve_source (fr, w) = (Ok tt, (fr, w)).
Proof.
  intros Hmem Hsrc Hf. unfold resolve_source.
  rewrite !bind_local. cbn [fst]. rewrite Hmem.
  rewrite bind_local. cbn [fst]. rewrite Hsrc.
  rewrite (bind_ok _ _ _ _ _ (lift_ok _ _ _ _ _ (os_path_exists_str _ _))).
  rewrite Hf. rewrite bool_decide_eq_true_2 by eauto. reflexivity.
Qed.

Lemma worker_finally_on_disk (fr : frame) (w : world) (e : entry) (q : str) :
  temp_file_path fr = None -> in_memory fr = false ->
  results_dict w !! image_id fr = Some e ->
  e_path e = Some (PStr q) ->
  1 <= unfinished_tasks w ->
  exists w',
    worker_finally (fr, w) = (Ok tt, (fr, w'))
    /\ results_dict w' = results_dict w
    /\ files w' = match e_image_data e with
                  | Some _ => delete q (files w)
                  | None => files w
                  end
    /\ process_queue w' = process_queue w
    /\ unfinished_tasks w' = unfinished_tasks w - 1
    /\ model_loaded w' = model_loaded w.
Proof.
  intros Ht Hmem He Hp Hu.
  assert (Hd : exists w1,
    (let* e := lift (get_entry (image_id fr)) in
     match e_path e with
     | Some original_path =>
         match e_image_data e with
         | Some _ =>
             let* present := lift (os_path_exists original_path) in
             if present then
               match original_path with
               | PStr p => let* _ := lift (delete_file p) in ret tt
               | PBuf _ => ret tt
               end
             else ret tt
         | None => ret tt
         end
     | None => ret tt
     end) (fr, w) = (Ok tt, (fr, w1))
    /\ results_dict w1 = results_dict w
    /\ files w1 = match e_image_data e with
                  | Some _ => delete q (files w)
                  | None => files w
                  end
    /\ process_queue w1 = process_queue w
    /\ unfinished_tasks w1 = unfinished_tasks w
    /\ model_loaded w1 = model_loaded w).
  { rewrite (bind_ok _ _ _ _ _ (lift_ok _ _ _ _ _ (get_entry_ok _ _ _ He))).
    rewrite Hp. destruct (e_image_data e) as [d|].
    2:{ exists w. repeat split. }
    rewrite (bind_ok _ _ _ _ _ (lift_ok _ _ _ _ _ (os_path_exists_str _ _))).
    destruct (files w !! q) as [x|] eqn:Ef.
    - rewrite bool_decide_eq_true_2 by eauto.
      rewrite (bind_ok _ _ _ _ _
                 (lift_ok _ _ _ _ _ (delete_file_present _ _ _ Ef))).
      eexists. split; [reflexivity|]. repeat split.
    - rewrite bool_decide_eq_false_2 by (intros [? ?]; discriminate).
      exists w. rewrite (delete_id _ _ Ef). repeat split. }
  destruct Hd as [w1 [Hd [Hr [Hf [Hq [Hu1 Hm]]]]]].
  assert (Hdel : delete_temp_file (fr, w) = (Ok tt, (fr, w))).
  { unfold delete_temp_file. rewrite bind_local. cbn [fst]. rewrite Ht.
    reflexivity. }
  unfold worker_finally. rewrite (bind_ok _ _ _ _ _ Hdel).
  rewrite !bind_local. cbn [fst]. rewrite Hmem.
  cbn [negb andb CLEANUP_AFTER_PROCESSING].
  rewrite (bind_ok _ _ _ _ _ Hd).
  unfold lift, task_done. cbn [fst snd].
  replace (unfinished_tasks w1 - 1 <? 0) with false
    by (symmetry; apply Z.ltb_ge; lia).
  eexists. split; [reflexivity|].
  cbn [results_dict files process_queue unfinished_tasks model_loaded set_queue].
  rewrite Hu1. repeat split; assumption.
Qed.

(** The pass on a check stored on disk when its task is counted. *)
Lemma check_pass_on_disk (w : world) (id p q : str)
  (content : bytes) (rest : list task) (e : entry) :
  process_queue w =
    {| t_image_path := PStr p; t_document_type := lit "check";
       t_image_id := id; t_in_memory := false |} :: rest ->
  files w !! p = Some content ->
  results_dict w !! id = Some e ->
  e_path e = Some (PStr q) ->
  model_loaded w = true \/ from_pretrained = None ->
  1 <= unfinished_tasks w ->
  let text := process_document_image (files w) (PStr p) (lit "check") in
  exists w' : world,
    background_processor_step w = (Ok tt, w')
    /\ results_dict w' = <[id := completed_check q text e]> (results_dict w)
    /\ files w' = match e_image_data e with
                  | Some _ => delete q (files w)
                  | None => files w
                  end
    /\ process_queue w' = rest
    /\ unfinished_tasks w' = unfinished_tasks w - 1
    /\ model_loaded w' = true.
Proof.
  intros Hq Hf He Hp Hload Hu text.
  unfold background_processor_step, run_task. rewrite Hq.
  set (t := {| t_image_path := PStr p; t_document_type := lit "check";
               t_image_id := id; t_in_memory := false |}).
  set (w0 := set_queue rest (unfinished_tasks w) w).
  pose proof (resolve_source_on_disk (frame_of t) w0 p content
                eq_refl eq_refl Hf) as H1.
  destruct (extract_and_store_check (frame_of t) w0 e q eq_refl He Hp Hload)
    as [w2 [H2 [Hr2 [Hf2 [Hq2 [Hu2 Hm2]]]]]].
  destruct (worker_finally_on_disk (frame_of t) w2
              (completed_check q text e) q eq_refl eq_refl
              ltac:(rewrite Hr2; apply lookup_insert_eq) eq_refl
              ltac:(rewrite Hu2; exact Hu))
    as [w3 [H3 [Hr3 [Hf3 [Hq3 [Hu3 Hm3]]]]]].
  unfold try_except, worker_try, try_finally, worker_body.
  rewrite (bind_ok _ _ _ _ _ H1), H2, H3.
  exists w3. split; [reflexivity|].
  rewrite Hr3, Hr2, Hf3, Hf2, Hq3, Hq2, Hu3, Hu2, Hm3.
  repeat split; try reflexivity. exact Hm2.
Qed.

End CheckPassTheorem.

(** ** A task kept in memory that fails after its image was written *)

Section FailedPass.
Context {E : Env}.

Lemma worker_except_in_memory (x : exn) (fr : frame) (w : world) (temp : str) :
  temp_file_path fr = Some temp -> temp <> [] ->
  files w !! temp = None ->
  exists w',
    worker_except x (fr, w) = (counted_twice (unfinished_tasks w + 1), (fr, w'))
    /\ results_dict w' =
       <[image_id fr := failed_entry (image_path fr) x]> (results_dict w)
    /\ files w' = files w
    /\ process_queue w' = process_queue w
    /\ unfinished_tasks w' =
       (if 2 <=? unfinished_tasks w + 1 then unfinished_tasks w - 1
        else unfinished_tasks w).
Proof.
  intros Ht Hne Hf. unfold worker_except.
  rewrite !bind_local. cbn [fst].
  match goal with
  | |- context [set_entry ?i ?v] =>
      rewrite (bind_ok _ _ _ _ _ (lift_ok (set_entry i v) fr w _ tt eq_refl))
  end.
  unfold counted_twice.
  destruct (2 <=? unfinished_tasks w + 1) eqn:Hu.
  - apply Z.leb_le in Hu.
    assert (Hd : task_done (set_results
                   (insert (image_id fr) (failed_entry (image_path fr) x)) w) =
      (Ok tt, set_queue (process_queue w) (unfinished_tasks w - 1)
                (set_results
                   (insert (image_id fr) (failed_entry (image_path fr) x)) w))).
    { unfold task_done. cbn [unfinished_tasks set_results process_queue].
      replace (unfinished_tasks w - 1 <? 0) with false
        by (symmetry; apply Z.ltb_ge; lia). reflexivity. }
    rewrite (bind_ok _ _ _ _ _ (lift_ok _ _ _ _ _ Hd)).
    unfold delete_temp_file. rewrite bind_local. cbn [fst]. rewrite Ht.
    destruct temp as [|c p]; [congruence|].
    rewrite (bind_ok _ _ _ _ _
               (lift_ok _ _ _ _ _
                  (delete_file_absent (c :: p)
                     (set_queue _ _ (set_results _ w)) Hf))).
    eexists. split; [reflexivity|]. repeat split.
  - apply Z.leb_gt in Hu.
    assert (Hd : task_done (set_results
                   (insert (image_id fr) (failed_entry (image_path fr) x)) w) =
      (Raise (ValueError (lit "task_done() called too many times")),
       set_results
         (insert (image_id fr) (failed_entry (image_path fr) x)) w)).
    { unfold task_done. cbn [unfinished_tasks set_results process_queue].
      replace (unfinished_tasks w - 1 <? 0) with true
        by (symmetry; apply Z.ltb_lt; lia). reflexivity. }
    rewrite (bind_raise _ _ _ _ _ (lift_raise _ _ _ _ _ Hd)).
    eexists. split; [reflexivity|]. repeat split.
Qed.

(** A pass whose task is kept in memory and whose run of the model
    raises [x], the files and the count of tasks being as they were. *)
Lemma failed_pass_in_memory (w : world) (t : task) (b : bytes)
  (rest : list task) (e : entry) (q : str) (ext : str * str) (x : exn) :
  process_queue w = t :: rest ->
  t_image_path t = PBuf b -> t_in_memory t = true ->
  results_dict w !! t_image_id t = Some e ->
  e_path e = Some (PStr q) ->
  fst (get_file_extension (PStr q) tt) = Ok ext ->
  mkstemp (fst ext) (files w) <> [] ->
  write_error (mkstemp (fst ext) (files w)) b = None ->
  1 <= unfinished_tasks w ->
  (forall (fr : frame) (w1 : world),
     document_type fr = t_document_type t -> image_id fr = t_image_id t ->
     results_dict w1 !! image_id fr = Some e ->
     model_loaded w1 = model_loaded w ->
     exists w2, extract_and_store (fr, w1) = (Raise x, (fr, w2))
       /\ (forall i, i <> image_id fr ->
             results_dict w2 !! i = results_dict w1 !! i)
       /\ files w2 = files w1
       /\ process_queue w2 = process_queue w1
       /\ unfinished_tasks w2 = unfinished_tasks w1) ->
  let temp := mkstemp (fst ext) (files w) in
  exists w' : world,
    background_processor_step w = (counted_twice (unfinished_tasks w), w')
    /\ results_dict w' =
       <[t_image_id t := failed_entry (PStr temp) x]> (results_dict w)
    /\ files w' = delete temp (files w)
    /\ process_queue w' = rest.
Proof.
  intros Hq Hsrc Hmem He Hp Hext Hne Hw Hu Hx temp.
  unfold background_processor_step, run_task. rewrite Hq.
  set (w0 := set_queue rest (unfinished_tasks w) w).
  assert (Hfr : image_path (frame_of t) = PBuf b) by exact Hsrc.
  assert (Hfm : in_memory (frame_of t) = true) by exact Hmem.
  pose proof (resolve_source_in_memory (frame_of t) w0 e q b ext
                Hfm Hfr He Hp Hext Hw) as H1.
  change (mkstemp (fst ext) (files w0)) with temp in H1.
  set (fr1 := set_image_path (PStr temp) (set_temp_file_path temp (frame_of t)))
    in H1.
  set (w1 := set_files (insert temp b) (set_files (insert temp []) w0)) in H1.
  destruct (Hx fr1 w1 eq_refl eq_refl He eq_refl)
    as [w2 [H2 [Hr2 [Hf2 [Hq2 Hu2]]]]].
  assert (Hfm1 : in_memory fr1 = true) by exact Hmem.
  destruct (worker_finally_in_memory fr1 w2 temp eq_refl Hne Hfm1
              ltac:(rewrite Hu2; exact Hu))
    as [w3 [H3 [Hr3 [Hf3 [Hq3 [Hu3 Hm3]]]]]].
  destruct (worker_except_in_memory x fr1 w3 temp eq_refl Hne
              ltac:(rewrite Hf3; apply lookup_delete_eq))
    as [w4 [H4 [Hr4 [Hf4 [Hq4 Hu4]]]]].
  unfold try_except, worker_try, try_finally, worker_body.
  rewrite (bind_ok _ _ _ _ _ H1), H2, H3, H4.
  exists w4. rewrite Hu3, Hu2.
  change (unfinished_tasks w1) with (unfinished_tasks w).
  replace (unfinished_tasks w - 1 + 1) with (unfinished_tasks w) by lia.
  split.
  { unfold counted_twice. destruct (2 <=? unfinished_tasks w); reflexivity. }
  rewrite Hr4, Hf4, Hf3, Hf2, Hq4, Hq3, Hq2.
  change (image_id fr1) with (t_image_id t).
  change (image_path fr1) with (PStr temp).
  unfold w1. cbn [files set_files process_queue set_queue w0].
  rewrite !delete_insert_eq.
  repeat split; try reflexivity.
  apply map_eq. intros i. destruct (decide (i = t_image_id t)) as [->|Hi].
  - rewrite !lookup_insert_eq. reflexivity.
  - rewrite !lookup_insert_ne by congruence.
    rewrite Hr3. apply (Hr2 i). exact Hi.
Qed.

End FailedPass.

Section FailedPassTheorems.
Context {E : Env}.

Lemma check_status_failed (dt id : str) (w : world) (src : pathval) (x : exn) :
  results_dict w !! id = Some (failed_entry src x) ->
  check_status dt id w = Ok (StatusError (exn_str x)).
Proof. intros H. unfold check_status. rewrite H. reflexivity. Qed.

(** The pass on a task kept in memory when the model cannot be loaded
    and the task is counted. *)
Lemma load_failure_pass_counted (w : world) (t : task) (b : bytes)
  (rest : list task) (e : entry) (q : str) (ext : str * str) (x : exn) :
  process_queue w = t :: rest ->
  t_image_path t = PBuf b -> t_in_memory t = true ->
  results_dict w !! t_image_id t = Some e ->
  e_path e = Some (PStr q) ->
  fst (get_file_extension (PStr q) tt) = Ok ext ->
  mkstemp (fst ext) (files w) <> [] ->
  write_error (mkstemp (fst ext) (files w)) b = None ->
  1 <= unfinished_tasks w ->
  model_loaded w = false ->
  from_pretrained = Some x ->
  let temp := mkstemp (fst ext) (files w) in
  let failure := RuntimeError (lit "Error loading model: " ++ exn_str x) in
  exists w' : world,
    background_processor_step w = (counted_twice (unfinished_tasks w), w')
    /\ results_dict w' =
       <[t_image_id t := failed_entry (PStr temp) failure]> (results_dict w)
    /\ files w' = delete temp (files w)
    /\ process_queue w' = rest
    /\ forall dt : str,
         check_status dt (t_image_id t) w' =
           Ok (StatusError (lit "Error loading model: " ++ exn_str x)).
Proof.
  intros Hq Hsrc Hmem He Hp Hext Hne Hw Hu Hm Hx temp failure.
  destruct (failed_pass_in_memory w t b rest e q ext failure
              Hq Hsrc Hmem He Hp Hext Hne Hw Hu) as [w' [H1 [H2 [H3 H4]]]].
  { intros fr w1 _ _ _ Hm1. exists w1.
    unfold extract_and_store. rewrite !bind_local. cbn [fst].
    assert (Hl : load_model w1 = (Raise failure, w1)).
    { unfold load_model. rewrite Hm1, Hm, Hx. reflexivity. }
    rewrite (bind_raise _ _ _ _ _ (lift_raise _ _ _ _ _ Hl)).
    repeat split. }
  exists w'. repeat split; try assumption.
  intros dt. apply (check_status_failed dt _ w' (PStr temp) failure).
  rewrite H2. apply lookup_insert_eq.
Qed.

(** The pass on a task kept in memory whose type is not check, when the
    task is counted. *)
Lemma other_type_pass_counted (w : world) (t : task) (b : bytes)
  (rest : list task) (e : entry) (q : str) (ext : str * str) :
  process_queue w = t :: rest ->
  t_image_path t = PBuf b -> t_in_memory t = true ->
  t_document_type t <> lit "check" ->
  results_dict w !! t_image_id t = Some e ->
  e_path e = Some (PStr q) ->
  fst (get_file_extension (PStr q) tt) = Ok ext ->
  mkstemp (fst ext) (files w) <> [] ->
  write_error (mkstemp (fst ext) (files w)) b = None ->
  1 <= unfinished_tasks w ->
  model_loaded w = true \/ from_pretrained = None ->
  let temp := mkstemp (fst ext) (files w) in
  let failure := UnboundLocalError (lit "extracted_data_dict") in
  exists w' : world,
    background_processor_step w = (counted_twice (unfinished_tasks w), w')
    /\ results_dict w' =
       <[t_image_id t := failed_entry (PStr temp) failure]> (results_dict w)
    /\ files w' = delete temp (files w)
    /\ process_queue w' = rest
    /\ forall dt : str,
         check_status dt (t_image_id t) w' =
           Ok (StatusError (exn_str failure)).
Proof.
  intros Hq Hsrc Hmem Hdt He Hp Hext Hne Hw Hu Hload temp failure.
  destruct (failed_pass_in_memory w t b rest e q ext failure
              Hq Hsrc Hmem He Hp Hext Hne Hw Hu) as [w' [H1 [H2 [H3 H4]]]].
  { intros fr w1 Hd Hi He1 Hm1.
    assert (Hload1 : model_loaded w1 = true \/ from_pretrained = None).
    { rewrite Hm1. exact Hload. }
    destruct (load_model_ok w1 Hload1) as [w2 [Hl [Hr [Hf [Hq2 [Hu2 Hm2]]]]]].
    unfold extract_and_store. rewrite !bind_local. cbn [fst].
    rewrite (bind_ok _ _ _ _ _ (lift_ok _ _ _ _ _ Hl)).
    rewrite bind_local. cbn [fst]. rewrite !bind_lift_gets.
    match goal with
    | |- context [set_entry ?i ?v] =>
        rewrite (bind_ok _ _ _ _ _ (lift_ok (set_entry i v) fr w2 _ tt eq_refl))
    end.
    match goal with
    | |- context [lift (process_extracted_data_by_type ?i ?d ?v) (_, ?w3)] =>
        destruct (process_extracted_data_unbound i d v w3 _
                    ltac:(rewrite Hd; exact Hdt) (lookup_set_results _ _ _))
          as [txt Hx]
    end.
    rewrite (lift_raise _ _ _ _ _ Hx).
    eexists. split; [reflexivity|].
    cbn [results_dict files process_queue unfinished_tasks set_results].
    repeat split; try assumption.
    intros i Hi'. rewrite !lookup_insert_ne by congruence.
    rewrite Hr. reflexivity. }
  exists w'. repeat split; try assumption.
  intros dt. apply (check_status_failed dt _ w' (PStr temp) failure).
  rewrite H2. apply lookup_insert_eq.
Qed.

End FailedPassTheorems.

(** ** Downloads and corrections *)

Lemma same_downloads_refl (w : world) : same_downloads w w.
Proof. intros id. reflexivity. Qed.

Lemma same_downloads_trans (w1 w2 w3 : world) :
  same_downloads w1 w2 -> same_downloads w2 w3 -> same_downloads w1 w3.
Proof. intros H1 H2 id. rewrite H2. apply H1. Qed.

Lemma same_downloads_delete_file (p : str) :
  keeps same_downloads (delete_file p).
Proof.
  intros w. unfold delete_file. destruct (files w !! p);
    intros id; reflexivity.
Qed.

Lemma same_downloads_set_field (id : str) (f : entry -> entry) :
  (forall e, download_view (f e) = download_view e) ->
  keeps same_downloads (set_field id f).
Proof.
  intros Hf w. unfold set_field, bind, get_entry.
  destruct (results_dict w !! id) as [e|] eqn:He; [|apply same_downloads_refl].
  intros id'. cbn. destruct (decide (id = id')) as [<-|Hne].
  - rewrite lookup_insert_eq, He. cbn. rewrite Hf. reflexivity.
  - rewrite lookup_insert_ne by exact Hne. reflexivity.
Qed.

Ltac same_downloads_step :=
  first
    [ apply keeps_ret, same_downloads_refl
    | apply keeps_raise, same_downloads_refl
    | apply keeps_gets, same_downloads_refl
    | apply keeps_get_entry, same_downloads_refl
    | apply keeps_os_path_exists, same_downloads_refl
    | apply same_downloads_delete_file
    | apply same_downloads_set_field; intros []; reflexivity
    | apply (keeps_bind same_downloads same_downloads_trans); [|intros ?]
    | match goal with
      | |- keeps _ (match ?x with _ => _ end) => destruct x
      end ].

Section DownloadFacts.
Context {E : Env}.

Lemma save_in_store_same_downloads (image_id : str) (corrected_data : dict) :
  keeps same_downloads (save_in_store image_id corrected_data).
Proof. unfold save_in_store. repeat same_downloads_step. Qed.

Lemma save_document_same_downloads (r : save_request) (w : world) :
  same_downloads w
    (snd (save_document (s_email r) (s_document_type r) (s_image_id r)
                        (s_data r) (s_verified r) w)).
Proof.
  unfold save_document.
  pose proof (save_in_store_same_downloads (s_image_id r) (s_data r) w) as H.
  destruct (s_image_id r), (s_data r), (s_document_type r) as [[|c t]|];
    try apply same_downloads_refl;
    destruct (save_in_store _ _ w) as [[u|e|] w'];
    repeat match goal with
           | |- context [if ?b then _ else _] => destruct b
           end; exact H.
Qed.

Lemma save_all_same_downloads (requests : list save_request) (w : world) :
  same_downloads w (save_all requests w).
Proof.
  revert w. induction requests as [|r rs IH]; intros w.
  - apply same_downloads_refl.
  - cbn [save_all fold_left].
    eapply same_downloads_trans; [apply save_document_same_downloads|apply IH].
Qed.

Lemma download_csv_same_downloads (sdt : option str) (ts id : str)
  (w w' : world) :
  same_downloads w w' ->
  fst (download_csv sdt ts id w') = fst (download_csv sdt ts id w).
Proof.
  intros H. specialize (H id). unfold download_csv. rewrite !bind_gets.
  destruct (results_dict w' !! id) as [e'|], (results_dict w !! id) as [e|];
    cbn in H; try discriminate; [|reflexivity].
  injection H as Hs Hp Hd Hc Ht.
  unfold path_of, data_of. rewrite Hs, Hp, Hd, Hc.
  destruct (e_status e); try reflexivity.
  destruct (e_path e) as [[p|b]|]; try reflexivity.
  rewrite !bind_ret. unfold os_path_basename. rewrite !bind_ret.
  destruct (e_csv_content e); [reflexivity|].
  destruct (e_data e); reflexivity.
Qed.

Lemma download_txt_same_downloads (sdt : option str) (ts id : str)
  (w w' : world) :
  same_downloads w w' ->
  fst (download_txt sdt ts id w') = fst (download_txt sdt ts id w).
Proof.
  intros H. specialize (H id). unfold download_txt. rewrite !bind_gets.
  destruct (results_dict w' !! id) as [e'|], (results_dict w !! id) as [e|];
    cbn in H; try discriminate; [|reflexivity].
  injection H as Hs Hp Hd Hc Ht.
  unfold path_of, data_of. rewrite Hs, Hp, Hd, Ht.
  destruct (e_status e); try reflexivity.
  destruct (e_path e) as [[p|b]|]; try reflexivity.
  rewrite !bind_ret. unfold os_path_basename. rewrite !bind_ret.
  destruct (e_txt_content e); [reflexivity|].
  destruct (e_data e); reflexivity.
Qed.

(** X20. What the two download routes send for a job is the same after
    any sequence of save requests as before: the corrections a user
    saves go to the parsed fields of the entry, and neither the table nor
    the text that [download_csv] and [download_txt] send is built from
    these, so that a download after a correction still holds the values
    the model extracted. *)
Theorem downloads_ignore_corrections (requests : list save_request)
  (w : world) (session_document_type : option str)
  (timestamp image_id : str) :
  fst (download_csv session_document_type timestamp image_id
         (save_all requests w)) =
  fst (download_csv session_document_type timestamp image_id w)
  /\ fst (download_txt session_document_type timestamp image_id
            (save_all requests w)) =
     fst (download_txt session_document_type timestamp image_id w).
Proof.
  split.
  - apply download_csv_same_downloads, save_all_same_downloads.
  - apply download_txt_same_downloads, save_all_same_downloads.
Qed.

End DownloadFacts.

(** ** The table sent by [download_csv] *)

Lemma csv_lines_fold (lines acc : list str) :
  fold_left csv_line lines acc =
  acc ++ flat_map (fun line => csv_line [] line) lines.
Proof.
  revert acc. induction lines as [|l ls IH]; intros acc; cbn [fold_left flat_map].
  - rewrite app_nil_r. reflexivity.
  - rewrite IH. unfold csv_line at 1 3. destruct (strip l).
    + reflexivity.
    + rewrite <- app_assoc. reflexivity.
Qed.

Lemma split_terminated_lines (sep : char) (lines : list str) :
  List.Forall (fun l => ~ In sep l) lines ->
  split sep (concat (List.map (fun l => l ++ [sep]) lines)) = lines ++ [[]].
Proof.
  induction 1 as [|l ls Hl Hls IH]; [reflexivity|].
  cbn [List.map concat]. rewrite <- app_assoc. cbn [app].
  rewrite split_app_sep by exact Hl. rewrite IH. reflexivity.
Qed.

Lemma split_join_sep (sep : char) (parts : list str) :
  parts <> [] -> List.Forall (fun l => ~ In sep l) parts ->
  split sep (join [sep] parts) = parts.
Proof.
  intros Hne H. induction H as [|l ls Hl Hls IH]; [congruence|].
  destruct ls as [|l' ls'].
  - cbn [join]. apply split_no_sep, Hl.
  - change (join [sep] (l :: l' :: ls'))
      with (l ++ sep :: join [sep] (l' :: ls')).
    rewrite split_app_sep by exact Hl. rewrite IH by discriminate.
    reflexivity.
Qed.

Lemma join_terminated (sep : str) (row : list str) :
  row <> [] -> join sep (terminated row) = join sep row ++ [CR].
Proof.
  unfold terminated. induction row as [|v row IH]; [congruence|]. intros _.
  destruct row as [|v' row']; [reflexivity|].
  specialize (IH ltac:(discriminate)).
  change (List.removelast (v :: v' :: row'))
    with (v :: List.removelast (v' :: row')).
  change (List.last (v :: v' :: row') []) with (List.last (v' :: row') []).
  change (join sep (v :: v' :: row')) with (v ++ sep ++ join sep (v' :: row')).
  cbn [app].
  assert (Ht : List.removelast (v' :: row')
                 ++ [List.last (v' :: row') [] ++ [CR]] <> []).
  { destruct (List.removelast (v' :: row')); discriminate. }
  revert IH Ht.
  generalize (List.removelast (v' :: row')
                ++ [List.last (v' :: row') [] ++ [CR]]).
  intros [|x xs] IH Ht; [congruence|].
  change (join sep (v :: x :: xs)) with (v ++ sep ++ join sep (x :: xs)).
  rewrite IH, <- !app_assoc. reflexivity.
Qed.

Lemma join_not_in (c sep : char) (parts : list str) :
  c <> sep -> List.Forall (fun v => ~ In c v) parts ->
  ~ In c (join [sep] parts).
Proof.
  intros Hc H. induction H as [|v vs Hv Hvs IH]; [intros []|].
  destruct vs as [|v' vs']; [exact Hv|].
  change (join [sep] (v :: v' :: vs')) with (v ++ sep :: join [sep] (v' :: vs')).
  intros Hin. apply in_app_or in Hin. destruct Hin as [Hin|[Hin|Hin]].
  - exact (Hv Hin).
  - congruence.
  - exact (IH Hin).
Qed.

Lemma join_in (c : char) (sep : str) (parts : list str) (v : str) :
  In v parts -> In c v -> In c (join sep parts).
Proof.
  induction parts as [|p ps IH]; [intros []|]. intros Hv Hc.
  destruct ps as [|p' ps'].
  - destruct Hv as [->|[]]. exact Hc.
  - change (join sep (p :: p' :: ps')) with (p ++ sep ++ join sep (p' :: ps')).
    apply in_or_app. destruct Hv as [->|Hv]; [left; exact Hc|].
    right. apply in_or_app. right. apply IH; assumption.
Qed.

Lemma lstrip_keeps (c : char) (s : str) :
  In c s -> is_space c = false -> In c (lstrip s).
Proof.
  intros Hin Hc. induction s as [|a s IH]; [destruct Hin|]. cbn [lstrip].
  destruct (is_space a) eqn:Ea; [|exact Hin].
  destruct Hin as [->|Hin]; [congruence|apply IH, Hin].
Qed.

Lemma rstrip_keeps (c : char) (s : str) :
  In c s -> is_space c = false -> In c (rstrip s).
Proof.
  intros Hin Hc. induction s as [|a s IH]; [destruct Hin|]. cbn [rstrip].
  destruct Hin as [->|Hin].
  - destruct (rstrip s); [rewrite Hc|]; left; reflexivity.
  - specialize (IH Hin). destruct (rstrip s); [destruct IH|].
    right. exact IH.
Qed.

Lemma strip_visible (c : char) (s : str) :
  In c s -> is_space c = false -> strip s <> [].
Proof.
  intros Hin Hc H. pose proof (rstrip_keeps c _ (lstrip_keeps c s Hin Hc) Hc) as Hk.
  unfold strip in H. rewrite H in Hk. destruct Hk.
Qed.

Lemma csv_line_of_row (row : list str) :
  plain_row row ->
  csv_line [] (join [TAB] row ++ [CR]) =
  [join [COMMA] (List.map escaped_value (terminated row))].
Proof.
  intros [Hv Hvis].
  assert (Hne : row <> []) by (destruct Hvis; discriminate).
  assert (Hs : strip (join [TAB] row ++ [CR]) <> []).
  { apply List.Exists_exists in Hvis. destruct Hvis as [v [Hin Hc]].
    apply List.Exists_exists in Hc. destruct Hc as [c [Hcv Hc]].
    apply (strip_visible c); [|exact Hc].
    apply in_or_app. left. apply (join_in c _ row v); assumption. }
  unfold csv_line. destruct (strip (join [TAB] row ++ [CR])); [congruence|].
  cbn [app]. rewrite <- (join_terminated [TAB] row Hne).
  rewrite split_join_sep; [reflexivity| |].
  - unfold terminated. destruct (List.removelast row); discriminate.
  - unfold terminated. apply List.Forall_app. split.
    + clear Hvis Hs Hne. induction Hv as [|v vs [Hv _] Hvs IH]; [constructor|].
      destruct vs as [|v' vs']; [constructor|].
      change (List.removelast (v :: v' :: vs'))
        with (v :: List.removelast (v' :: vs')).
      constructor; [exact Hv|exact IH].
    + constructor; [|constructor].
      intros Hin. apply in_app_or in Hin. destruct Hin as [Hin|[Hin|[]]].
      * assert (Hl : In (List.last row []) row).
        { clear -Hne. induction row as [|v vs IH]; [congruence|].
          destruct vs as [|v' vs']; [left; reflexivity|].
          right. apply IH. discriminate. }
        apply (proj1 (proj1 (List.Forall_forall _ row) Hv _ Hl)). exact Hin.
      * discriminate Hin.
Qed.

(** X21. The table [download_csv] sends, for the tab-separated text
    [csv.writer] writes for rows it does not have to quote, each row
    ended by a carriage return and a line feed, the values holding no
    tab, no line feed, no carriage return and no double quote, and no
    row being blank: one line per row, joined by line feeds with none at
    the end, the values of a row in their order with commas between
    them, a value that holds a comma between double quotes as it is. The
    carriage return that ended the row is kept as the end of the last
    value, and is inside the quotes when that value holds a comma. *)
Theorem tsv_to_csv_rows (rows : list (list str)) :
  List.Forall plain_row rows ->
  tsv_to_csv
    (concat (List.map (fun row => join [TAB] row ++ [CR; NL]) rows)) =
  join [NL]
    (List.map (fun row => join [COMMA] (List.map escaped_value (terminated row)))
       rows).
Proof.
  intros H. unfold tsv_to_csv. f_equal.
  assert (Hc : concat (List.map (fun row => join [TAB] row ++ [CR; NL]) rows) =
               concat (List.map (fun l => l ++ [NL])
                         (List.map (fun row => join [TAB] row ++ [CR]) rows))).
  { rewrite List.map_map. f_equal. apply List.map_ext. intros row.
    rewrite <- app_assoc. reflexivity. }
  rewrite Hc, split_terminated_lines.
  2:{ apply List.Forall_map. apply (List.Forall_impl _ (P := plain_row));
        [|exact H].
      intros row [Hv _] Hin. apply in_app_or in Hin.
      destruct Hin as [Hin|[Hin|[]]]; [|discriminate Hin].
      revert Hin. apply join_not_in; [discriminate|].
      apply (List.Forall_impl _
               (P := fun v => ~ In TAB v /\ ~ In NL v /\ ~ In CR v
                              /\ ~ In QUOTE v));
        [|exact Hv]. intros v [_ [Hn _]]. exact Hn. }
  rewrite csv_lines_fold. cbn [app].
  rewrite flat_map_app. cbn [flat_map]. unfold csv_line at 2.
  cbn [strip lstrip rstrip app]. rewrite app_nil_r. clear Hc.
  induction H as [|row rows' Hrow Hrows IH]; [reflexivity|].
  cbn [List.map flat_map]. rewrite (csv_line_of_row row Hrow), IH.
  reflexivity.
Qed.

Lemma tsv_to_csv_rows_witness :
  tsv_to_csv
    (concat (List.map (fun row => join [TAB] row ++ [CR; NL]) Sample.table)) =
  lit "Filename,Bank Name" ++ [CR; NL] ++ lit "scan.png," ++ [QUOTE]
    ++ lit "First Bank, N.A." ++ [CR; QUOTE].
Proof.
  refine (eq_trans (tsv_to_csv_rows Sample.table _) _).
  - repeat first
      [ apply List.Forall_nil
      | apply List.Forall_cons
      | split
      | (intros H; vm_compute in H; intuition discriminate)
      | (apply List.Exists_cons_hd; apply List.Exists_cons_hd; reflexivity) ].
  - vm_compute. reflexivity.
Defined.

(** ** A check, from the upload to the answer *)

Section UploadAndProcess.
Context {E : Env}.

(** The extractor reads the content of the file and nothing else of the
    files. *)
Lemma process_document_image_of_file (fs : gmap str bytes) (p : str)
  (file_data : bytes) (document_type : str) :
  fs !! p = Some file_data ->
  process_document_image fs (PStr p) document_type =
  answer_for file_data document_type.
Proof.
  intros H. unfold answer_for, process_document_image, preprocess_image,
    open_image. rewrite H. reflexivity.
Qed.


End UploadAndProcess.


(** ** A task whose file is gone *)

Section Restored.
Context {E : Env}.

Lemma resolve_source_restored (fr : frame) (w : world) (e : entry)
  (p : str) (b : bytes) (ext : str * str) :
  in_memory fr = false ->
  image_path fr = PStr p ->
  files w !! p = None ->
  results_dict w !! image_id fr = Some e ->
  e_image_data e = Some b ->
  fst (get_file_extension (PStr p) tt) = Ok ext ->
  write_error (mkstemp (fst ext) (files w)) b = None ->
  resolve_source (fr, w) =
    (Ok tt,
     (set_in_memory true
        (set_image_path (PStr (mkstemp (fst ext) (files w)))
           (set_temp_file_path (mkstemp (fst ext) (files w)) fr)),
      set_files (insert (mkstemp (fst ext) (files w)) b)
        (set_files (insert (mkstemp (fst ext) (files w)) []) w))).
Proof.
  intros Hmem Hsrc Hf He Hb Hext Hw. unfold resolve_source.
  rewrite !bind_local. cbn [fst]. rewrite Hmem.
  rewrite bind_local. cbn [fst]. rewrite Hsrc.
  rewrite (bind_ok _ _ _ _ _ (lift_ok _ _ _ _ _ (os_path_exists_str _ _))).
  rewrite Hf. rewrite bool_decide_eq_false_2 by (intros [? ?]; discriminate).
  rewrite (bind_ok _ _ _ _ _ (lift_ok _ _ _ _ _ (get_entry_ok _ _ _ He))).
  rewrite Hb.
  rewrite (bind_ok _ _ _ _ _ (get_file_extension_ok p ext (fr, w) Hext)).
  assert (Ht : make_temp_file (fst ext) (fr, w) =
    (Ok (mkstemp (fst ext) (files w)),
     (set_temp_file_path (mkstemp (fst ext) (files w)) fr,
      set_files (insert (mkstemp (fst ext) (files w)) []) w))) by reflexivity.
  rewrite (bind_ok _ _ _ _ _ Ht).
  unfold try_except.
  rewrite (bind_ok _ _ _ _ _
             (lift_ok _ _ _ _ _
                (get_entry_ok (image_id fr)
                   (set_files (insert (mkstemp (fst ext) (files w)) []) w) e He))).
  rewrite Hb, bind_ret. unfold write_file. rewrite Hw.
  reflexivity.
Qed.

(** The pass on a check whose file is gone, when its task is counted. *)
Lemma check_pass_restored (w : world) (id p q : str)
  (b : bytes) (rest : list task) (e : entry) (ext : str * str) :
  process_queue w =
    {| t_image_path := PStr p; t_document_type := lit "check";
       t_image_id := id; t_in_memory := false |} :: rest ->
  files w !! p = None ->
  results_dict w !! id = Some e ->
  e_image_data e = Some b ->
  e_path e = Some (PStr q) ->
  fst (get_file_extension (PStr p) tt) = Ok ext ->
  mkstemp (fst ext) (files w) <> [] ->
  write_error (mkstemp (fst ext) (files w)) b = None ->
  model_loaded w = true \/ from_pretrained = None ->
  1 <= unfinished_tasks w ->
  let temp := mkstemp (fst ext) (files w) in
  exists w' : world,
    background_processor_step w = (Ok tt, w')
    /\ results_dict w' =
       <[id := completed_check q (answer_for b (lit "check")) e]>
         (results_dict w)
    /\ files w' = delete temp (files w)
    /\ process_queue w' = rest
    /\ unfinished_tasks w' = unfinished_tasks w - 1.
Proof.
  intros Hq Hf He Hb Hp Hext Hne Hw Hload Hu temp.
  unfold background_processor_step, run_task. rewrite Hq.
  set (t := {| t_image_path := PStr p; t_document_type := lit "check";
               t_image_id := id; t_in_memory := false |}).
  set (w0 := set_queue rest (unfinished_tasks w) w).
  pose proof (resolve_source_restored (frame_of t) w0 e p b ext
                eq_refl eq_refl Hf He Hb Hext Hw) as H1.
  change (mkstemp (fst ext) (files w0)) with temp in H1.
  set (fr1 := set_in_memory true
                (set_image_path (PStr temp)
                   (set_temp_file_path temp (frame_of t)))) in H1.
  set (w1 := set_files (insert temp b) (set_files (insert temp []) w0)) in H1.
  destruct (extract_and_store_check fr1 w1 e q eq_refl He Hp Hload)
    as [w2 [H2 [Hr2 [Hf2 [Hq2 [Hu2 Hm2]]]]]].
  destruct (worker_finally_in_memory fr1 w2 temp eq_refl Hne eq_refl
              ltac:(rewrite Hu2; exact Hu))
    as [w3 [H3 [Hr3 [Hf3 [Hq3 [Hu3 Hm3]]]]]].
  rewrite (process_document_image_of_file (files w1) temp b) in Hr2
    by apply lookup_insert_eq.
  change (image_id fr1) with id in Hr2.
  change (results_dict w1) with (results_dict w) in Hr2.
  unfold try_except, worker_try, try_finally, worker_body.
  rewrite (bind_ok _ _ _ _ _ H1), H2, H3.
  exists w3. split; [reflexivity|].
  rewrite Hr3, Hr2, Hf3, Hf2, Hq3, Hq2, Hu3, Hu2.
  unfold w1. cbn [files set_files].
  rewrite !delete_insert_eq.
  repeat split; reflexivity.
Qed.

End Restored.

(** ** The scheduled cleanup *)

Section CleanupFacts.
Variables (now : float) (getmtime : str -> float).

Lemma cleanup_files_effect (listing : list str) (count : Z) (w : world) :
  exists (count' : Z) (w' : world),
    cleanup_files now getmtime listing count w = (Ok count', w')
    /\ results_dict w' = results_dict w
    /\ process_queue w' = process_queue w
    /\ unfinished_tasks w' = unfinished_tasks w
    /\ model_loaded w' = model_loaded w
    /\ (forall p : str,
          files w' !! p =
          if swept now getmtime listing p then None else files w !! p)
    /\ count' - count = Z.of_nat (size (files w)) - Z.of_nat (size (files w')).
Proof.
  revert count w. induction listing as [|name rest IH]; intros count w.
  - exists count, w. repeat split; try reflexivity. lia.
  - cbn [cleanup_files]. unfold cleanup_file at 1.
    set (path := UPLOAD_FOLDER ++ [SLASH] ++ name).
    assert (Hstep : exists (c1 : Z) (w1 : world),
      (let* is_file :=
         gets (fun w => bool_decide (is_Some (files w !! path))) in
       if is_file then
         if older_than_a_day now getmtime path then
           let* deleted := delete_file path in
           if deleted then ret (count + 1) else ret count
         else ret count
       else ret count) w = (Ok c1, w1)
      /\ results_dict w1 = results_dict w
      /\ process_queue w1 = process_queue w
      /\ unfinished_tasks w1 = unfinished_tasks w
      /\ model_loaded w1 = model_loaded w
      /\ files w1 =
         (if older_than_a_day now getmtime path then delete path (files w)
          else files w)
      /\ c1 - count = Z.of_nat (size (files w)) - Z.of_nat (size (files w1))).
    { rewrite bind_gets.
      destruct (files w !! path) as [x|] eqn:Ef.
      - rewrite bool_decide_eq_true_2 by eauto.
        destruct (older_than_a_day now getmtime path).
        + rewrite (bind_ok _ _ _ _ _ (delete_file_present _ _ _ Ef)).
          eexists _, _. split; [reflexivity|]. repeat split.
          cbn [files set_files]. rewrite map_size_delete, Ef.
          assert (size (files w) <> 0%nat)
            by (apply (map_size_ne_0_lookup_2 _ path); eauto).
          lia.
        + exists count, w. repeat split. lia.
      - rewrite bool_decide_eq_false_2 by (intros [? ?]; congruence).
        exists count, w. repeat split; try lia.
        destruct (older_than_a_day now getmtime path); [|reflexivity].
        symmetry. apply delete_id, Ef. }
    destruct Hstep as [c1 [w1 [Hs [Hr1 [Hq1 [Hu1 [Hm1 [Hf1 Hc1]]]]]]]].
    rewrite (bind_ok _ _ _ _ _ Hs).
    destruct (IH c1 w1) as [c2 [w2 [H2 [Hr2 [Hq2 [Hu2 [Hm2 [Hf2 Hc2]]]]]]]].
    exists c2, w2. split; [exact H2|].
    repeat split; try congruence; [|lia].
    intros p. rewrite Hf2. unfold swept. cbn [existsb]. fold path.
    destruct (existsb _ rest) eqn:Ex; cbn [andb orb].
    + rewrite orb_true_r. cbn [andb].
      destruct (older_than_a_day now getmtime p) eqn:Eo; [reflexivity|].
      rewrite Hf1. destruct (older_than_a_day now getmtime path) eqn:Ep;
        [|reflexivity].
      destruct (decide (path = p)) as [<-|Hne]; [congruence|].
      apply lookup_delete_ne. exact Hne.
    + rewrite orb_false_r, Hf1. unfold str_eqb.
      destruct (decide (p = path)) as [->|Hne].
      * rewrite bool_decide_eq_true_2 by reflexivity. cbn [andb].
        destruct (older_than_a_day now getmtime path); [|reflexivity].
        apply lookup_delete_eq.
      * rewrite bool_decide_eq_false_2 by exact Hne. cbn [andb].
        destruct (older_than_a_day now getmtime path); [|reflexivity].
        apply lookup_delete_ne. congruence.
Qed.

(** X24. One pass of the scheduled cleanup, for any time, any
    modification times and any listing of the upload folder: it never
    fails; a file is gone after the pass exactly when it is a listed
    name under the upload folder whose age exceeds 86400 seconds, a file
    of exactly that age being kept, and every other file is as it was;
    the count it prints is the number of files removed; the result
    store, the queue and the count of unfinished tasks are untouched, so
    that the entry of a job stays when its file is swept. *)
Theorem cleanup_pass_effect (listing : list str) (w : world) :
  exists (count : Z) (w' : world),
    cleanup_uploads_folder now getmtime listing w = (Ok count, w')
    /\ (forall p : str,
          files w' !! p =
          if swept now getmtime listing p then None else files w !! p)
    /\ (forall p : str,
          PrimFloat.sub now (getmtime p) = float_of_int 86400 ->
          swept now getmtime listing p = false)
    /\ count = Z.of_nat (size (files w)) - Z.of_nat (size (files w'))
    /\ results_dict w' = results_dict w
    /\ process_queue w' = process_queue w
    /\ unfinished_tasks w' = unfinished_tasks w.
Proof.
  destruct (cleanup_files_effect listing 0 w)
    as [c [w' [H [Hr [Hq [Hu [Hm [Hf Hc]]]]]]]].
  exists c, w'. repeat split; try assumption; [|lia].
  intros p Hp. unfold swept, older_than_a_day. rewrite Hp.
  apply andb_false_r.
Qed.

End CleanupFacts.

(** ** Images that are not upscaled *)

(** X25. An image that is not upscaled is never cropped: for a target
    side above zero and an image with positive sides that are both at
    least the minimum size, the normaliser succeeds, the image is pasted
    as it is, the paste offsets are not negative, the image ends inside
    the square canvas on both axes, and on each axis the margin after
    the image is the margin before it or one pixel more. *)
Theorem normalize_keeps_whole_image (img : image) (input_size min_size : Z) :
  0 < fst (im_size img) -> 0 < snd (im_size img) -> 0 < input_size ->
  min_size <= fst (im_size img) -> min_size <= snd (im_size img) ->
  exists n : normalized,
    normalize img input_size min_size = Ok n
    /\ pasted_size n = im_size img
    /\ 0 <= fst (paste_at n)
    /\ fst (paste_at n) + fst (im_size img) <= square_size n
    /\ 0 <= snd (paste_at n)
    /\ snd (paste_at n) + snd (im_size img) <= square_size n
    /\ 0 <= square_size n - fst (im_size img) - 2 * fst (paste_at n) <= 1
    /\ 0 <= square_size n - snd (im_size img) - 2 * snd (paste_at n) <= 1.
Proof.
  intros Hw Hh Hin H1 H2.
  destruct (normalize_result img input_size min_size Hw Hh Hin) as [r [Hn Hr]].
  rewrite (Hr H1 H2) in Hn. rewrite Hn. eexists. split; [reflexivity|].
  cbn [pasted_size paste_at square_size fst snd].
  destruct (im_size img) as [w h]. cbn [fst snd] in *.
  set (S := Z.max (Z.max w h) input_size).
  assert (HSw : w <= S) by (unfold S; lia).
  assert (HSh : h <= S) by (unfold S; lia).
  pose proof (Z.div_mod (S - w) 2 ltac:(lia)) as Dw.
  pose proof (Z.mod_pos_bound (S - w) 2 ltac:(lia)) as Mw.
  pose proof (Z.div_mod (S - h) 2 ltac:(lia)) as Dh.
  pose proof (Z.mod_pos_bound (S - h) 2 ltac:(lia)) as Mh.
  repeat split; lia.
Qed.

Lemma normalize_keeps_whole_image_witness :
  exists n : normalized,
    normalize {| im_mode := lit "L"; im_size := (101, 50) |} 448 14 = Ok n
    /\ paste_at n = (173, 199).
Proof.
  destruct (normalize_keeps_whole_image
              {| im_mode := lit "L"; im_size := (101, 50) |} 448 14)
    as [n [Hn _]].
  - simpl. lia.
  - simpl. lia.
  - lia.
  - simpl. lia.
  - simpl. lia.
  - exists n. split; [exact Hn|].
    assert (H : normalize {| im_mode := lit "L"; im_size := (101, 50) |} 448 14
                = Ok {| pasted_size := (101, 50); square_size := 448;
                        paste_at := (173, 199); out_mode := RGB;
                        out_size := (448, 448);
                        tensor_shape := [1; 3; 448; 448] |})
      by (vm_compute; reflexivity).
    rewrite H in Hn. injection Hn as <-. reflexivity.
Defined.

(** ** Passes and the count of unfinished tasks *)

Lemma task_done_uncounted (w : world) :
  unfinished_tasks w <= 0 -> task_done w = (Raise too_many_calls, w).
Proof.
  intros H. unfold task_done.
  replace (unfinished_tasks w - 1 <? 0) with true
    by (symmetry; apply Z.ltb_lt; lia).
  reflexivity.
Qed.

Section Uncounted.
Context {E : Env}.

(** With no task counted as unfinished, the [finally] block does its
    cleaning and raises. *)
Lemma worker_finally_in_memory_uncounted (fr : frame) (w : world)
  (temp : str) :
  temp_file_path fr = Some temp -> temp <> [] -> in_memory fr = true ->
  unfinished_tasks w <= 0 ->
  exists w',
    worker_finally (fr, w) = (Raise too_many_calls, (fr, w'))
    /\ results_dict w' = results_dict w
    /\ files w' = delete temp (files w)
    /\ process_queue w' = process_queue w
    /\ unfinished_tasks w' = unfinished_tasks w.
Proof.
  intros Ht Hne Hmem Hu.
  assert (Hd : exists w1, delete_temp_file (fr, w) = (Ok tt, (fr, w1))
            /\ results_dict w1 = results_dict w
            /\ files w1 = delete temp (files w)
            /\ process_queue w1 = process_queue w
            /\ unfinished_tasks w1 = unfinished_tasks w).
  { unfold delete_temp_file. rewrite bind_local. cbn [fst]. rewrite Ht.
    destruct temp as [|c p]; [congruence|].
    destruct (files w !! (c :: p)) as [x|] eqn:Ef.
    - rewrite (bind_ok _ _ _ _ _
                 (lift_ok _ _ _ _ _ (delete_file_present _ _ _ Ef))).
      eexists. split; [reflexivity|]. repeat split.
    - rewrite (bind_ok _ _ _ _ _
                 (lift_ok _ _ _ _ _ (delete_file_absent _ _ Ef))).
      eexists. split; [reflexivity|]. rewrite (delete_id _ _ Ef).
      repeat split. }
  destruct Hd as [w1 [Hd [Hr [Hf [Hq Hu1]]]]].
  unfold worker_finally. rewrite (bind_ok _ _ _ _ _ Hd).
  rewrite !bind_local. cbn [fst]. rewrite Hmem. cbn [negb andb].
  rewrite bind_ret.
  rewrite (lift_raise _ _ _ _ _
             (task_done_uncounted w1 ltac:(rewrite Hu1; exact Hu))).
  exists w1. repeat split; assumption.
Qed.

Lemma worker_finally_on_disk_uncounted (fr : frame) (w : world) (e : entry)
  (q : str) :
  temp_file_path fr = None -> in_memory fr = false ->
  results_dict w !! image_id fr = Some e ->
  e_path e = Some (PStr q) ->
  unfinished_tasks w <= 0 ->
  exists w',
    worker_finally (fr, w) = (Raise too_many_calls, (fr, w'))
    /\ results_dict w' = results_dict w
    /\ files w' = match e_image_data e with
                  | Some _ => delete q (files w)
                  | None => files w
                  end
    /\ process_queue w' = process_queue w
    /\ unfinished_tasks w' = unfinished_tasks w.
Proof.
  intros Ht Hmem He Hp Hu.
  assert (Hd : exists w1,
    (let* e := lift (get_entry (image_id fr)) in
     match e_path e with
     | Some original_path =>
         match e_image_data e with
         | Some _ =>
             let* present := lift (os_path_exists original_path) in
             if present then
               match original_path with
               | PStr p => let* _ := lift (delete_file p) in ret tt
               | PBuf _ => ret tt
               end
             else ret tt
         | None => ret tt
         end
     | None => ret tt
     end) (fr, w) = (Ok tt, (fr, w1))
    /\ results_dict w1 = results_dict w
    /\ files w1 = match e_image_data e with
                  | Some _ => delete q (files w)
                  | None => files w
                  end
    /\ process_queue w1 = process_queue w
    /\ unfinished_tasks w1 = unfinished_tasks w).
  { rewrite (bind_ok _ _ _ _ _ (lift_ok _ _ _ _ _ (get_entry_ok _ _ _ He))).
    rewrite Hp. destruct (e_image_data e) as [d|].
    2:{ exists w. repeat split. }
    rewrite (bind_ok _ _ _ _ _ (lift_ok _ _ _ _ _ (os_path_exists_str _ _))).
    destruct (files w !! q) as [x|] eqn:Ef.
    - rewrite bool_decide_eq_true_2 by eauto.
      rewrite (bind_ok _ _ _ _ _
                 (lift_ok _ _ _ _ _ (delete_file_present _ _ _ Ef))).
      eexists. split; [reflexivity|]. repeat split.
    - rewrite bool_decide_eq_false_2 by (intros [? ?]; discriminate).
      exists w. rewrite (delete_id _ _ Ef). repeat split. }
  destruct Hd as [w1 [Hd [Hr [Hf [Hq Hu1]]]]].
  assert (Hdel : delete_temp_file (fr, w) = (Ok tt, (fr, w))).
  { unfold delete_temp_file. rewrite bind_local. cbn [fst]. rewrite Ht.
    reflexivity. }
  unfold worker_finally. rewrite (bind_ok _ _ _ _ _ Hdel).
  rewrite !bind_local. cbn [fst]. rewrite Hmem.
  cbn [negb andb CLEANUP_AFTER_PROCESSING].
  rewrite (bind_ok _ _ _ _ _ Hd).
  rewrite (lift_raise _ _ _ _ _
             (task_done_uncounted w1 ltac:(rewrite Hu1; exact Hu))).
  exists w1. repeat split; assumption.
Qed.

(** With no task counted as unfinished, the handler stores its entry and
    raises. *)
Lemma worker_except_uncounted (x : exn) (fr : frame) (w : world) :
  unfinished_tasks w <= 0 ->
  worker_except x (fr, w) =
    (Raise too_many_calls,
     (fr, set_results
            (insert (image_id fr) (failed_entry (image_path fr) x)) w)).
Proof.
  intros Hu. unfold worker_except. rewrite !bind_local. cbn [fst].
  match goal with
  | |- context [set_entry ?i ?v] =>
      rewrite (bind_ok _ _ _ _ _ (lift_ok (set_entry i v) fr w _ tt eq_refl))
  end.
  rewrite (bind_raise _ _ _ _ _
             (lift_raise _ _ _ _ _
                (task_done_uncounted
                   (set_results
                      (insert (image_id fr) (failed_entry (image_path fr) x)) w)
                   Hu))).
  reflexivity.
Qed.

(** A pass whose [finally] block raises because no task is counted, the
    body having ended with the frame [fr1] in the state [w2] and the
    [finally] block in the state [w3]. *)
Lemma pass_uncounted (w : world) (t : task) (rest : list task)
  (r : outcome unit) (fr1 : frame) (w2 w3 : world) :
  process_queue w = t :: rest ->
  worker_body (frame_of t, set_queue rest (unfinished_tasks w) w) =
    (r, (fr1, w2)) ->
  worker_finally (fr1, w2) = (Raise too_many_calls, (fr1, w3)) ->
  unfinished_tasks w3 <= 0 ->
  background_processor_step w =
    (Raise too_many_calls,
     set_results
       (insert (image_id fr1) (failed_entry (image_path fr1) too_many_calls))
       w3).
Proof.
  intros Hq Hb Hf Hu.
  unfold background_processor_step, run_task. rewrite Hq.
  unfold try_except, worker_try, try_finally. rewrite Hb, Hf.
  rewrite (worker_except_uncounted _ _ _ Hu). reflexivity.
Qed.

End Uncounted.

Section UncountedPasses.
Context {E : Env}.

Lemma check_status_too_many_calls (dt id : str) (w : world) (src : pathval) :
  results_dict w !! id = Some (failed_entry src too_many_calls) ->
  check_status dt id w =
    Ok (StatusError (lit "task_done() called too many times")).
Proof. intros H. unfold check_status. rewrite H. reflexivity. Qed.

Lemma check_pass_in_memory_uncounted (w : world) (id q : str) (b : bytes)
  (rest : list task) (e : entry) (ext : str * str) :
  process_queue w =
    {| t_image_path := PBuf b; t_document_type := lit "check";
       t_image_id := id; t_in_memory := true |} :: rest ->
  results_dict w !! id = Some e ->
  e_path e = Some (PStr q) ->
  fst (get_file_extension (PStr q) tt) = Ok ext ->
  mkstemp (fst ext) (files w) <> [] ->
  write_error (mkstemp (fst ext) (files w)) b = None ->
  model_loaded w = true \/ from_pretrained = None ->
  unfinished_tasks w <= 0 ->
  let temp := mkstemp (fst ext) (files w) in
  exists w' : world,
    background_processor_step w = (Raise too_many_calls, w')
    /\ results_dict w' =
       <[id := failed_entry (PStr temp) too_many_calls]> (results_dict w)
    /\ files w' = delete temp (files w)
    /\ process_queue w' = rest
    /\ unfinished_tasks w' = unfinished_tasks w
    /\ check_status (lit "check") id w' =
       Ok (StatusError (lit "task_done() called too many times")).
Proof.
  intros Hq He Hp Hext Hne Hw Hload Hu temp.
  set (t := {| t_image_path := PBuf b; t_document_type := lit "check";
               t_image_id := id; t_in_memory := true |}) in *.
  set (w0 := set_queue rest (unfinished_tasks w) w).
  pose proof (resolve_source_in_memory (frame_of t) w0 e q b ext
                eq_refl eq_refl He Hp Hext Hw) as H1.
  change (mkstemp (fst ext) (files w0)) with temp in H1.
  set (fr1 := set_image_path (PStr temp) (set_temp_file_path temp (frame_of t)))
    in H1.
  set (w1 := set_files (insert temp b) (set_files (insert temp []) w0)) in H1.
  destruct (extract_and_store_check fr1 w1 e q eq_refl He Hp Hload)
    as [w2 [H2 [Hr2 [Hf2 [Hq2 [Hu2 Hm2]]]]]].
  destruct (worker_finally_in_memory_uncounted fr1 w2 temp eq_refl Hne eq_refl
              ltac:(rewrite Hu2; exact Hu))
    as [w3 [H3 [Hr3 [Hf3 [Hq3 Hu3]]]]].
  assert (Hb : worker_body (frame_of t, w0) = (Ok tt, (fr1, w2))).
  { unfold worker_body. rewrite (bind_ok _ _ _ _ _ H1). exact H2. }
  assert (Hu3' : unfinished_tasks w3 <= 0).
  { rewrite Hu3, Hu2. exact Hu. }
  eexists. split; [exact (pass_uncounted w t rest _ fr1 w2 w3 Hq Hb H3 Hu3')|].
  cbn [results_dict files process_queue unfinished_tasks set_results].
  change (image_id fr1) with id. change (image_path fr1) with (PStr temp).
  assert (Hres : <[id := failed_entry (PStr temp) too_many_calls]>
                   (results_dict w3) =
                 <[id := failed_entry (PStr temp) too_many_calls]>
                   (results_dict w)).
  { rewrite Hr3, Hr2. change (image_id fr1) with id.
    rewrite insert_insert_eq. reflexivity. }
  rewrite Hres, Hf3, Hf2, Hq3, Hq2, Hu3, Hu2.
  unfold w1. cbn [files set_files]. rewrite !delete_insert_eq.
  repeat split; try reflexivity.
  apply (check_status_too_many_calls _ _ _ (PStr temp)).
  cbn [results_dict set_results]. rewrite Hres. apply lookup_insert_eq.
Qed.

Lemma check_pass_on_disk_uncounted (w : world) (id p q : str)
  (content : bytes) (rest : list task) (e : entry) :
  process_queue w =
    {| t_image_path := PStr p; t_document_type := lit "check";
       t_image_id := id; t_in_memory := false |} :: rest ->
  files w !! p = Some content ->
  results_dict w !! id = Some e ->
  e_path e = Some (PStr q) ->
  model_loaded w = true \/ from_pretrained = None ->
  unfinished_tasks w <= 0 ->
  exists w' : world,
    background_processor_step w = (Raise too_many_calls, w')
    /\ results_dict w' =
       <[id := failed_entry (PStr p) too_many_calls]> (results_dict w)
    /\ files w' = match e_image_data e with
                  | Some _ => delete q (files w)
                  | None => files w
                  end
    /\ process_queue w' = rest
    /\ unfinished_tasks w' = unfinished_tasks w.
Proof.
  intros Hq Hf He Hp Hload Hu.
  set (t := {| t_image_path := PStr p; t_document_type := lit "check";
               t_image_id := id; t_in_memory := false |}) in *.
  set (w0 := set_queue rest (unfinished_tasks w) w).
  pose proof (resolve_source_on_disk (frame_of t) w0 p content
                eq_refl eq_refl Hf) as H1.
  destruct (extract_and_store_check (frame_of t) w0 e q eq_refl He Hp Hload)
    as [w2 [H2 [Hr2 [Hf2 [Hq2 [Hu2 Hm2]]]]]].
  destruct (worker_finally_on_disk_uncounted (frame_of t) w2 _ q
              eq_refl eq_refl
              ltac:(rewrite Hr2; apply lookup_insert_eq) eq_refl
              ltac:(rewrite Hu2; exact Hu))
    as [w3 [H3 [Hr3 [Hf3 [Hq3 Hu3]]]]].
  assert (Hb : worker_body (frame_of t, w0) = (Ok tt, (frame_of t, w2))).
  { unfold worker_body. rewrite (bind_ok _ _ _ _ _ H1). exact H2. }
  assert (Hu3' : unfinished_tasks w3 <= 0).
  { rewrite Hu3, Hu2. exact Hu. }
  eexists.
  split; [exact (pass_uncounted w t rest _ (frame_of t) w2 w3 Hq Hb H3 Hu3')|].
  cbn [results_dict files process_queue unfinished_tasks set_results].
  change (image_id (frame_of t)) with id.
  change (image_path (frame_of t)) with (PStr p).
  rewrite Hr3, Hr2, Hf3, Hf2, Hq3, Hq2, Hu3, Hu2.
  change (image_id (frame_of t)) with id. rewrite insert_insert_eq.
  repeat split; reflexivity.
Qed.

Lemma check_pass_restored_uncounted (w : world) (id p q : str)
  (b : bytes) (rest : list task) (e : entry) (ext : str * str) :
  process_queue w =
    {| t_image_path := PStr p; t_document_type := lit "check";
       t_image_id := id; t_in_memory := false |} :: rest ->
  files w !! p = None ->
  results_dict w !! id = Some e ->
  e_image_data e = Some b ->
  e_path e = Some (PStr q) ->
  fst (get_file_extension (PStr p) tt) = Ok ext ->
  mkstemp (fst ext) (files w) <> [] ->
  write_error (mkstemp (fst ext) (files w)) b = None ->
  model_loaded w = true \/ from_pretrained = None ->
  unfinished_tasks w <= 0 ->
  let temp := mkstemp (fst ext) (files w) in
  exists w' : world,
    background_processor_step w = (Raise too_many_calls, w')
    /\ results_dict w' =
       <[id := failed_entry (PStr temp) too_many_calls]> (results_dict w)
    /\ files w' = delete temp (files w)
    /\ process_queue w' = rest
    /\ unfinished_tasks w' = unfinished_tasks w.
Proof.
  intros Hq Hf He Hb Hp Hext Hne Hw Hload Hu temp.
  set (t := {| t_image_path := PStr p; t_document_type := lit "check";
               t_image_id := id; t_in_memory := false |}) in *.
  set (w0 := set_queue rest (unfinished_tasks w) w).
  pose proof (resolve_source_restored (frame_of t) w0 e p b ext
                eq_refl eq_refl Hf He Hb Hext Hw) as H1.
  change (mkstemp (fst ext) (files w0)) with temp in H1.
  set (fr1 := set_in_memory true
                (set_image_path (PStr temp)
                   (set_temp_file_path temp (frame_of t)))) in H1.
  set (w1 := set_files (insert temp b) (set_files (insert temp []) w0)) in H1.
  destruct (extract_and_store_check fr1 w1 e q eq_refl He Hp Hload)
    as [w2 [H2 [Hr2 [Hf2 [Hq2 [Hu2 Hm2]]]]]].
  destruct (worker_finally_in_memory_uncounted fr1 w2 temp eq_refl Hne eq_refl
              ltac:(rewrite Hu2; exact Hu))
    as [w3 [H3 [Hr3 [Hf3 [Hq3 Hu3]]]]].
  assert (Hbody : worker_body (frame_of t, w0) = (Ok tt, (fr1, w2))).
  { unfold worker_body. rewrite (bind_ok _ _ _ _ _ H1). exact H2. }
  assert (Hu3' : unfinished_tasks w3 <= 0).
  { rewrite Hu3, Hu2. exact Hu. }
  eexists.
  split; [exact (pass_uncounted w t rest _ fr1 w2 w3 Hq Hbody H3 Hu3')|].
  cbn [results_dict files process_queue unfinished_tasks set_results].
  change (image_id fr1) with id. change (image_path fr1) with (PStr temp).
  rewrite Hr3, Hr2, Hf3, Hf2, Hq3, Hq2, Hu3, Hu2.
  change (image_id fr1) with id. rewrite insert_insert_eq.
  unfold w1. cbn [files set_files]. rewrite !delete_insert_eq.
  repeat split; reflexivity.
Qed.

(** A pass whose task is kept in memory and whose run of the model
    raises, no task being counted as unfinished. *)
Lemma failed_pass_in_memory_uncounted (w : world) (t : task) (b : bytes)
  (rest : list task) (e : entry) (q : str) (ext : str * str) (x : exn) :
  process_queue w = t :: rest ->
  t_image_path t = PBuf b -> t_in_memory t = true ->
  results_dict w !! t_image_id t = Some e ->
  e_path e = Some (PStr q) ->
  fst (get_file_extension (PStr q) tt) = Ok ext ->
  mkstemp (fst ext) (files w) <> [] ->
  write_error (mkstemp (fst ext) (files w)) b = None ->
  unfinished_tasks w <= 0 ->
  (forall (fr : frame) (w1 : world),
     document_type fr = t_document_type t -> image_id fr = t_image_id t ->
     results_dict w1 !! image_id fr = Some e ->
     model_loaded w1 = model_loaded w ->
     exists w2, extract_and_store (fr, w1) = (Raise x, (fr, w2))
       /\ (forall i, i <> image_id fr ->
             results_dict w2 !! i = results_dict w1 !! i)
       /\ files w2 = files w1
       /\ process_queue w2 = process_queue w1
       /\ unfinished_tasks w2 = unfinished_tasks w1) ->
  let temp := mkstemp (fst ext) (files w) in
  exists w' : world,
    background_processor_step w = (Raise too_many_calls, w')
    /\ results_dict w' =
       <[t_image_id t := failed_entry (PStr temp) too_many_calls]>
         (results_dict w)
    /\ files w' = delete temp (files w)
    /\ process_queue w' = rest
    /\ unfinished_tasks w' = unfinished_tasks w
    /\ forall dt : str,
         check_status dt (t_image_id t) w' =
           Ok (StatusError (lit "task_done() called too many times")).
Proof.
  intros Hq Hsrc Hmem He Hp Hext Hne Hw Hu Hx temp.
  set (w0 := set_queue rest (unfinished_tasks w) w).
  assert (Hfr : image_path (frame_of t) = PBuf b) by exact Hsrc.
  assert (Hfm : in_memory (frame_of t) = true) by exact Hmem.
  pose proof (resolve_source_in_memory (frame_of t) w0 e q b ext
                Hfm Hfr He Hp Hext Hw) as H1.
  change (mkstemp (fst ext) (files w0)) with temp in H1.
  set (fr1 := set_image_path (PStr temp) (set_temp_file_path temp (frame_of t)))
    in H1.
  set (w1 := set_files (insert temp b) (set_files (insert temp []) w0)) in H1.
  destruct (Hx fr1 w1 eq_refl eq_refl He eq_refl)
    as [w2 [H2 [Hr2 [Hf2 [Hq2 Hu2]]]]].
  assert (Hfm1 : in_memory fr1 = true) by exact Hmem.
  destruct (worker_finally_in_memory_uncounted fr1 w2 temp eq_refl Hne Hfm1
              ltac:(rewrite Hu2; exact Hu))
    as [w3 [H3 [Hr3 [Hf3 [Hq3 Hu3]]]]].
  assert (Hbody : worker_body (frame_of t, w0) = (Raise x, (fr1, w2))).
  { unfold worker_body. rewrite (bind_ok _ _ _ _ _ H1). exact H2. }
  assert (Hu3' : unfinished_tasks w3 <= 0).
  { rewrite Hu3, Hu2. exact Hu. }
  assert (Hres : <[t_image_id t := failed_entry (PStr temp) too_many_calls]>
                   (results_dict w3) =
                 <[t_image_id t := failed_entry (PStr temp) too_many_calls]>
                   (results_dict w)).
  { apply map_eq. intros i. destruct (decide (i = t_image_id t)) as [->|Hi].
    - rewrite !lookup_insert_eq. reflexivity.
    - rewrite !lookup_insert_ne by congruence.
      rewrite Hr3. apply (Hr2 i). exact Hi. }
  eexists.
  split; [exact (pass_uncounted w t rest _ fr1 w2 w3 Hq Hbody H3 Hu3')|].
  cbn [results_dict files process_queue unfinished_tasks set_results].
  change (image_id fr1) with (t_image_id t).
  change (image_path fr1) with (PStr temp).
  rewrite Hres, Hf3, Hf2, Hq3, Hq2, Hu3, Hu2.
  unfold w1. cbn [files set_files]. rewrite !delete_insert_eq.
  repeat split; try reflexivity.
  intros dt. apply (check_status_too_many_calls _ _ _ (PStr temp)).
  cbn [results_dict set_results]. rewrite Hres. apply lookup_insert_eq.
Qed.

End UncountedPasses.

(** ** The passes, whatever the count of unfinished tasks *)

Section CountedOrNot.
Context {E : Env}.

Lemma extract_and_store_load_failure (x : exn) (fr : frame) (w1 : world) :
  from_pretrained = Some x -> model_loaded w1 = false ->
  extract_and_store (fr, w1) =
    (Raise (RuntimeError (lit "Error loading model: " ++ exn_str x)),
     (fr, w1)).
Proof.
  intros Hx Hm. unfold extract_and_store. rewrite !bind_local. cbn [fst].
  assert (Hl : load_model w1 =
            (Raise (RuntimeError (lit "Error loading model: " ++ exn_str x)),
             w1)).
  { unfold load_model. rewrite Hm, Hx. reflexivity. }
  rewrite (bind_raise _ _ _ _ _ (lift_raise _ _ _ _ _ Hl)). reflexivity.
Qed.

Lemma extract_and_store_other_type (fr : frame) (w1 : world) :
  document_type fr <> lit "check" ->
  model_loaded w1 = true \/ from_pretrained = None ->
  exists w2,
    extract_and_store (fr, w1) =
      (Raise (UnboundLocalError (lit "extracted_data_dict")), (fr, w2))
    /\ (forall i, i <> image_id fr ->
          results_dict w2 !! i = results_dict w1 !! i)
    /\ files w2 = files w1
    /\ process_queue w2 = process_queue w1
    /\ unfinished_tasks w2 = unfinished_tasks w1.
Proof.
  intros Hdt Hload.
  destruct (load_model_ok w1 Hload) as [w2 [Hl [Hr [Hf [Hq2 [Hu2 Hm2]]]]]].
  unfold extract_and_store. rewrite !bind_local. cbn [fst].
  rewrite (bind_ok _ _ _ _ _ (lift_ok _ _ _ _ _ Hl)).
  rewrite bind_local. cbn [fst]. rewrite !bind_lift_gets.
  match goal with
  | |- context [set_entry ?i ?v] =>
      rewrite (bind_ok _ _ _ _ _ (lift_ok (set_entry i v) fr w2 _ tt eq_refl))
  end.
  match goal with
  | |- context [lift (process_extracted_data_by_type ?i ?d ?v) (_, ?w3)] =>
      destruct (process_extracted_data_unbound i d v w3 _ Hdt
                  (lookup_set_results _ _ _))
        as [txt Hx]
  end.
  rewrite (lift_raise _ _ _ _ _ Hx).
  eexists. split; [reflexivity|].
  cbn [results_dict files process_queue unfinished_tasks set_results].
  repeat split; try assumption.
  intros i Hi'. rewrite !lookup_insert_ne by congruence.
  rewrite Hr. reflexivity.
Qed.

(** X16. A check kept in memory, from the queue to the store, under
    these conditions: the task at the head of the queue carries the
    bytes of a check; the job has an entry whose path is a string; the
    temporary file has a name that is not empty and can be written; and
    the model is or can be loaded. When at least one task is counted as
    unfinished as the pass begins, the pass ends normally; the entry of
    the job holds status completed, the text the extractor returned for
    these bytes, the fields parsed from it with their text and table
    exports, and the path, image bytes and other keys it held before;
    the temporary file is gone, the task has left the queue and is
    counted as done once; and a status poll answers with the fields
    parsed from the stored text. When no task is counted as unfinished,
    [task_done] raises in the [finally] block after the result was
    stored: the handler replaces the entry by one with status error, the
    detail [task_done() called too many times], the temporary file as
    its path and no image bytes; the temporary file is gone, the count
    is as it was, and the pass raises [ValueError] out of the loop,
    ending the worker. *)
Theorem check_job_completes (w : world) (id q : str) (b : bytes)
  (rest : list task) (e : entry) (ext : str * str) :
  process_queue w =
    {| t_image_path := PBuf b; t_document_type := lit "check";
       t_image_id := id; t_in_memory := true |} :: rest ->
  results_dict w !! id = Some e ->
  e_path e = Some (PStr q) ->
  fst (get_file_extension (PStr q) tt) = Ok ext ->
  mkstemp (fst ext) (files w) <> [] ->
  write_error (mkstemp (fst ext) (files w)) b = None ->
  model_loaded w = true \/ from_pretrained = None ->
  let temp := mkstemp (fst ext) (files w) in
  let text :=
    process_document_image (<[temp := b]> (files w)) (PStr temp) (lit "check") in
  (1 <= unfinished_tasks w ->
   exists w' : world,
     background_processor_step w = (Ok tt, w')
     /\ results_dict w' = <[id := completed_check q text e]> (results_dict w)
     /\ files w' = delete temp (files w)
     /\ process_queue w' = rest
     /\ unfinished_tasks w' = unfinished_tasks w - 1
     /\ model_loaded w' = true
     /\ check_status (lit "check") id w' =
        Ok (StatusCompleted (parse_extracted_text text (lit "check"))))
  /\ (unfinished_tasks w <= 0 ->
      exists w' : world,
        background_processor_step w = (Raise too_many_calls, w')
        /\ results_dict w' =
           <[id := failed_entry (PStr temp) too_many_calls]> (results_dict w)
        /\ files w' = delete temp (files w)
        /\ process_queue w' = rest
        /\ unfinished_tasks w' = unfinished_tasks w
        /\ check_status (lit "check") id w' =
           Ok (StatusError (lit "task_done() called too many times"))).
Proof.
  intros Hq He Hp Hext Hne Hw Hload temp text. split; intros Hu.
  - exact (check_pass_in_memory w id q b rest e ext
             Hq He Hp Hext Hne Hw Hload Hu).
  - exact (check_pass_in_memory_uncounted w id q b rest e ext
             Hq He Hp Hext Hne Hw Hload Hu).
Qed.

(** X17. A check stored on disk, from the queue to the store, under
    these conditions: the file the task at the head of the queue names
    exists; the job has an entry whose path is a string; and the model
    is or can be loaded. In both cases below the file under the path of
    the entry is deleted exactly when the entry held the image bytes.
    When at least one task is counted as unfinished as the pass begins,
    the pass ends normally with the completed entry of a check, the
    extractor reading the stored file, and the task is counted as done
    once. When no task is counted as unfinished, [task_done] raises in
    the [finally] block after the result was stored: the handler
    replaces the entry by one with status error, the detail
    [task_done() called too many times], the path of the task and no
    image bytes, the count is as it was, and the pass raises
    [ValueError] out of the loop, ending the worker. *)
Theorem check_job_on_disk_completes (w : world) (id p q : str)
  (content : bytes) (rest : list task) (e : entry) :
  process_queue w =
    {| t_image_path := PStr p; t_document_type := lit "check";
       t_image_id := id; t_in_memory := false |} :: rest ->
  files w !! p = Some content ->
  results_dict w !! id = Some e ->
  e_path e = Some (PStr q) ->
  model_loaded w = true \/ from_pretrained = None ->
  let text := process_document_image (files w) (PStr p) (lit "check") in
  let files_after :=
    match e_image_data e with
    | Some _ => delete q (files w)
    | None => files w
    end in
  (1 <= unfinished_tasks w ->
   exists w' : world,
     background_processor_step w = (Ok tt, w')
     /\ results_dict w' = <[id := completed_check q text e]> (results_dict w)
     /\ files w' = files_after
     /\ process_queue w' = rest
     /\ unfinished_tasks w' = unfinished_tasks w - 1
     /\ model_loaded w' = true)
  /\ (unfinished_tasks w <= 0 ->
      exists w' : world,
        background_processor_step w = (Raise too_many_calls, w')
        /\ results_dict w' =
           <[id := failed_entry (PStr p) too_many_calls]> (results_dict w)
        /\ files w' = files_after
        /\ process_queue w' = rest
        /\ unfinished_tasks w' = unfinished_tasks w).
Proof.
  intros Hq Hf He Hp Hload text files_after. split; intros Hu.
  - exact (check_pass_on_disk w id p q content rest e Hq Hf He Hp Hload Hu).
  - exact (check_pass_on_disk_uncounted w id p q content rest e
             Hq Hf He Hp Hload Hu).
Qed.

(** X18. When the model is not loaded and cannot be loaded, a task kept
    in memory fails whatever its document type, under these conditions:
    the job has an entry whose path is a string, and the temporary file
    has a name that is not empty and can be written. In both cases below
    the entry of the job is replaced by one with status error, the
    temporary file as its path and no image bytes, and the temporary
    file is deleted. When at least one task is counted as unfinished as
    the pass begins, the detail of the entry, which a status poll
    answers, is [Error loading model: ] followed by the text of the
    exception; the task is counted as done twice, in the [finally]
    block and in the handler, so that the pass ends normally when two
    tasks or more were counted, and raises [ValueError] out of the loop,
    ending the worker, when one was. When no task is counted as
    unfinished, the detail is [task_done() called too many times], the
    count is as it was and the pass raises [ValueError] out of the
    loop. *)
Theorem model_load_failure_pass (w : world) (t : task) (b : bytes)
  (rest : list task) (e : entry) (q : str) (ext : str * str) (x : exn) :
  process_queue w = t :: rest ->
  t_image_path t = PBuf b -> t_in_memory t = true ->
  results_dict w !! t_image_id t = Some e ->
  e_path e = Some (PStr q) ->
  fst (get_file_extension (PStr q) tt) = Ok ext ->
  mkstemp (fst ext) (files w) <> [] ->
  write_error (mkstemp (fst ext) (files w)) b = None ->
  model_loaded w = false ->
  from_pretrained = Some x ->
  let temp := mkstemp (fst ext) (files w) in
  let failure := RuntimeError (lit "Error loading model: " ++ exn_str x) in
  (1 <= unfinished_tasks w ->
   exists w' : world,
     background_processor_step w = (counted_twice (unfinished_tasks w), w')
     /\ results_dict w' =
        <[t_image_id t := failed_entry (PStr temp) failure]> (results_dict w)
     /\ files w' = delete temp (files w)
     /\ process_queue w' = rest
     /\ forall dt : str,
          check_status dt (t_image_id t) w' =
            Ok (StatusError (lit "Error loading model: " ++ exn_str x)))
  /\ (unfinished_tasks w <= 0 ->
      exists w' : world,
        background_processor_step w = (Raise too_many_calls, w')
        /\ results_dict w' =
           <[t_image_id t := failed_entry (PStr temp) too_many_calls]>
             (results_dict w)
        /\ files w' = delete temp (files w)
        /\ process_queue w' = rest
        /\ unfinished_tasks w' = unfinished_tasks w
        /\ forall dt : str,
             check_status dt (t_image_id t) w' =
               Ok (StatusError (lit "task_done() called too many times"))).
Proof.
  intros Hq Hsrc Hmem He Hp Hext Hne Hw Hm Hx temp failure. split; intros Hu.
  - exact (load_failure_pass_counted w t b rest e q ext x
             Hq Hsrc Hmem He Hp Hext Hne Hw Hu Hm Hx).
  - apply (failed_pass_in_memory_uncounted w t b rest e q ext failure
             Hq Hsrc Hmem He Hp Hext Hne Hw Hu).
    intros fr w1 _ _ _ Hm1. exists w1.
    rewrite (extract_and_store_load_failure x fr w1 Hx
               ltac:(rewrite Hm1; exact Hm)).
    repeat split.
Qed.

(** X19. A task kept in memory whose document type is not check fails
    also when nothing else goes wrong, that is under these conditions:
    the job has an entry whose path is a string; the temporary file has
    a name that is not empty and can be written; and the model is or can
    be loaded. In both cases below the entry of the job is replaced by
    one with status error, the temporary file as its path and no image
    bytes, and the temporary file is deleted. When at least one task is
    counted as unfinished as the pass begins, the detail of the entry,
    which a status poll answers, is the text of the [UnboundLocalError]
    on [extracted_data_dict]; the pass ends normally when two tasks or
    more were counted, and raises [ValueError] out of the loop, ending
    the worker, when one was. When no task is counted as unfinished, the
    detail is [task_done() called too many times], the count is as it
    was and the pass raises [ValueError] out of the loop. *)
Theorem other_type_pass (w : world) (t : task) (b : bytes)
  (rest : list task) (e : entry) (q : str) (ext : str * str) :
  process_queue w = t :: rest ->
  t_image_path t = PBuf b -> t_in_memory t = true ->
  t_document_type t <> lit "check" ->
  results_dict w !! t_image_id t = Some e ->
  e_path e = Some (PStr q) ->
  fst (get_file_extension (PStr q) tt) = Ok ext ->
  mkstemp (fst ext) (files w) <> [] ->
  write_error (mkstemp (fst ext) (files w)) b = None ->
  model_loaded w = true \/ from_pretrained = None ->
  let temp := mkstemp (fst ext) (files w) in
  let failure := UnboundLocalError (lit "extracted_data_dict") in
  (1 <= unfinished_tasks w ->
   exists w' : world,
     background_processor_step w = (counted_twice (unfinished_tasks w), w')
     /\ results_dict w' =
        <[t_image_id t := failed_entry (PStr temp) failure]> (results_dict w)
     /\ files w' = delete temp (files w)
     /\ process_queue w' = rest
     /\ forall dt : str,
          check_status dt (t_image_id t) w' =
            Ok (StatusError (exn_str failure)))
  /\ (unfinished_tasks w <= 0 ->
      exists w' : world,
        background_processor_step w = (Raise too_many_calls, w')
        /\ results_dict w' =
           <[t_image_id t := failed_entry (PStr temp) too_many_calls]>
             (results_dict w)
        /\ files w' = delete temp (files w)
        /\ process_queue w' = rest
        /\ unfinished_tasks w' = unfinished_tasks w
        /\ forall dt : str,
             check_status dt (t_image_id t) w' =
               Ok (StatusError (lit "task_done() called too many times"))).
Proof.
  intros Hq Hsrc Hmem Hdt He Hp Hext Hne Hw Hload temp failure.
  split; intros Hu.
  - exact (other_type_pass_counted w t b rest e q ext
             Hq Hsrc Hmem Hdt He Hp Hext Hne Hw Hu Hload).
  - apply (failed_pass_in_memory_uncounted w t b rest e q ext failure
             Hq Hsrc Hmem He Hp Hext Hne Hw Hu).
    intros fr w1 Hd Hi He1 Hm1.
    apply extract_and_store_other_type.
    + rewrite Hd. exact Hdt.
    + rewrite Hm1. exact Hload.
Qed.

(** X23. A queued check whose file is gone by the time the worker takes
    the task is processed from the image bytes of its entry, under these
    conditions: the entry of the job holds the image bytes and a path
    that is a string; the temporary file has a name that is not empty
    and can be written; and the model is or can be loaded. The bytes are
    written to a temporary file, which is deleted by the end of the
    pass. When at least one task is counted as unfinished as the pass
    begins, the pass ends normally, the job ends as completed with what
    the extractor returns for these bytes, and the task is counted as
    done once. When no task is counted as unfinished, the handler
    replaces the entry by one with status error, the detail
    [task_done() called too many times], the temporary file as its path
    and no image bytes, the count is as it was, and the pass raises
    [ValueError] out of the loop, ending the worker. *)
Theorem check_job_restored_from_memory (w : world) (id p q : str)
  (b : bytes) (rest : list task) (e : entry) (ext : str * str) :
  process_queue w =
    {| t_image_path := PStr p; t_document_type := lit "check";
       t_image_id := id; t_in_memory := false |} :: rest ->
  files w !! p = None ->
  results_dict w !! id = Some e ->
  e_image_data e = Some b ->
  e_path e = Some (PStr q) ->
  fst (get_file_extension (PStr p) tt) = Ok ext ->
  mkstemp (fst ext) (files w) <> [] ->
  write_error (mkstemp (fst ext) (files w)) b = None ->
  model_loaded w = true \/ from_pretrained = None ->
  let temp := mkstemp (fst ext) (files w) in
  (1 <= unfinished_tasks w ->
   exists w' : world,
     background_processor_step w = (Ok tt, w')
     /\ results_dict w' =
        <[id := completed_check q (answer_for b (lit "check")) e]>
          (results_dict w)
     /\ files w' = delete temp (files w)
     /\ process_queue w' = rest
     /\ unfinished_tasks w' = unfinished_tasks w - 1)
  /\ (unfinished_tasks w <= 0 ->
      exists w' : world,
        background_processor_step w = (Raise too_many_calls, w')
        /\ results_dict w' =
           <[id := failed_entry (PStr temp) too_many_calls]> (results_dict w)
        /\ files w' = delete temp (files w)
        /\ process_queue w' = rest
        /\ unfinished_tasks w' = unfinished_tasks w).
Proof.
  intros Hq Hf He Hb Hp Hext Hne Hw Hload temp. split; intros Hu.
  - exact (check_pass_restored w id p q b rest e ext
             Hq Hf He Hb Hp Hext Hne Hw Hload Hu).
  - exact (check_pass_restored_uncounted w id p q b rest e ext
             Hq Hf He Hb Hp Hext Hne Hw Hload Hu).
Qed.

End CountedOrNot.

Lemma check_job_completes_witness :
  Demo.status_of Demo.check_done = Some completed
  /\ Demo.status_of
       (snd (@background_processor_step (Demo.answering Demo.check_answer)
               (Sample.uncounted (Demo.uploaded "check"))))
     = Some error.
Proof.
  split.
  - destruct (@check_job_completes (Demo.answering Demo.check_answer)
                (Demo.uploaded "check") Demo.job_id Demo.job_path
                Demo.small_image []
                (with_image_data Demo.small_image
                   (with_path (PStr Demo.job_path) (entry_of processing)))
                (lit ".png", lit "image/png"))
      as [H _].
    + vm_compute. reflexivity.
    + vm_compute. reflexivity.
    + vm_compute. reflexivity.
    + vm_compute. reflexivity.
    + vm_compute. discriminate.
    + vm_compute. reflexivity.
    + right. reflexivity.
    + destruct H as [w' [Hs [Hr _]]]; [vm_compute; discriminate|].
      unfold Demo.check_done, Demo.status_of. rewrite Hs. cbn [snd].
      rewrite Hr, lookup_insert_eq. reflexivity.
  - destruct (@check_job_completes (Demo.answering Demo.check_answer)
                (Sample.uncounted (Demo.uploaded "check"))
                Demo.job_id Demo.job_path Demo.small_image []
                (with_image_data Demo.small_image
                   (with_path (PStr Demo.job_path) (entry_of processing)))
                (lit ".png", lit "image/png"))
      as [_ H].
    + vm_compute. reflexivity.
    + vm_compute. reflexivity.
    + vm_compute. reflexivity.
    + vm_compute. reflexivity.
    + vm_compute. discriminate.
    + vm_compute. reflexivity.
    + right. reflexivity.
    + destruct H as [w' [Hs [Hr _]]]; [vm_compute; discriminate|].
      unfold Demo.status_of. rewrite Hs. cbn [snd].
      rewrite Hr, lookup_insert_eq. reflexivity.
Defined.

Lemma check_job_on_disk_completes_witness :
  Demo.status_of
    (snd (@background_processor_step (Demo.answering Demo.check_answer)
            (Demo.uploaded_on_disk "check")))
  = Some completed
  /\ Demo.status_of
       (snd (@background_processor_step (Demo.answering Demo.check_answer)
               (Sample.uncounted (Demo.uploaded_on_disk "check"))))
     = Some error.
Proof.
  split.
  - destruct (@check_job_on_disk_completes (Demo.answering Demo.check_answer)
                (Demo.uploaded_on_disk "check") Demo.job_id Demo.job_path
                Demo.job_path Demo.small_image []
                (with_image_data Demo.small_image
                   (with_path (PStr Demo.job_path) (entry_of processing))))
      as [H _].
    + vm_compute. reflexivity.
    + vm_compute. reflexivity.
    + vm_compute. reflexivity.
    + vm_compute. reflexivity.
    + right. reflexivity.
    + destruct H as [w' [Hs [Hr _]]]; [vm_compute; discriminate|].
      unfold Demo.status_of. rewrite Hs. cbn [snd].
      rewrite Hr, lookup_insert_eq. reflexivity.
  - destruct (@check_job_on_disk_completes (Demo.answering Demo.check_answer)
                (Sample.uncounted (Demo.uploaded_on_disk "check"))
                Demo.job_id Demo.job_path Demo.job_path Demo.small_image []
                (with_image_data Demo.small_image
                   (with_path (PStr Demo.job_path) (entry_of processing))))
      as [_ H].
    + vm_compute. reflexivity.
    + vm_compute. reflexivity.
    + vm_compute. reflexivity.
    + vm_compute. reflexivity.
    + right. reflexivity.
    + destruct H as [w' [Hs [Hr _]]]; [vm_compute; discriminate|].
      unfold Demo.status_of. rewrite Hs. cbn [snd].
      rewrite Hr, lookup_insert_eq. reflexivity.
Defined.

Lemma model_load_failure_pass_witness :
  @check_status (lit "check") Demo.job_id
    (snd (@background_processor_step Demo.unloadable (Demo.uploaded "check")))
  = Ok (StatusError (lit "Error loading model: out of memory"))
  /\ @check_status (lit "check") Demo.job_id
       (snd (@background_processor_step Demo.unloadable
               (Sample.uncounted (Demo.uploaded "check"))))
     = Ok (StatusError (lit "task_done() called too many times")).
Proof.
  split.
  - destruct (@model_load_failure_pass Demo.unloadable (Demo.uploaded "check")
                {| t_image_path := PBuf Demo.small_image;
                   t_document_type := lit "check";
                   t_image_id := Demo.job_id; t_in_memory := true |}
                Demo.small_image []
                (with_image_data Demo.small_image
                   (with_path (PStr Demo.job_path) (entry_of processing)))
                Demo.job_path (lit ".png", lit "image/png")
                (External (lit "out of memory")))
      as [H _].
    + vm_compute. reflexivity.
    + reflexivity.
    + reflexivity.
    + vm_compute. reflexivity.
    + vm_compute. reflexivity.
    + vm_compute. reflexivity.
    + vm_compute. discriminate.
    + vm_compute. reflexivity.
    + vm_compute. reflexivity.
    + reflexivity.
    + destruct H as [w' [Hs [_ [_ [_ Hc]]]]]; [vm_compute; discriminate|].
      rewrite Hs. cbn [snd]. exact (Hc (lit "check")).
  - destruct (@model_load_failure_pass Demo.unloadable
                (Sample.uncounted (Demo.uploaded "check"))
                {| t_image_path := PBuf Demo.small_image;
                   t_document_type := lit "check";
                   t_image_id := Demo.job_id; t_in_memory := true |}
                Demo.small_image []
                (with_image_data Demo.small_image
                   (with_path (PStr Demo.job_path) (entry_of processing)))
                Demo.job_path (lit ".png", lit "image/png")
                (External (lit "out of memory")))
      as [_ H].
    + vm_compute. reflexivity.
    + reflexivity.
    + reflexivity.
    + vm_compute. reflexivity.
    + vm_compute. reflexivity.
    + vm_compute. reflexivity.
    + vm_compute. discriminate.
    + vm_compute. reflexivity.
    + vm_compute. reflexivity.
    + reflexivity.
    + destruct H as [w' [Hs [_ [_ [_ [_ Hc]]]]]]; [vm_compute; discriminate|].
      rewrite Hs. cbn [snd]. exact (Hc (lit "check")).
Defined.

Lemma other_type_pass_witness :
  fst (@background_processor_step (Demo.answering Demo.passport_answer)
         (Demo.uploaded "passport"))
  = Raise (ValueError (lit "task_done() called too many times"))
  /\ @check_status (lit "passport") Demo.job_id
       (snd (@background_processor_step (Demo.answering Demo.passport_answer)
               (Sample.uncounted (Demo.uploaded "passport"))))
     = Ok (StatusError (lit "task_done() called too many times")).
Proof.
  split.
  - destruct (@other_type_pass (Demo.answering Demo.passport_answer)
                (Demo.uploaded "passport")
                {| t_image_path := PBuf Demo.small_image;
                   t_document_type := lit "passport";
                   t_image_id := Demo.job_id; t_in_memory := true |}
                Demo.small_image []
                (with_image_data Demo.small_image
                   (with_path (PStr Demo.job_path) (entry_of processing)))
                Demo.job_path (lit ".png", lit "image/png"))
      as [H _].
    + vm_compute. reflexivity.
    + reflexivity.
    + reflexivity.
    + vm_compute. discriminate.
    + vm_compute. reflexivity.
    + vm_compute. reflexivity.
    + vm_compute. reflexivity.
    + vm_compute. discriminate.
    + vm_compute. reflexivity.
    + right. reflexivity.
    + destruct H as [w' [Hs _]]; [vm_compute; discriminate|].
      rewrite Hs. vm_compute. reflexivity.
  - destruct (@other_type_pass (Demo.answering Demo.passport_answer)
                (Sample.uncounted (Demo.uploaded "passport"))
                {| t_image_path := PBuf Demo.small_image;
                   t_document_type := lit "passport";
                   t_image_id := Demo.job_id; t_in_memory := true |}
                Demo.small_image []
                (with_image_data Demo.small_image
                   (with_path (PStr Demo.job_path) (entry_of processing)))
                Demo.job_path (lit ".png", lit "image/png"))
      as [_ H].
    + vm_compute. reflexivity.
    + reflexivity.
    + reflexivity.
    + vm_compute. discriminate.
    + vm_compute. reflexivity.
    + vm_compute. reflexivity.
    + vm_compute. reflexivity.
    + vm_compute. discriminate.
    + vm_compute. reflexivity.
    + right. reflexivity.
    + destruct H as [w' [Hs [_ [_ [_ [_ Hc]]]]]]; [vm_compute; discriminate|].
      rewrite Hs. cbn [snd]. exact (Hc (lit "passport")).
Defined.

Lemma check_job_restored_from_memory_witness :
  Demo.status_of
    (snd (@background_processor_step (Demo.answering Demo.check_answer)
            Sample.cleaned))
  = Some completed
  /\ Demo.status_of
       (snd (@background_processor_step (Demo.answering Demo.check_answer)
               (Sample.uncounted Sample.cleaned)))
     = Some error.
Proof.
  split.
  - destruct (@check_job_restored_from_memory
                (Demo.answering Demo.check_answer) Sample.cleaned
                Demo.job_id Demo.job_path Demo.job_path Demo.small_image []
                (with_image_data Demo.small_image
                   (with_path (PStr Demo.job_path) (entry_of processing)))
                (lit ".png", lit "image/png"))
      as [H _].
    + vm_compute. reflexivity.
    + vm_compute. reflexivity.
    + vm_compute. reflexivity.
    + reflexivity.
    + reflexivity.
    + vm_compute. reflexivity.
    + vm_compute. discriminate.
    + reflexivity.
    + right. reflexivity.
    + destruct H as [w' [Hs [Hr _]]]; [vm_compute; discriminate|].
      unfold Demo.status_of. rewrite Hs. cbn [snd].
      rewrite Hr, lookup_insert_eq. reflexivity.
  - destruct (@check_job_restored_from_memory
                (Demo.answering Demo.check_answer)
                (Sample.uncounted Sample.cleaned)
                Demo.job_id Demo.job_path Demo.job_path Demo.small_image []
                (with_image_data Demo.small_image
                   (with_path (PStr Demo.job_path) (entry_of processing)))
                (lit ".png", lit "image/png"))
      as [_ H].
    + vm_compute. reflexivity.
    + vm_compute. reflexivity.
    + vm_compute. reflexivity.
    + reflexivity.
    + reflexivity.
    + vm_compute. reflexivity.
    + vm_compute. discriminate.
    + reflexivity.
    + right. reflexivity.
    + destruct H as [w' [Hs [Hr _]]]; [vm_compute; discriminate|].
      unfold Demo.status_of. rewrite Hs. cbn [snd].
      rewrite Hr, lookup_insert_eq. reflexivity.
Defined.
